(** * TrackAndFieldAnalytics: the 200m split-sheet parser ([200M Data/Parser.py])

    A shallow embedding of the token-based parser that turns the rows of
    [Mens_200m_by_athlete.csv] into one record per performance, and the
    properties of it that the specification states; then further properties
    of the parser, and of the text helpers of the race-analysis scraper
    ([200M Data/Diamond League Data/scraper.py]).

    Modelling choices.
    - A Python [str] is a list of Unicode code points ([list N]).
    - A Python [float] is an IEEE 754 binary64 value, [spec_float] with
      precision 53 and maximal exponent 1024; arithmetic is the standard
      library's round-to-nearest-even specification.
    - A Python [dict] with string keys is a [gmap string pyval].
    - A raised exception is [None] in the option monad.
    - Unicode tables: white space ([str.strip], [\s]) is the full table of
      CPython; case mapping is ASCII only, which is exact for the
      comparisons the parser makes (the case mappings of code points outside
      ASCII give no letter of "date", "time", "wind", "velocity",
      "reaction time", "NA" or "NULL" on its own); digits ([str.isdigit],
      [int], [\d]) are those of Latin-1, code points above U+00FF count as
      non-digits.  The same holds of the scraper's comparison with
      "200m men": no case mapping from outside ASCII gives one of its
      letters.
    - Of the scraper only the text helpers and the loops that remove
      duplicates are modelled; requests, HTML parsing, URL resolution and
      the file system are not.
    - A theorem whose truth in the code depends on the digit tables (which
      rows are athlete headers, where the stride-rate scan raises) is stated
      for rows of Latin-1 text, [latin1], where the tables of the model are
      those of Python. *)

From Stdlib Require Import ZArith NArith List String Ascii Lia Bool.
From Stdlib Require Import Floats.SpecFloat.
From stdpp Require Import base option list gmap strings fin_maps.

#[local] Open Scope N_scope.

(* ===================================================================== *)
(** * Strings *)
(* ===================================================================== *)

Module Str.

Definition char := N.
Definition str := list char.

(** An ASCII literal of the source as a [str]. *)
Definition py (s : string) : str :=
  List.map N_of_ascii (list_ascii_of_string s).

Definition nonempty (s : str) : bool :=
  match s with [] => false | _ => true end.

Definition is_ascii_digit (c : char) : bool := (48 <=? c) && (c <=? 57).
Definition is_ascii_upper (c : char) : bool := (65 <=? c) && (c <=? 90).
Definition is_ascii_lower (c : char) : bool := (97 <=? c) && (c <=? 122).

(** [Py_UNICODE_ISSPACE]: the code points [str.strip()] removes and the
    regular expression class [\s] matches. *)
Definition isspace (c : char) : bool :=
  ((9 <=? c) && (c <=? 13)) || ((28 <=? c) && (c <=? 32))
  || (c =? 133) || (c =? 160) || (c =? 5760)
  || ((8192 <=? c) && (c <=? 8202))
  || (c =? 8232) || (c =? 8233) || (c =? 8239) || (c =? 8287)
  || (c =? 12288).

Definition upper_char (c : char) : char :=
  if is_ascii_lower c then c - 32 else c.
Definition lower_char (c : char) : char :=
  if is_ascii_upper c then c + 32 else c.

Definition upper (s : str) : str := List.map upper_char s.
Definition lower (s : str) : str := List.map lower_char s.

(** [s.replace(old, new)] for a pattern [old] of one code point. *)
Definition replace1 (old : char) (new : str) (s : str) : str :=
  List.flat_map (fun c => if c =? old then new else [c]) s.

Fixpoint lstrip_with {A} (p : A -> bool) (l : list A) : list A :=
  match l with
  | [] => []
  | x :: t => if p x then lstrip_with p t else l
  end.

Definition rstrip_with {A} (p : A -> bool) (l : list A) : list A :=
  rev (lstrip_with p (rev l)).

Definition strip_with {A} (p : A -> bool) (l : list A) : list A :=
  rstrip_with p (lstrip_with p l).

(** [s.strip()] and [s.strip(c)]. *)
Definition strip (s : str) : str := strip_with isspace s.
Definition strip_char (c : char) (s : str) : str :=
  strip_with (fun x => x =? c) s.

Fixpoint startswith (p s : str) : bool :=
  match p, s with
  | [], _ => true
  | _ :: _, [] => false
  | a :: p', b :: s' => (a =? b) && startswith p' s'
  end.

(** [p in s] *)
Fixpoint contains (p s : str) : bool :=
  startswith p s || match s with [] => false | _ :: t => contains p t end.

(** [sep.join(cells)] *)
Fixpoint join (sep : str) (cells : list str) : str :=
  match cells with
  | [] => []
  | [c] => c
  | c :: rest => c ++ sep ++ join sep rest
  end.

(** [str.isdigit()]: ASCII digits and the superscripts of Latin-1. *)
Definition isdigit_char (c : char) : bool :=
  is_ascii_digit c || (c =? 178) || (c =? 179) || (c =? 185).
Definition isdigit (s : str) : bool :=
  nonempty s && forallb isdigit_char s.

Definition digits_value (ds : str) : Z :=
  fold_left (fun acc d => (10 * acc + (Z.of_N d - 48))%Z) ds 0%Z.

(** [sys.int_info.default_max_str_digits] *)
Definition int_max_str_digits : nat := 4300.

(** [int(s)] on a string for which [s.isdigit()] holds: the superscripts
    are digits but not decimal, and a string longer than the conversion
    limit is refused; both raise [ValueError]. *)
Definition int_of_digits (s : str) : option Z :=
  if forallb is_ascii_digit s && (length s <=? int_max_str_digits)%nat
  then Some (digits_value s) else None.

(** [str(n)] for an [int]. *)
Fixpoint uint_digits (u : Decimal.uint) : str :=
  match u with
  | Decimal.Nil => []
  | Decimal.D0 u => 48 :: uint_digits u
  | Decimal.D1 u => 49 :: uint_digits u
  | Decimal.D2 u => 50 :: uint_digits u
  | Decimal.D3 u => 51 :: uint_digits u
  | Decimal.D4 u => 52 :: uint_digits u
  | Decimal.D5 u => 53 :: uint_digits u
  | Decimal.D6 u => 54 :: uint_digits u
  | Decimal.D7 u => 55 :: uint_digits u
  | Decimal.D8 u => 56 :: uint_digits u
  | Decimal.D9 u => 57 :: uint_digits u
  end.

Definition of_int (n : Z) : str :=
  match n with
  | Z0 => [48]
  | Zpos p => uint_digits (Pos.to_uint p)
  | Zneg p => 45 :: uint_digits (Pos.to_uint p)
  end.

End Str.

Import Str.

(* ===================================================================== *)
(** * Floats *)
(* ===================================================================== *)

Module Float.

Definition float := spec_float.

Definition prec : Z := 53.
Definition emax : Z := 1024.

Definition zero : float := S754_zero false.

(** The double nearest to [m / 10^k] with sign [neg] (ties to even), or
    an infinity when it is out of range: what [float()] and the C
    [strtod] return for a decimal numeral. *)
Definition of_decimal (neg : bool) (m : Z) (k : nat) : float :=
  if (m =? 0)%Z then S754_zero neg
  else
    let '(q, e, l) :=
      SFdiv_core_binary prec emax m 0 (10 ^ Z.of_nat k) 0 in
    binary_round_aux prec emax neg q e l.

Definition sub (x y : float) : float := SFsub prec emax x y.
Definition ltb (x y : float) : bool := SFltb x y.

(** [x / y]; Python raises [ZeroDivisionError] for a zero divisor. *)
Definition truediv (x y : float) : option float :=
  match y with
  | S754_zero _ => None
  | _ => Some (SFdiv prec emax x y)
  end.

(** Integer nearest to [a / b], ties to even ([b > 0]). *)
Definition div_half_even (a b : Z) : Z :=
  let q := (a / b)%Z in
  let r := (a mod b)%Z in
  match (2 * r ?= b)%Z with
  | Lt => q
  | Gt => (q + 1)%Z
  | Eq => if Z.even q then q else (q + 1)%Z
  end.

(** The exact value of a finite double, in hundredths, rounded to the
    nearest integer with ties to even. *)
Definition hundredths (m : positive) (e : Z) : Z :=
  match e with
  | Zneg p => div_half_even (Zpos m * 100) (2 ^ Zpos p)
  | _ => (Zpos m * 2 ^ e * 100)%Z
  end.

(** [round(x, 2)]: infinities and NaN round to themselves; a finite [x]
    is printed with two correctly rounded decimals and read back.  The
    result is never larger in magnitude than the largest double, so the
    [OverflowError] of the general case does not arise for two digits. *)
Definition round2 (x : float) : float :=
  match x with
  | S754_finite s m e => of_decimal s (hundredths m e) 2
  | _ => x
  end.

Definition is_nan (x : float) : bool :=
  match x with S754_nan => true | _ => false end.

Definition is_finite (x : float) : bool :=
  match x with S754_zero _ | S754_finite _ _ _ => true | _ => false end.

(** [+0.0], a positive finite double or [+inf]. *)
Definition nonneg (x : float) : bool :=
  match x with
  | S754_zero false | S754_finite false _ _ | S754_infinity false => true
  | _ => false
  end.

(** A float that is not NaN and carries the sign [s]. *)
Definition signed (s : bool) (x : float) : Prop :=
  match x with
  | S754_zero s' | S754_infinity s' | S754_finite s' _ _ => s' = s
  | S754_nan => False
  end.

End Float.

Import Float.

#[global] Instance spec_float_eq_dec : EqDecision spec_float.
Proof. solve_decision. Defined.

(* ===================================================================== *)
(** * Token normaliser *)
(* ===================================================================== *)

Definition NBSP : char := 160.
Definition ZWSP : char := 8203.
Definition QUOTE : char := 34.

(** [norm]; every call site passes a string, the [None] case of the
    [Optional] argument is [norm_opt]. *)
Definition norm (s : str) : str :=
  let s := replace1 ZWSP [] (replace1 NBSP (py " ") s) in
  strip_char QUOTE (strip s).

Definition norm_opt (s : option str) : str :=
  match s with None => [] | Some s => norm s end.

(** The character class of [re.sub(r"[^0-9.\-]+", "", s)]. *)
Definition numeric_char (c : char) : bool :=
  is_ascii_digit c || (c =? 46) || (c =? 45).

Fixpoint span_digits (s : str) : str * str :=
  match s with
  | [] => ([], [])
  | c :: t =>
      if is_ascii_digit c
      then let '(ds, r) := span_digits t in (c :: ds, r)
      else ([], s)
  end.

(** [float(s)] for a string over the alphabet [0-9.-], the only strings
    [parse_float] converts: an optional sign, then digits with at most one
    point and at least one digit; anything else raises [ValueError]. *)
Definition py_float (s : str) : option float :=
  let '(neg, r) :=
    match s with
    | 45 :: t => (true, t)
    | _ => (false, s)
    end in
  let '(ip, r1) := span_digits r in
  match r1 with
  | [] =>
      if nonempty ip then Some (of_decimal neg (digits_value ip) 0) else None
  | 46 :: r2 =>
      let '(fp, r3) := span_digits r2 in
      match r3 with
      | [] =>
          if nonempty ip || nonempty fp
          then Some (of_decimal neg (digits_value (ip ++ fp)) (length fp))
          else None
      | _ => None
      end
  | _ => None
  end.

Definition parse_float (x : str) : option float :=
  let s := norm x in
  if negb (nonempty s)
     || bool_decide (upper s = py "NA") || bool_decide (upper s = py "NULL")
  then None
  else
    let s := List.filter numeric_char s in
    if bool_decide (s = []) || bool_decide (s = py "-")
       || bool_decide (s = py "--")
    then None
    else py_float s.

(* ===================================================================== *)
(** * Row helpers *)
(* ===================================================================== *)

Definition row := list str.

(** The regular expression [\([A-Z]{3}\)\s*\(\d{4}\)] anchored at the head
    of [s].  The class [\s*] is followed by a parenthesis, which is no white
    space, so the greedy match is the maximal run of white space. *)
Definition athlete_at (s : str) : bool :=
  match s with
  | 40 :: a :: b :: c :: 41 :: rest =>
      is_ascii_upper a && is_ascii_upper b && is_ascii_upper c &&
      match lstrip_with isspace rest with
      | 40 :: d1 :: d2 :: d3 :: d4 :: 41 :: _ =>
          is_ascii_digit d1 && is_ascii_digit d2
          && is_ascii_digit d3 && is_ascii_digit d4
      | _ => false
      end
  | _ => false
  end.

(** [re.search]: a match at some position. *)
Fixpoint athlete_search (s : str) : bool :=
  athlete_at s || match s with [] => false | _ :: t => athlete_search t end.

Definition looks_like_athlete (cell : str) : bool :=
  athlete_search (norm cell).

Definition source_markers : list str :=
  [py "Timing"; py "www."; py "Tsuchie"; py "analysis"; py "run speed"].

Definition is_source_text (txt : str) : bool :=
  existsb (fun k => contains k txt) source_markers.

Definition token_eq (token : str) (c : str) : bool :=
  bool_decide (lower (norm c) = lower token).

Definition row_contains_token (r : row) (token : str) : bool :=
  existsb (token_eq token) r.

Fixpoint find_token_idx (r : row) (token : str) : option nat :=
  match r with
  | [] => None
  | c :: t =>
      if token_eq token c then Some 0%nat
      else S <$> find_token_idx t token
  end.

Definition cell_nonempty (c : str) : bool := nonempty (norm c).

Definition first_nonempty_after (r : row) (start_idx : nat) : option str :=
  List.find cell_nonempty (drop (S start_idx) r).

Definition last_nonempty (r : row) : option str :=
  List.find cell_nonempty (rev r).

Definition is_meet_line (r : row) : bool :=
  match r with
  | r0 :: r1 :: _ =>
      let c0 := norm r0 in
      let c1 := norm r1 in
      let looks_meetish :=
        contains (py " - ") c1
        || (contains (py "(") c1 && contains (py ")") c1) in
      negb (nonempty c0) && nonempty c1 && looks_meetish
  | _ => false
  end.

(* ===================================================================== *)
(** * Records *)
(* ===================================================================== *)

Inductive pyval :=
| VNone
| VStr (s : str)
| VFloat (f : float)
| VInt (n : Z).

#[global] Instance pyval_eq_dec : EqDecision pyval.
Proof. solve_decision. Defined.

Abbreviation dict := (gmap string pyval).

(** [p.get(k)] and [p.get(k, d)] *)
Definition get (p : dict) (k : string) : pyval := default VNone (p !! k).
Definition get_or (p : dict) (k : string) (d : pyval) : pyval :=
  default d (p !! k).

Definition is_none (v : pyval) : bool :=
  match v with VNone => true | _ => false end.

Definition truthy (v : pyval) : bool :=
  match v with
  | VNone => false
  | VStr s => nonempty s
  | VFloat (S754_zero _) => false
  | VFloat _ => true
  | VInt n => negb (n =? 0)%Z
  end.

Definition of_opt_str (o : option str) : pyval :=
  match o with Some s => VStr s | None => VNone end.
Definition of_opt_float (o : option float) : pyval :=
  match o with Some f => VFloat f | None => VNone end.

(** The operand of float arithmetic; a [str] or [None] operand raises
    [TypeError].  The row loop stores only floats or [None] under the
    split keys, so integers do not occur there and are refused as well. *)
Definition as_float (v : pyval) : option float :=
  match v with VFloat f => Some f | _ => None end.

(** A replacement field of an f-string.  The fields of the key are strings,
    [None] or an [int]; the [repr] of a float is outside the model. *)
Definition fmt (v : pyval) : option str :=
  match v with
  | VNone => Some (py "None")
  | VStr s => Some s
  | VInt n => Some (of_int n)
  | VFloat _ => None
  end.

Definition hundred : float := of_decimal false 100 0.

(** [round(100.0 / t, 2) if t > 0 else None] *)
Definition velocity_over (t : float) : option pyval :=
  if ltb zero t then
    q ← truediv hundred t; Some (VFloat (round2 q))
  else Some VNone.

Definition compute_derived (p : dict) : option dict :=
  let t100 := get p "100m" in
  let t200 := get p "200m" in
  p1 ← (if is_none t100 then Some p
        else
          f100 ← as_float t100;
          v ← velocity_over f100;
          Some (<["Vel_0_100m" := v]>
                  (<["0-100m" := VFloat (round2 f100)]> p)));
  if is_none t100 || is_none t200 then Some p1
  else
    f100 ← as_float t100;
    f200 ← as_float t200;
    let seg2 := sub f200 f100 in
    v ← velocity_over seg2;
    Some (<["Differential" := VFloat (round2 (sub seg2 f100))]>
            (<["Vel_100_200m" := v]>
               (<["100-200m" := VFloat (round2 seg2)]> p1))).

(* ===================================================================== *)
(** * The accumulator *)
(* ===================================================================== *)

Record state := mkState {
  records : list dict;
  current_athlete : option str;
  current_meet : option str;
  current_source : option str;
  pending : dict
}.

Definition init : state := mkState [] None None None ∅.

Definition set_pending (p : dict) (st : state) : state :=
  mkState (records st) (current_athlete st) (current_meet st)
          (current_source st) p.
Definition set_meet (m : option str) (st : state) : state :=
  mkState (records st) (current_athlete st) m (current_source st)
          (pending st).
Definition set_source (s : option str) (st : state) : state :=
  mkState (records st) (current_athlete st) (current_meet st) s
          (pending st).

Definition UNDERSCORE : char := 95.

(** The f-string of [flush], before [strip("_")]. *)
Definition key_text (p : dict) : option str :=
  let sr := get p "StrideRate" in
  a ← fmt (get_or p "Athlete" (VStr []));
  m ← fmt (get_or p "Meet Info" (VStr []));
  s ← (if is_none sr then Some [] else fmt sr);
  Some (a ++ py "_" ++ m ++ py "_" ++ s).

Definition flush (st : state) : option state :=
  if bool_decide (pending st = ∅) then Some st
  else
    p ← compute_derived (pending st);
    k ← key_text p;
    let p := <["Ath_Mt_Strd" := VStr (strip_char UNDERSCORE k)]> p in
    let p :=
      match current_source st with
      | Some src =>
          if nonempty src && negb (truthy (get p "Source"))
          then <["Source" := VStr src]> p else p
      | None => p
      end in
    Some (mkState (records st ++ [p]) (current_athlete st)
                  (current_meet st) (current_source st) ∅).

(* ===================================================================== *)
(** * The row loop *)
(* ===================================================================== *)

(** The numeric cells of a slice, in order. *)
Definition numerics (cells : list str) : list float := omap parse_float cells.

Record splits := mkSplits {
  s50 : option float;
  s100 : option float;
  s150 : option float;
  s200 : option float;
  time_val : option float
}.

Definition no_splits : splits := mkSplits None None None None None.

(** Strategy A: the numbers after the "time" cell. *)
Definition strategy_a (r : row) (t_idx : option nat) : splits :=
  match t_idx with
  | Some t =>
      match numerics (drop (S t) r) with
      | n1 :: n2 :: n3 :: n4 :: n5 :: _ =>
          mkSplits (Some n1) (Some n2) (Some n3) (Some n4) (Some n5)
      | [n1; n2; n3; n4] =>
          mkSplits (Some n1) (Some n2) (Some n3) (Some n4) (Some n4)
      | _ => no_splits
      end
  | None => no_splits
  end.

(** Strategy B: every number of the row, when strategy A left the 50m
    split unset. *)
Definition strategy_b (r : row) (a : splits) : splits :=
  match s50 a with
  | Some _ => a
  | None =>
      match numerics r with
      | n1 :: n2 :: n3 :: n4 :: rest =>
          mkSplits (Some n1) (Some n2) (Some n3) (Some n4)
                   (Some (match rest with n5 :: _ => n5 | [] => n4 end))
      | _ => a
      end
  end.

Definition extract_splits (r : row) (t_idx : option nat) : splits :=
  strategy_b r (strategy_a r t_idx).

Definition lane_place (r : row) (t_idx : option nat) : option str :=
  match t_idx with
  | Some t => List.find (contains (py "/")) (drop (S t) r)
  | None => None
  end.

(** The dictionary a Date row opens. *)
Definition new_pending (st : state) (r : row) (d_idx : nat) : dict :=
  let t_idx := find_token_idx r (py "time") in
  let sp := extract_splits r t_idx in
  <["Source" := of_opt_str (current_source st)]>
  (<["Lane_Place" := of_opt_str (lane_place r t_idx)]>
  (<["Time" := of_opt_float
                 (match time_val sp with Some t => Some t | None => s200 sp end)]>
  (<["200m" := of_opt_float (s200 sp)]>
  (<["150m" := of_opt_float (s150 sp)]>
  (<["100m" := of_opt_float (s100 sp)]>
  (<["50m" := of_opt_float (s50 sp)]>
  (<["Date" := of_opt_str (first_nonempty_after r d_idx)]>
  (<["Meet Info" := of_opt_str (current_meet st)]>
  (<["Athlete" := of_opt_str (current_athlete st)]> ∅))))))))).

Definition athlete_header (st : state) (r0 : str) : option state :=
  st ← flush st;
  Some (mkState (records st) (Some r0) None None (pending st)).

Definition meet_line (st : state) (r : row) : state :=
  let st :=
    match List.find cell_nonempty (drop 1 r) with
    | Some c => set_meet (Some (norm c)) st
    | None => st
    end in
  let tail := if (2 <? length r)%nat then last_nonempty (drop 2 r) else None in
  match tail with
  | Some t =>
      if nonempty t && is_source_text t then set_source (Some t) st else st
  | None => st
  end.

Definition standalone_source (st : state) (r : row) : state :=
  match last_nonempty r with
  | Some maybe => if nonempty maybe then set_source (Some maybe) st else st
  | None => st
  end.

Definition date_row (st : state) (r : row) (d_idx : nat) : option state :=
  st ← flush st;
  Some (set_pending (new_pending st r d_idx) st).

Definition reaction_time_row (st : state) (r : row) (rt_idx : nat) : state :=
  match first_nonempty_after r rt_idx with
  | Some rt_val =>
      if nonempty rt_val
      then set_pending
             (<["RT" := of_opt_float (parse_float rt_val)]> (pending st)) st
      else st
  | None => st
  end.

Definition set_vel (k : string) (i : nat) (vals : list float) (p : dict) : dict :=
  match vals !! i with
  | Some v => <[k := VFloat v]> p
  | None => p
  end.

(** The stride-rate scan: [None] when [int] raises, [Some None] when no
    cell qualifies. *)
Fixpoint stride_rate (cells : list str) : option (option Z) :=
  match cells with
  | [] => Some None
  | c :: t =>
      let sc := norm c in
      if isdigit sc then
        iv ← int_of_digits sc;
        if (20 <=? iv)%Z && (iv <=? 130)%Z then Some (Some iv)
        else stride_rate t
      else stride_rate t
  end.

Definition wind_row (st : state) (r : row) (w_idx : nat) : option state :=
  let p := pending st in
  let p :=
    match first_nonempty_after r w_idx with
    | Some w_val => if nonempty w_val then <["Wind" := VStr w_val]> p else p
    | None => p
    end in
  match find_token_idx r (py "velocity") with
  | Some v_idx =>
      let vel_vals := numerics (take 9 (drop (S v_idx) r)) in
      let p := set_vel "Vel_50m" 0 vel_vals p in
      let p := set_vel "Vel_100m" 1 vel_vals p in
      let p := set_vel "Vel_150m" 2 vel_vals p in
      let p := set_vel "Vel_200m" 3 vel_vals p in
      sr ← stride_rate (drop (S v_idx) r);
      Some (set_pending
              (match sr with
               | Some iv => <["StrideRate" := VInt iv]> p
               | None => p
               end) st)
  | None => Some (set_pending p st)
  end.

Definition is_empty_cell (c : str) : bool := negb (nonempty c).

(** One iteration of [for row in rows]. *)
Definition step (st : state) (r : row) : option state :=
  let r := rstrip_with is_empty_cell r in
  match r with
  | [] => Some st
  | r0 :: _ =>
      if looks_like_athlete r0 then athlete_header st r0
      else if is_meet_line r then Some (meet_line st r)
      else
        let joined := join (py ",") r in
        if is_source_text joined && negb (row_contains_token r (py "date"))
        then Some (standalone_source st r)
        else
          match find_token_idx r (py "date") with
          | Some d_idx => date_row st r d_idx
          | None =>
              match find_token_idx r (py "reaction time") with
              | Some rt_idx => Some (reaction_time_row st r rt_idx)
              | None =>
                  match find_token_idx r (py "wind") with
                  | Some w_idx => wind_row st r w_idx
                  | None => Some st
                  end
              end
          end
  end.

Fixpoint run (st : state) (rows : list row) : option state :=
  match rows with
  | [] => Some st
  | r :: rest => st ← step st r; run st rest
  end.

(** The script from the rows of the CSV reader to [records]. *)
Definition parse (raw : list row) : option (list dict) :=
  let rows := List.map (List.map norm) raw in
  st ← run init rows;
  st ← flush st;
  Some (records st).

(* ===================================================================== *)
(** * Classification *)
(* ===================================================================== *)

Inductive category :=
| AthleteMarker
| MeetLine
| DateRow
| ReactionTimeRow
| WindRow
| SourceLine
| Unclassified.

Definition is_athlete_row (r : row) : bool :=
  match r with r0 :: _ => looks_like_athlete r0 | [] => false end.

Definition is_source_row (r : row) : bool :=
  is_source_text (join (py ",") r) && negb (row_contains_token r (py "date")).

Definition has_token (token : str) (r : row) : bool :=
  row_contains_token r token.

(** An ordered list of rules, the first that matches wins. *)
Fixpoint first_match (rules : list ((row -> bool) * category)) (r : row)
  : category :=
  match rules with
  | [] => Unclassified
  | (p, c) :: rest => if p r then c else first_match rest r
  end.

(** The order in which the row loop tests a row. *)
Definition loop_rules : list ((row -> bool) * category) :=
  [ (is_athlete_row, AthleteMarker);
    (is_meet_line, MeetLine);
    (is_source_row, SourceLine);
    (has_token (py "date"), DateRow);
    (has_token (py "reaction time"), ReactionTimeRow);
    (has_token (py "wind"), WindRow) ].

(** The priority order 1-7 of the specification. *)
Definition spec_rules : list ((row -> bool) * category) :=
  [ (is_athlete_row, AthleteMarker);
    (is_meet_line, MeetLine);
    (has_token (py "date"), DateRow);
    (has_token (py "reaction time"), ReactionTimeRow);
    (has_token (py "wind"), WindRow);
    (is_source_row, SourceLine) ].

Definition classify : row -> category := first_match loop_rules.
Definition classify_spec : row -> category := first_match spec_rules.

(** The branch of the row loop that belongs to a category. *)
Definition handle (c : category) (st : state) (r : row) : option state :=
  match c with
  | AthleteMarker =>
      match r with r0 :: _ => athlete_header st r0 | [] => Some st end
  | MeetLine => Some (meet_line st r)
  | SourceLine => Some (standalone_source st r)
  | DateRow =>
      match find_token_idx r (py "date") with
      | Some d_idx => date_row st r d_idx
      | None => Some st
      end
  | ReactionTimeRow =>
      match find_token_idx r (py "reaction time") with
      | Some rt_idx => Some (reaction_time_row st r rt_idx)
      | None => Some st
      end
  | WindRow =>
      match find_token_idx r (py "wind") with
      | Some w_idx => wind_row st r w_idx
      | None => Some st
      end
  | Unclassified => Some st
  end.

(** The row as the loop sees it, without its trailing empty cells. *)
Definition trim (r : row) : row := rstrip_with is_empty_cell r.

(** A cell that contains a parenthesised code of three upper-case letters,
    then white space, then a parenthesised number of four digits. *)
Definition has_athlete_pattern (cell : str) : Prop :=
  exists pre a b c ws d1 d2 d3 d4 post,
    cell = pre ++ [40; a; b; c; 41] ++ ws ++ [40; d1; d2; d3; d4; 41] ++ post
    /\ is_ascii_upper a = true /\ is_ascii_upper b = true
    /\ is_ascii_upper c = true
    /\ forallb isspace ws = true
    /\ is_ascii_digit d1 = true /\ is_ascii_digit d2 = true
    /\ is_ascii_digit d3 = true /\ is_ascii_digit d4 = true.

(** The number parser as the specification words it: of the minus signs
    only a leading one is kept. *)
Definition spec_strip (s : str) : str :=
  match s with
  | 45 :: t => 45 :: List.filter (fun c => is_ascii_digit c || (c =? 46)) t
  | _ => List.filter (fun c => is_ascii_digit c || (c =? 46)) s
  end.

Definition parse_number_spec (x : str) : option float :=
  let s := norm x in
  if negb (nonempty s)
     || bool_decide (upper s = py "NA") || bool_decide (upper s = py "NULL")
  then None
  else py_float (spec_strip s).

(** The identity key as the specification words it: the non-empty
    components joined by the separator. *)
Definition key_spec (athlete meet stride : str) : str :=
  join (py "_") (List.filter nonempty [athlete; meet; stride]).

(* ===================================================================== *)
(** * The shape of an open record *)
(* ===================================================================== *)

Definition float_or_none (v : pyval) : bool :=
  match v with VNone | VFloat _ => true | _ => false end.
Definition str_or_none (v : pyval) : bool :=
  match v with VNone | VStr _ => true | _ => false end.
Definition int_or_none (v : pyval) : bool :=
  match v with VNone | VInt _ => true | _ => false end.

Definition derived_keys : list string :=
  ["0-100m"; "Vel_0_100m"; "100-200m"; "Vel_100_200m"; "Differential";
   "Ath_Mt_Strd"]%string.

(** What the row loop keeps true of [pending]: the splits are floats or
    [None], the key components strings, [None] or an integer, and no
    derived field is written before the flush. *)
Definition pending_ok (p : dict) : bool :=
  float_or_none (get p "100m") && float_or_none (get p "200m")
  && str_or_none (get p "Athlete") && str_or_none (get p "Meet Info")
  && int_or_none (get p "StrideRate")
  && forallb (fun k => bool_decide (p !! k = None)) derived_keys.

(** [p.get(k) is None]: the field is missing or holds [None]. *)
Definition absent (p : dict) (k : string) : Prop := get p k = VNone.

Definition present_nonneg (p : dict) (k : string) : Prop :=
  exists f, p !! k = Some (VFloat f) /\ nonneg f = true.

(** Sample rows. *)
Definition lausanne_meet : row :=
  [py ""; py "Lausanne Diamond League - 200m"].
Definition lausanne_date : row :=
  List.map py ["Date"; ""; "14 JUN 2024"; "Time"; ""; "5.82"; "10.10";
               "14.55"; "19.95"; "19.95"]%string.
Definition reaction_row : row := [py "Reaction time"; py "0.142"].
Definition reaction_row_with_source : row :=
  [py "Reaction time"; py "0.142"; py "Swiss Timing"].
Definition wind_row_with_source : row :=
  [py "Wind"; py "+0.3"; py "Omega Timing"].
Definition lyles : str := py "Lyles, Noah (USA) (1997)".
Definition contexts_kept (st st' : state) : Prop :=
  current_athlete st' = current_athlete st
  /\ current_meet st' = current_meet st
  /\ current_source st' = current_source st.

(** The categories that own no context field. *)
Definition neutral (c : category) : bool :=
  match c with
  | DateRow | ReactionTimeRow | WindRow | Unclassified => true
  | _ => false
  end.

(** A field of the open record after the rows, and of the record the
    flush then appends. *)
Definition pending_field (rows : list row) (k : string) : option pyval :=
  st ← run init rows; pending st !! k.
Definition flushed_field (rows : list row) (k : string) : option pyval :=
  st ← run init rows; st ← flush st; rec ← last (records st); rec !! k.

(** The four splits and the official time of an open record. *)
Definition splits_are (p : dict) (a b c d t : float) : Prop :=
  p !! "50m" = Some (VFloat a) /\ p !! "100m" = Some (VFloat b)
  /\ p !! "150m" = Some (VFloat c) /\ p !! "200m" = Some (VFloat d)
  /\ p !! "Time" = Some (VFloat t).

(** The numeric cells after the "time" cell, when there is one. *)
Definition numerics_after_time (r : row) : option (list float) :=
  t ← find_token_idx r (py "time"); Some (numerics (drop (S t) r)).

Definition flushed_count (rows : list row) : option nat :=
  st ← run init rows; st ← flush st; Some (length (records st)).

(** A field of the [i]-th record of the output. *)
Definition field (raw : list row) (i : nat) (k : string) : option pyval :=
  recs ← parse raw; rec ← recs !! i; rec !! k.

Definition thirty_thousand_row : row :=
  List.map py ["Date"; "1 JAN 2020"; "Time"; "1"; "30000"; "40000";
               "70000"]%string.

(* ===================================================================== *)
(** * Tactics *)
(* ===================================================================== *)

Ltac map_lookups :=
  repeat (rewrite lookup_insert_eq
          || (rewrite lookup_insert_ne by discriminate)
          || rewrite lookup_empty).

Ltac key_side :=
  discriminate
  || (unfold derived_keys; rewrite ?not_elem_of_cons;
      repeat split; (discriminate || apply not_elem_of_nil)).

(* ===================================================================== *)
(** * Further definitions: the output columns and counting *)
(* ===================================================================== *)

(** The first kept character is a minus sign. *)
Definition starts_with_minus (s : str) : bool :=
  match s with 45 :: _ => true | _ => false end.

(** The characters of a numeral: digits and the point. *)
Definition numeral_char (c : char) : bool := is_ascii_digit c || (c =? 46).

(** A row of empty cells only, which the loop skips. *)
Definition is_blank_row (r : row) : bool := forallb is_empty_cell r.

(** [cols], the column order of the output table. *)
Definition cols : list string :=
  ["Athlete"; "Meet Info"; "Lane_Place"; "Wind"; "Date"; "RT";
   "50m"; "100m"; "150m"; "200m"; "Time";
   "0-100m"; "100-200m"; "Differential";
   "Vel_50m"; "Vel_100m"; "Vel_150m"; "Vel_200m";
   "Vel_0_100m"; "Vel_100_200m";
   "StrideRate"; "Source"; "Ath_Mt_Strd"]%string.

(** The keys of the dictionary a Date row builds. *)
Definition date_keys : list string :=
  ["Athlete"; "Meet Info"; "Date"; "50m"; "100m"; "150m"; "200m"; "Time";
   "Lane_Place"; "Source"]%string.

(** The keys the row loop writes into [pending]. *)
Definition raw_keys : list string :=
  date_keys
  ++ ["RT"; "Wind"; "Vel_50m"; "Vel_100m"; "Vel_150m"; "Vel_200m";
      "StrideRate"]%string.

(** Membership of a literal key in one of the key lists. *)
Ltac in_keys :=
  unfold raw_keys, date_keys, cols; cbn [app];
  rewrite !elem_of_cons; tauto.

Definition category_eqb (a b : category) : bool :=
  match a, b with
  | AthleteMarker, AthleteMarker | MeetLine, MeetLine | DateRow, DateRow
  | ReactionTimeRow, ReactionTimeRow | WindRow, WindRow
  | SourceLine, SourceLine | Unclassified, Unclassified => true
  | _, _ => false
  end.

(** The number of rows of a category, as the loop classifies them. *)
Definition count_category (c : category) (rows : list row) : nat :=
  length (List.filter (fun r => category_eqb (classify (trim r)) c) rows).

(** The open record counts as one record to come. *)
Definition open_count (st : state) : nat :=
  (length (records st) + if bool_decide (pending st = ∅) then 0 else 1)%nat.

(** The state with [pre] put in front of the output. *)
Definition shift (pre : list dict) (st : state) : state :=
  mkState (pre ++ records st) (current_athlete st) (current_meet st)
          (current_source st) (pending st).

(** The stride rate of a record is unset or an integer from 20 to 130. *)
Definition stride_ok (p : dict) : Prop :=
  match p !! "StrideRate" with
  | None => True
  | Some (VInt iv) => (20 <= iv <= 130)%Z
  | Some _ => False
  end.

(** Every key of the dictionary is in the list. *)
Definition keys_within (ks : list string) (p : dict) : Prop :=
  forall k, is_Some (p !! k) -> k ∈ ks.

Definition all_ascii (s : str) : bool := forallb (fun c => c <? 128) s.

(** The code points of Latin-1, on which the digit tables of this model are
    those of Python. *)
Definition latin1 (s : str) : bool := forallb (fun c => c <? 256) s.

(** The map is unchanged or non-empty. *)
Definition grown (p p' : dict) : Prop := p' = p \/ p' <> ∅.

(** The number of records a row can add to those emitted or open. *)
Definition opens (c : category) : nat :=
  match c with
  | DateRow | ReactionTimeRow | WindRow => 1
  | _ => 0
  end.

Definition opens_always (c : category) : nat :=
  match c with DateRow => 1 | _ => 0 end.


(** The derived fields of a record agree with its splits. *)
Definition derived_consistent (rec : dict) : Prop :=
  match get rec "100m" with
  | VFloat t100 =>
      rec !! "0-100m" = Some (VFloat (round2 t100))
      /\ match get rec "200m" with
         | VFloat t200 =>
             rec !! "100-200m" = Some (VFloat (round2 (sub t200 t100)))
             /\ rec !! "Differential"
                = Some (VFloat (round2 (sub (sub t200 t100) t100)))
         | _ => rec !! "100-200m" = None /\ rec !! "Differential" = None
         end
  | _ =>
      rec !! "0-100m" = None /\ rec !! "Vel_0_100m" = None
      /\ rec !! "100-200m" = None /\ rec !! "Vel_100_200m" = None
      /\ rec !! "Differential" = None
  end.

(** The identity key is a string without an underscore at either end. *)
Definition key_trimmed (rec : dict) : Prop :=
  exists k, rec !! "Ath_Mt_Strd" = Some (VStr k)
            /\ (forall t, k <> UNDERSCORE :: t)
            /\ (forall t, k <> t ++ [UNDERSCORE]).

(** What holds of the open record beyond its types. *)
Definition pending_inv (p : dict) : Prop :=
  pending_ok p = true /\ keys_within raw_keys p /\ stride_ok p.

(** What holds of every record of the output. *)
Definition record_ok (rec : dict) : Prop :=
  keys_within cols rec /\ stride_ok rec /\ key_trimmed rec
  /\ derived_consistent rec.

Definition state_inv (st : state) : Prop :=
  pending_inv (pending st) /\ Forall record_ok (records st).

(** The fields of the open record that a row of the category may write;
    the athlete header and the Date row close the record instead. *)
Definition written_keys (c : category) : list string :=
  match c with
  | ReactionTimeRow => ["RT"]
  | WindRow =>
      ["Wind"; "Vel_50m"; "Vel_100m"; "Vel_150m"; "Vel_200m"; "StrideRate"]
  | _ => []
  end%string.

(** [p'] is [p] but for new values of keys of [ks]: no key is removed. *)
Definition framed (ks : list string) (p p' : dict) : Prop :=
  (forall k, k ∉ ks -> p' !! k = p !! k)
  /\ (forall k, is_Some (p !! k) -> is_Some (p' !! k)).

(** The superscript digits of Latin-1: digits for [str.isdigit] that [int]
    refuses. *)
Definition is_superscript (c : char) : bool :=
  (c =? 178) || (c =? 179) || (c =? 185).

(** A cell on which the stride-rate scan cannot raise. *)
Definition cell_safe (c : str) : Prop :=
  isdigit (norm c) = true -> is_Some (int_of_digits (norm c)).

(** An ASCII cell within the integer conversion limit. *)
Definition plain_cell (c : str) : bool :=
  all_ascii c && (length c <=? int_max_str_digits)%nat.

(** A wind row with its velocities and a stride rate. *)
Definition wind_row_after_date : row :=
  List.map py ["Wind"; "+0.3"; "Velocity"; "8.59"; "11.68"; "11.24"; "10.15";
               "45"]%string.

(** The state with the record of the Lausanne Date row open, and the state
    after the wind row. *)
Definition lausanne_open : state :=
  set_pending (new_pending init lausanne_date 0) init.
Definition lausanne_wind : state :=
  default lausanne_open (step lausanne_open wind_row_after_date).

(** A meet line that carries its source, and the state after an athlete
    header, that meet line and the Lausanne Date row: the three contexts are
    set and a record is open. *)
Definition lausanne_meet_source : row :=
  [py ""; py "Lausanne Diamond League - 200m"; py "Swiss Timing"].
Definition lyles_open : state :=
  default init (run init [[lyles]; lausanne_meet_source; lausanne_date]).
Definition bednarek : str := py "Bednarek, Kenneth (USA) (1998)".

(** A wind row with a superscript two after the velocity cell. *)
Definition superscript_row : row :=
  [py "Wind"; py "+0.3"; py "Velocity"; py "10.1"; [178]].

(* ===================================================================== *)
(** * The scraper's text helpers ([Diamond League Data/scraper.py]) *)
(* ===================================================================== *)

Module Scraper.

(** [s.split()]: the maximal runs of characters that are no white space. *)
Fixpoint split (s : str) : list str :=
  match s with
  | [] => []
  | c :: t =>
      if isspace c then split t
      else
        match t with
        | c' :: _ =>
            if isspace c' then [c] :: split t
            else match split t with
                 | w :: ws => (c :: w) :: ws
                 | [] => [[c]]
                 end
        | [] => [[c]]
        end
  end.

(** [s.replace(old, new)] for a non-empty [old]: from left to right, the
    matches do not overlap; [skip] counts the characters of a match still to
    pass over. *)
Fixpoint replace_from (old new : str) (skip : nat) (s : str) : str :=
  match s with
  | [] => []
  | c :: t =>
      match skip with
      | S k => replace_from old new k t
      | O =>
          if startswith old s
          then new ++ replace_from old new (length old - 1) t
          else c :: replace_from old new O t
      end
  end.

Definition replace (old new s : str) : str := replace_from old new 0 s.

Definition normalize_text (s : str) : str :=
  lower (strip (join (py " ") (split s))).

Definition is_200m_men (text : str) : bool :=
  bool_decide (replace (py "200 m") (py "200m") (normalize_text text)
               = py "200m men").

(** The loop that removes duplicates and keeps the order, with its set of
    keys seen so far. *)
Fixpoint dedup_from `{Countable A} (seen : gset A) (l : list A) : list A :=
  match l with
  | [] => []
  | x :: t =>
      if bool_decide (x ∈ seen) then dedup_from seen t
      else x :: dedup_from ({[x]} ∪ seen) t
  end.

Definition dedup `{Countable A} (l : list A) : list A := dedup_from ∅ l.

(** A word: not empty and without white space. *)
Definition word (w : str) : Prop :=
  nonempty w = true /\ forallb (fun c => negb (isspace c)) w = true.

End Scraper.

(* ===================================================================== *)
(** * Facts about the float model *)
(* ===================================================================== *)

Section FloatFacts.

#[local] Open Scope Z_scope.

Lemma shr_1_nonneg mrs : 0 <= shr_m mrs -> 0 <= shr_m (shr_1 mrs).
Proof.
  destruct mrs as [m r s]; simpl.
  destruct m as [|[p|p|]|[p|p|]]; simpl; lia.
Qed.

Lemma iter_pos_invariant {A} (P : A -> Prop) (f : A -> A) :
  (forall x, P x -> P (f x)) ->
  forall p x, P x -> P (@SpecFloat.iter_pos A f p x).
Proof.
  intros Hf p. induction p as [p IH|p IH|]; simpl; intros x Hx; auto.
Qed.

Lemma shr_nonneg mrs e n :
  0 <= shr_m mrs -> 0 <= shr_m (fst (shr mrs e n)).
Proof.
  intros H. destruct n as [|p|p]; simpl; auto.
  apply (iter_pos_invariant (fun r => 0 <= shr_m r)); auto.
  apply shr_1_nonneg.
Qed.

Lemma shr_record_of_loc_m m l : shr_m (shr_record_of_loc m l) = m.
Proof. destruct l as [|[]]; reflexivity. Qed.

Lemma shr_fexp_nonneg m e l :
  0 <= m -> 0 <= shr_m (fst (shr_fexp prec emax m e l)).
Proof.
  intros H. unfold shr_fexp. apply shr_nonneg.
  now rewrite shr_record_of_loc_m.
Qed.

Lemma round_nearest_even_nonneg m l :
  0 <= m -> 0 <= round_nearest_even m l.
Proof.
  intros H. destruct l as [|[]]; simpl; try lia.
  destruct (Z.even m); lia.
Qed.

Lemma binary_round_aux_signed s m e l :
  0 <= m -> signed s (binary_round_aux prec emax s m e l).
Proof.
  intros H. unfold binary_round_aux.
  pose proof (shr_fexp_nonneg m e l H) as H1.
  destruct (shr_fexp prec emax m e l) as [mrs' e'] eqn:E1. simpl in H1.
  pose proof (shr_fexp_nonneg
                (round_nearest_even (shr_m mrs') (loc_of_shr_record mrs'))
                e' loc_Exact
                (round_nearest_even_nonneg _ _ H1)) as H2.
  destruct (shr_fexp prec emax _ e' loc_Exact) as [mrs'' e''] eqn:E2.
  simpl in H2.
  destruct (shr_m mrs'') as [|p|p]; simpl; try lia; auto.
  destruct (e'' <=? emax - prec); simpl; auto.
Qed.

Lemma div_core_nonneg m1 e1 m2 e2 :
  0 <= m1 -> 0 < m2 ->
  0 <= fst (fst (SFdiv_core_binary prec emax m1 e1 m2 e2)).
Proof.
  intros H1 H2. unfold SFdiv_core_binary.
  set (s := e1 - e2 - _).
  set (m' := match s with Z0 => m1 | Zpos _ => Z.shiftl m1 s | Zneg _ => 0 end).
  assert (Hm' : 0 <= m').
  { subst m'. destruct s; try lia. apply Z.shiftl_nonneg. lia. }
  pose proof (Z.div_pos m' m2 Hm' H2) as Hq.
  unfold Z.div in Hq.
  destruct (Z.div_eucl m' m2) as [q r]. simpl. exact Hq.
Qed.

Lemma of_decimal_signed s m k : 0 <= m -> signed s (of_decimal s m k).
Proof.
  intros H. unfold of_decimal.
  destruct (m =? 0) eqn:E; [reflexivity|].
  pose proof (div_core_nonneg m 0 (10 ^ Z.of_nat k) 0 H
                ltac:(apply Z.pow_pos_nonneg; lia)) as Hq.
  destruct (SFdiv_core_binary prec emax m 0 (10 ^ Z.of_nat k) 0)
    as [[q e] l].
  simpl in Hq. now apply binary_round_aux_signed.
Qed.

Lemma div_half_even_nonneg a b : 0 <= a -> 0 < b -> 0 <= div_half_even a b.
Proof.
  intros Ha Hb. unfold div_half_even.
  pose proof (Z.div_pos a b Ha Hb).
  destruct (2 * (a mod b) ?= b); [destruct (Z.even (a / b))| |]; lia.
Qed.

Lemma hundredths_nonneg m e : 0 <= hundredths m e.
Proof.
  unfold hundredths. destruct e as [|p|p].
  - lia.
  - assert (0 < 2 ^ Z.pos p) by (apply Z.pow_pos_nonneg; lia). nia.
  - apply div_half_even_nonneg; [lia|]. apply Z.pow_pos_nonneg; lia.
Qed.

Lemma signed_false_nonneg x : signed false x -> nonneg x = true.
Proof. destruct x as [[]|[]| |[] ? ?]; simpl; intros H; congruence || tauto. Qed.

Lemma signed_not_nan s x : signed s x -> is_nan x = false.
Proof. destruct x; simpl; tauto. Qed.

Lemma round2_nonneg x : nonneg x = true -> nonneg (round2 x) = true.
Proof.
  destruct x as [[]|[]| |[] m e]; simpl; try congruence.
  intros _. apply signed_false_nonneg, of_decimal_signed, hundredths_nonneg.
Qed.

Lemma hundred_eq : hundred = S754_finite false 7036874417766400 (-46).
Proof. vm_compute. reflexivity. Qed.

(** [0 < t]: [t] is a positive double or [+inf]. *)
Lemma ltb_zero_pos t :
  ltb zero t = true ->
  (exists m e, t = S754_finite false m e) \/ t = S754_infinity false.
Proof.
  destruct t as [s|[]| |[] m e]; simpl; try discriminate; eauto.
Qed.

Lemma truediv_hundred_pos t :
  ltb zero t = true ->
  exists q, truediv hundred t = Some q /\ nonneg q = true.
Proof.
  intros H. destruct (ltb_zero_pos t H) as [(m & e & ->)| ->].
  - rewrite hundred_eq. unfold truediv, SFdiv.
    pose proof (div_core_nonneg (Z.pos 7036874417766400) (-46) (Z.pos m) e
                  ltac:(lia) ltac:(lia)) as Hq.
    destruct (SFdiv_core_binary prec emax _ (-46) (Z.pos m) e) as [[q e'] l].
    eexists; split; [reflexivity|].
    apply signed_false_nonneg. simpl in Hq.
    now apply (binary_round_aux_signed false).
  - rewrite hundred_eq. simpl. eauto.
Qed.

(** The velocity of a segment never fails: it is [None] for a duration
    that is not positive and a non-negative float otherwise. *)
Lemma velocity_over_spec t :
  (ltb zero t = false /\ velocity_over t = Some VNone)
  \/ (ltb zero t = true /\
      exists v, velocity_over t = Some (VFloat v) /\ nonneg v = true).
Proof.
  unfold velocity_over. destruct (ltb zero t) eqn:E; [right|left]; auto.
  split; [reflexivity|].
  destruct (truediv_hundred_pos t E) as (q & -> & Hq). simpl.
  eexists; split; [reflexivity|]. now apply round2_nonneg.
Qed.

End FloatFacts.

(* ===================================================================== *)
(** * The number parser *)
(* ===================================================================== *)

Section ParseFloat.

Lemma fold_digits_nonneg ds acc :
  (0 <= acc)%Z -> forallb is_ascii_digit ds = true ->
  (0 <= fold_left (fun a d => (10 * a + (Z.of_N d - 48))%Z) ds acc)%Z.
Proof.
  revert acc. induction ds as [|d ds IH]; simpl; intros acc Hacc Hds; [lia|].
  apply andb_prop in Hds as [Hd Hds]. apply IH; [|exact Hds].
  unfold is_ascii_digit in Hd. apply andb_prop in Hd as [Hd _].
  apply N.leb_le in Hd. lia.
Qed.

Lemma digits_value_nonneg ds :
  forallb is_ascii_digit ds = true -> (0 <= digits_value ds)%Z.
Proof. apply fold_digits_nonneg. lia. Qed.

Lemma span_digits_all s :
  forallb is_ascii_digit (fst (span_digits s)) = true.
Proof.
  induction s as [|c t IH]; simpl; [reflexivity|].
  destruct (is_ascii_digit c) eqn:E; [|reflexivity].
  destruct (span_digits t) as [ds r]. simpl in *. now rewrite E.
Qed.

Lemma py_float_not_nan s f : py_float s = Some f -> is_nan f = false.
Proof.
  unfold py_float.
  set (nr := match s with 45 :: t => (true, t) | _ => (false, s) end).
  destruct nr as [neg r].
  pose proof (span_digits_all r) as Hip.
  destruct (span_digits r) as [ip r1]. simpl in Hip.
  destruct r1 as [|c r2].
  - destruct (nonempty ip); [|discriminate].
    intros [= <-]. eapply signed_not_nan, of_decimal_signed.
    now apply digits_value_nonneg.
  - destruct (N.eq_dec c 46) as [->|Hc].
    + pose proof (span_digits_all r2) as Hfp.
      destruct (span_digits r2) as [fp r3]. simpl in Hfp.
      destruct r3; [|discriminate].
      destruct (nonempty ip || nonempty fp); [|discriminate].
      intros [= <-]. eapply signed_not_nan, of_decimal_signed.
      apply digits_value_nonneg. rewrite forallb_app, Hip, Hfp. reflexivity.
    + intros H. exfalso. destruct c as [|p]; [discriminate|].
      repeat (destruct p as [p|p|]; simpl in H; try discriminate);
        congruence.
Qed.

Lemma parse_float_not_nan x f : parse_float x = Some f -> is_nan f = false.
Proof.
  unfold parse_float.
  destruct (_ || _ || _); [discriminate|].
  destruct (_ || _ || _); [discriminate|].
  apply py_float_not_nan.
Qed.

(** The test for the leftovers "", "-" and "--" refuses nothing that
    [float] would accept. *)
Lemma parse_float_unfold x :
  parse_float x =
    if negb (nonempty (norm x))
       || bool_decide (upper (norm x) = py "NA")
       || bool_decide (upper (norm x) = py "NULL")
    then None
    else py_float (List.filter numeric_char (norm x)).
Proof.
  unfold parse_float. destruct (_ || _ || _); [reflexivity|].
  destruct (bool_decide (List.filter numeric_char (norm x) = [])) eqn:E1.
  { apply bool_decide_eq_true in E1. rewrite E1. reflexivity. }
  destruct (bool_decide (List.filter numeric_char (norm x) = py "-")) eqn:E2.
  { apply bool_decide_eq_true in E2. rewrite E2. reflexivity. }
  destruct (bool_decide (List.filter numeric_char (norm x) = py "--")) eqn:E3.
  { apply bool_decide_eq_true in E3. rewrite E3. reflexivity. }
  reflexivity.
Qed.

End ParseFloat.

(** C6 (as the code has it): [parse_float] is a total function that gives
    either a float that is never NaN (finite, or infinite when the digits
    exceed the range of a double) or the absent marker; the empty string and
    "NA"/"NULL" in any case give absent; otherwise every character that is
    not an ASCII digit, a point or a minus sign (in any position) is removed
    and the rest is converted, a failed conversion giving absent. *)
Theorem C6_parse_float_absent_or_number (x : str) :
  (parse_float x = None
   \/ exists f, parse_float x = Some f /\ is_nan f = false)
  /\ (norm x = [] \/ upper (norm x) = py "NA" \/ upper (norm x) = py "NULL" ->
      parse_float x = None)
  /\ (norm x <> [] -> upper (norm x) <> py "NA" ->
      upper (norm x) <> py "NULL" ->
      parse_float x = py_float (List.filter numeric_char (norm x))).
Proof.
  split; [|split].
  - destruct (parse_float x) as [f|] eqn:E; [right|left; reflexivity].
    exists f. split; [reflexivity|]. now apply parse_float_not_nan in E.
  - intros H. rewrite parse_float_unfold.
    destruct H as [H|[H|H]]; rewrite H; simpl.
    + reflexivity.
    + rewrite orb_true_r. reflexivity.
    + rewrite orb_true_r. reflexivity.
  - intros H1 H2 H3. rewrite parse_float_unfold.
    destruct (norm x) as [|c s] eqn:E; [congruence|]. simpl negb.
    rewrite !bool_decide_eq_false_2 by assumption. reflexivity.
Qed.

Lemma C6_parse_float_absent_or_number_witness :
  (norm (py " 19.95s ") <> []
   /\ upper (norm (py " 19.95s ")) <> py "NA"
   /\ upper (norm (py " 19.95s ")) <> py "NULL")
  /\ parse_float (py " 19.95s ")
     = py_float (List.filter numeric_char (norm (py " 19.95s ")))
  /\ upper (norm (py "na")) = py "NA"
  /\ parse_float (py "na") = None.
Proof.
  assert (H1 : norm (py " 19.95s ") <> []) by (vm_compute; discriminate).
  assert (H2 : upper (norm (py " 19.95s ")) <> py "NA")
    by (vm_compute; discriminate).
  assert (H3 : upper (norm (py " 19.95s ")) <> py "NULL")
    by (vm_compute; discriminate).
  assert (H4 : upper (norm (py "na")) = py "NA") by (vm_compute; reflexivity).
  split; [auto|].
  split; [exact (proj2 (proj2 (C6_parse_float_absent_or_number _)) H1 H2 H3)|].
  split; [exact H4|].
  exact (proj1 (proj2 (C6_parse_float_absent_or_number _))
           (or_intror (or_introl H4))).
Defined.

(** C6 as stated fails twice: a cell of 310 digits parses to an infinity,
    which is no finite float; and a minus sign that is not leading is kept,
    so "1-2" is absent where the stated stripping would give 12. *)
Lemma C6_counterexample :
  (exists f, parse_float (py "1" ++ repeat 48 309) = Some f
             /\ is_finite f = false)
  /\ parse_float (py "1-2") = None
  /\ parse_number_spec (py "1-2") = Some (of_decimal false 12 0).
Proof.
  split; [|split].
  - exists (S754_infinity false). split; vm_compute; reflexivity.
  - vm_compute. reflexivity.
  - vm_compute. reflexivity.
Qed.

(* ===================================================================== *)
(** * Derived metrics and the flush *)
(* ===================================================================== *)


Section Flush.

Lemma get_insert_eq (p : dict) k v : get (<[k := v]> p) k = v.
Proof. unfold get. now rewrite lookup_insert_eq. Qed.

Lemma get_insert_ne (p : dict) k k' v :
  k <> k' -> get (<[k := v]> p) k' = get p k'.
Proof. intros H. unfold get. now rewrite lookup_insert_ne. Qed.

(** The two shapes of a successful [compute_derived]. *)
Lemma compute_derived_cases p p' :
  compute_derived p = Some p' ->
  (get p "100m" = VNone /\ p' = p)
  \/ exists t100 v,
       get p "100m" = VFloat t100 /\ velocity_over t100 = Some v /\
       let p1 := <["Vel_0_100m" := v]>
                   (<["0-100m" := VFloat (round2 t100)]> p) in
       (get p "200m" = VNone /\ p' = p1)
       \/ exists t200 v2,
            get p "200m" = VFloat t200 /\
            velocity_over (sub t200 t100) = Some v2 /\
            p' = <["Differential" :=
                     VFloat (round2 (sub (sub t200 t100) t100))]>
                   (<["Vel_100_200m" := v2]>
                      (<["100-200m" := VFloat (round2 (sub t200 t100))]>
                         p1)).
Proof.
  unfold compute_derived.
  destruct (get p "100m") as [|s|t100|n] eqn:E1; simpl.
  - intros [= <-]. left. auto.
  - discriminate.
  - destruct (velocity_over t100) as [v|] eqn:Ev; simpl; [|discriminate].
    destruct (get p "200m") as [|s|t200|n] eqn:E2; simpl.
    + intros [= <-]. right. exists t100, v. repeat split; auto.
    + discriminate.
    + destruct (velocity_over (sub t200 t100)) as [v2|] eqn:Ev2; simpl;
        [|discriminate].
      intros [= <-]. right. exists t100, v. repeat split; auto.
      right. exists t200, v2. auto.
    + discriminate.
  - discriminate.
Qed.

Lemma compute_derived_total p :
  float_or_none (get p "100m") = true ->
  float_or_none (get p "200m") = true ->
  exists p', compute_derived p = Some p'.
Proof.
  intros H1 H2. unfold compute_derived.
  destruct (get p "100m") as [|s|t100|n]; try discriminate; simpl; eauto.
  destruct (velocity_over_spec t100) as [[_ ->]|[_ (v & -> & _)]]; simpl;
    (destruct (get p "200m") as [|s|t200|n]; try discriminate; simpl; eauto;
     destruct (velocity_over_spec (sub t200 t100))
       as [[_ ->]|[_ (v2 & -> & _)]]; simpl; eauto).
Qed.

(** [compute_derived] writes the five derived fields only. *)
Lemma compute_derived_other p p' k :
  compute_derived p = Some p' ->
  k <> "0-100m"%string -> k <> "Vel_0_100m"%string ->
  k <> "100-200m"%string -> k <> "Vel_100_200m"%string ->
  k <> "Differential"%string ->
  p' !! k = p !! k.
Proof.
  intros H K1 K2 K3 K4 K5.
  apply compute_derived_cases in H
    as [[_ ->]|(t100 & v & _ & _ & [[_ ->]|(t200 & v2 & _ & _ & ->)])];
    auto; rewrite ?lookup_insert_ne by congruence; reflexivity.
Qed.

Lemma compute_derived_nonempty p p' :
  compute_derived p = Some p' -> p <> ∅ -> p' <> ∅.
Proof.
  intros H Hp.
  apply compute_derived_cases in H
    as [[_ ->]|(t100 & v & _ & _ & [[_ ->]|(t200 & v2 & _ & _ & ->)])];
    auto; apply insert_non_empty.
Qed.

Lemma key_text_total p :
  str_or_none (get p "Athlete") = true ->
  str_or_none (get p "Meet Info") = true ->
  int_or_none (get p "StrideRate") = true ->
  exists k, key_text p = Some k.
Proof.
  unfold key_text, get, get_or. intros Ha Hm Hs.
  destruct (p !! "Athlete") as [[| | |]|]; try discriminate; simpl;
    (destruct (p !! "Meet Info") as [[| | |]|]; try discriminate; simpl;
     (destruct (p !! "StrideRate") as [[| | |]|]; try discriminate; simpl;
      eauto)).
Qed.

Lemma pending_ok_fields p :
  pending_ok p = true ->
  float_or_none (get p "100m") = true
  /\ float_or_none (get p "200m") = true
  /\ str_or_none (get p "Athlete") = true
  /\ str_or_none (get p "Meet Info") = true
  /\ int_or_none (get p "StrideRate") = true
  /\ (forall k, k ∈ derived_keys -> p !! k = None).
Proof.
  unfold pending_ok. rewrite !andb_true_iff.
  intros [[[[[H1 H2] H3] H4] H5] H6]. repeat split; auto.
  intros k Hk. rewrite forallb_forall in H6.
  apply list_elem_of_In in Hk. apply H6 in Hk.
  now apply bool_decide_eq_true in Hk.
Qed.

Lemma flush_empty st : pending st = ∅ -> flush st = Some st.
Proof.
  intros H. unfold flush. now rewrite bool_decide_eq_true_2.
Qed.

(** What a successful flush does. *)
Lemma flush_shape st st' :
  flush st = Some st' ->
  pending st' = ∅
  /\ current_athlete st' = current_athlete st
  /\ current_meet st' = current_meet st
  /\ current_source st' = current_source st
  /\ ((pending st = ∅ /\ st' = st)
      \/ (pending st <> ∅ /\ exists rec, records st' = records st ++ [rec])).
Proof.
  unfold flush. destruct (bool_decide (pending st = ∅)) eqn:E.
  - apply bool_decide_eq_true in E. intros [= <-]. repeat split; auto.
  - apply bool_decide_eq_false in E.
    destruct (compute_derived (pending st)) as [p|]; simpl; [|discriminate].
    destruct (key_text p) as [k|]; simpl; [|discriminate].
    intros [= <-]. simpl. repeat split; auto. right. split; eauto.
Qed.

Lemma flush_total st :
  pending_ok (pending st) = true -> exists st', flush st = Some st'.
Proof.
  intros H. apply pending_ok_fields in H as (H1 & H2 & H3 & H4 & H5 & _).
  unfold flush. destruct (bool_decide (pending st = ∅)); eauto.
  destruct (compute_derived_total _ H1 H2) as [p Hp]. rewrite Hp. simpl.
  destruct (key_text_total p) as [k Hk].
  - unfold get. erewrite compute_derived_other by (eauto || discriminate).
    exact H3.
  - unfold get. erewrite compute_derived_other by (eauto || discriminate).
    exact H4.
  - unfold get. erewrite compute_derived_other by (eauto || discriminate).
    exact H5.
  - rewrite Hk. simpl. eauto.
Qed.

End Flush.

(** C8 (as the code has it): on an open record, [compute_derived] never
    fails and never divides by a duration that is not positive.  Each
    derived velocity is absent when a split it needs is absent or its
    segment duration is not positive; when the splits are present and the
    duration is positive it is present and is a non-negative float, never
    NaN (rounding to two decimals can make it 0.0, and a duration in the
    denormal range makes it infinite). *)
Theorem C8_derived_velocities (p : dict) :
  pending_ok p = true ->
  exists p',
    compute_derived p = Some p'
    /\ match get p "100m" with
       | VFloat t100 =>
           if ltb zero t100 then present_nonneg p' "Vel_0_100m"
           else absent p' "Vel_0_100m"
       | _ => absent p' "Vel_0_100m"
       end
    /\ match get p "100m", get p "200m" with
       | VFloat t100, VFloat t200 =>
           if ltb zero (sub t200 t100) then present_nonneg p' "Vel_100_200m"
           else absent p' "Vel_100_200m"
       | _, _ => absent p' "Vel_100_200m"
       end.
Proof.
  intros Hok.
  apply pending_ok_fields in Hok as (H1 & H2 & _ & _ & _ & Hfresh).
  assert (F1 : p !! "Vel_0_100m" = None)
    by (apply Hfresh, list_elem_of_In; simpl; auto).
  assert (F2 : p !! "Vel_100_200m" = None)
    by (apply Hfresh, list_elem_of_In; simpl; auto).
  destruct (compute_derived_total p H1 H2) as [p' Hp']. exists p'.
  split; [exact Hp'|].
  apply compute_derived_cases in Hp'
    as [[E1 ->]|(t100 & v & E1 & Ev & [[E2 ->]|(t200 & v2 & E2 & Ev2 & ->)])];
    rewrite E1; try rewrite E2; unfold absent, present_nonneg, get.
  - rewrite F1, F2. auto.
  - map_lookups. rewrite F2.
    destruct (velocity_over_spec t100) as [[-> Hv]|[-> (f & Hv & Hf)]];
      rewrite Hv in Ev; injection Ev as <-; simpl; eauto 6.
  - map_lookups.
    destruct (velocity_over_spec t100) as [[-> Hv]|[-> (f & Hv & Hf)]];
      rewrite Hv in Ev; injection Ev as <-;
      (destruct (velocity_over_spec (sub t200 t100))
         as [[-> Hv2]|[-> (f2 & Hv2 & Hf2)]];
       rewrite Hv2 in Ev2; injection Ev2 as <-; simpl; eauto 8).
Qed.


Lemma C8_derived_velocities_witness :
  pending_ok (new_pending init lausanne_date 0) = true
  /\ exists p',
       compute_derived (new_pending init lausanne_date 0) = Some p'
       /\ present_nonneg p' "Vel_0_100m"
       /\ present_nonneg p' "Vel_100_200m".
Proof.
  assert (H : pending_ok (new_pending init lausanne_date 0) = true)
    by (vm_compute; reflexivity).
  split; [exact H|].
  destruct (C8_derived_velocities _ H) as (p' & Hp' & Hv).
  exists p'. split; [exact Hp'|]. exact Hv.
Defined.

(** C8 as stated fails: with both splits present and a positive duration
    the velocity can round to 0.0, which is not positive. *)
Lemma C8_counterexample :
  length <$> parse [thirty_thousand_row] = Some 1%nat
  /\ field [thirty_thousand_row] 0 "100m"
     = Some (VFloat (of_decimal false 30000 0))
  /\ field [thirty_thousand_row] 0 "200m"
     = Some (VFloat (of_decimal false 70000 0))
  /\ ltb zero (of_decimal false 30000 0) = true
  /\ ltb zero (sub (of_decimal false 70000 0) (of_decimal false 30000 0))
     = true
  /\ field [thirty_thousand_row] 0 "Vel_0_100m"
     = Some (VFloat (S754_zero false))
  /\ field [thirty_thousand_row] 0 "Vel_100_200m"
     = Some (VFloat (S754_zero false))
  /\ ltb zero (S754_zero false) = false.
Proof. vm_compute. repeat split. Qed.

(** C9: a successful flush leaves the accumulator empty and appends at most
    one record, a flush of an empty accumulator changes nothing, so the
    second of two flushes in a row is a no-op; and the flush of an open
    record always succeeds. *)
Theorem C9_flush_idempotent (st : state) :
  (pending st = ∅ -> flush st = Some st)
  /\ (forall st', flush st = Some st' ->
        pending st' = ∅
        /\ flush st' = Some st'
        /\ (records st' = records st
            \/ exists rec, records st' = records st ++ [rec]))
  /\ (pending_ok (pending st) = true ->
      exists st', flush st = Some st' /\ (flush st ≫= flush) = Some st').
Proof.
  split; [apply flush_empty|]. split.
  - intros st' H. destruct (flush_shape _ _ H) as (He & _ & _ & _ & Hr).
    split; [exact He|]. split; [now apply flush_empty|].
    destruct Hr as [[_ ->]|[_ Hr]]; auto.
  - intros Hok. destruct (flush_total _ Hok) as [st' H]. exists st'.
    split; [exact H|]. rewrite H. simpl.
    destruct (flush_shape _ _ H) as (He & _). now apply flush_empty.
Qed.

Lemma C9_flush_idempotent_witness :
  pending_ok (new_pending init lausanne_date 0) = true
  /\ exists st',
       flush (set_pending (new_pending init lausanne_date 0) init) = Some st'
       /\ pending st' = ∅
       /\ flush st' = Some st'
       /\ (records st' = []
           \/ exists rec, records st' = [] ++ [rec]).
Proof.
  assert (H : pending_ok (new_pending init lausanne_date 0) = true)
    by (vm_compute; reflexivity).
  split; [exact H|].
  destruct (C9_flush_idempotent
              (set_pending (new_pending init lausanne_date 0) init))
    as (_ & W2 & W3).
  destruct (W3 H) as (st' & Hf & _).
  exists st'. split; [exact Hf|]. exact (W2 st' Hf).
Defined.

(* ===================================================================== *)
(** * The row loop: dispatch and invariants *)
(* ===================================================================== *)

Section RowLoop.

Lemma find_token_idx_contains r token :
  row_contains_token r token = bool_decide (is_Some (find_token_idx r token)).
Proof.
  induction r as [|c t IH]; simpl; [reflexivity|].
  destruct (token_eq token c); simpl; [reflexivity|].
  rewrite IH. destruct (find_token_idx t token); reflexivity.
Qed.

Lemma find_token_idx_none r token :
  find_token_idx r token = None -> row_contains_token r token = false.
Proof. intros H. now rewrite find_token_idx_contains, H. Qed.

Lemma find_token_idx_some r token i :
  find_token_idx r token = Some i -> row_contains_token r token = true.
Proof. intros H. now rewrite find_token_idx_contains, H. Qed.

(** The row loop is the dispatch on [classify]. *)
Lemma step_dispatch st r :
  step st r = handle (classify (trim r)) st (trim r).
Proof.
  unfold step. fold (trim r). destruct (trim r) as [|r0 rest]; [reflexivity|].
  unfold classify, loop_rules, first_match.
  change (is_athlete_row (r0 :: rest)) with (looks_like_athlete r0).
  destruct (looks_like_athlete r0); [reflexivity|].
  destruct (is_meet_line (r0 :: rest)); [reflexivity|].
  unfold is_source_row.
  destruct (is_source_text _ && negb _); [reflexivity|].
  unfold has_token.
  destruct (find_token_idx (r0 :: rest) (py "date")) as [d|] eqn:Ed.
  { rewrite (find_token_idx_some _ _ _ Ed). unfold handle. now rewrite Ed. }
  rewrite (find_token_idx_none _ _ Ed).
  destruct (find_token_idx (r0 :: rest) (py "reaction time")) as [i|] eqn:Er.
  { rewrite (find_token_idx_some _ _ _ Er). unfold handle. now rewrite Er. }
  rewrite (find_token_idx_none _ _ Er).
  destruct (find_token_idx (r0 :: rest) (py "wind")) as [w|] eqn:Ew.
  { rewrite (find_token_idx_some _ _ _ Ew). unfold handle. now rewrite Ew. }
  rewrite (find_token_idx_none _ _ Ew). reflexivity.
Qed.

(** What each category means for the tests of the loop. *)
Lemma classify_cases r :
  match classify r with
  | AthleteMarker => is_athlete_row r = true
  | MeetLine => is_athlete_row r = false /\ is_meet_line r = true
  | SourceLine =>
      is_athlete_row r = false /\ is_meet_line r = false
      /\ is_source_row r = true
  | DateRow =>
      is_athlete_row r = false /\ is_meet_line r = false
      /\ is_source_row r = false
      /\ exists d, find_token_idx r (py "date") = Some d
  | ReactionTimeRow =>
      is_athlete_row r = false /\ is_meet_line r = false
      /\ is_source_row r = false
      /\ find_token_idx r (py "date") = None
      /\ exists i, find_token_idx r (py "reaction time") = Some i
  | WindRow =>
      is_athlete_row r = false /\ is_meet_line r = false
      /\ is_source_row r = false
      /\ find_token_idx r (py "date") = None
      /\ find_token_idx r (py "reaction time") = None
      /\ exists w, find_token_idx r (py "wind") = Some w
  | Unclassified =>
      is_athlete_row r = false /\ is_meet_line r = false
      /\ is_source_row r = false
      /\ find_token_idx r (py "date") = None
      /\ find_token_idx r (py "reaction time") = None
      /\ find_token_idx r (py "wind") = None
  end.
Proof.
  unfold classify, loop_rules, first_match, has_token.
  rewrite !find_token_idx_contains.
  destruct (is_athlete_row r); [reflexivity|].
  destruct (is_meet_line r); [auto|].
  destruct (is_source_row r); [auto|].
  destruct (find_token_idx r (py "date")); simpl; [eauto 6|].
  destruct (find_token_idx r (py "reaction time")); simpl; [eauto 8|].
  destruct (find_token_idx r (py "wind")); simpl; [eauto 10|].
  auto 10.
Qed.

(** ** The shape of [pending] is kept by every branch *)

Lemma pending_ok_empty : pending_ok ∅ = true.
Proof. vm_compute. reflexivity. Qed.

Lemma pending_ok_new st r d : pending_ok (new_pending st r d) = true.
Proof.
  unfold pending_ok, new_pending, get, derived_keys. simpl forallb.
  map_lookups. simpl.
  destruct (s100 _), (s200 _), (current_athlete st), (current_meet st);
    reflexivity.
Qed.

Lemma pending_ok_insert k v (p : dict) :
  pending_ok p = true ->
  k <> "100m"%string -> k <> "200m"%string -> k <> "Athlete"%string ->
  k <> "Meet Info"%string -> k <> "StrideRate"%string ->
  k ∉ derived_keys ->
  pending_ok (<[k := v]> p) = true.
Proof.
  intros H K1 K2 K3 K4 K5 K6. unfold derived_keys in K6.
  rewrite !not_elem_of_cons in K6.
  destruct K6 as (? & ? & ? & ? & ? & ? & _).
  revert H. unfold pending_ok, get, derived_keys. simpl forallb.
  now rewrite !lookup_insert_ne by congruence.
Qed.

Lemma pending_ok_stride iv (p : dict) :
  pending_ok p = true -> pending_ok (<["StrideRate" := VInt iv]> p) = true.
Proof.
  unfold pending_ok, get, derived_keys. simpl forallb.
  rewrite lookup_insert_eq. rewrite !lookup_insert_ne by discriminate.
  simpl. rewrite !andb_true_iff. tauto.
Qed.

Lemma pending_ok_set_vel k i vals (p : dict) :
  pending_ok p = true ->
  k <> "100m"%string -> k <> "200m"%string -> k <> "Athlete"%string ->
  k <> "Meet Info"%string -> k <> "StrideRate"%string ->
  k ∉ derived_keys ->
  pending_ok (set_vel k i vals p) = true.
Proof.
  intros. unfold set_vel. destruct (vals !! i); auto.
  now apply pending_ok_insert.
Qed.

End RowLoop.

Section Branches.


Lemma athlete_header_spec st r0 st' :
  athlete_header st r0 = Some st' ->
  exists stf, flush st = Some stf
              /\ st' = mkState (records stf) (Some r0) None None ∅.
Proof.
  unfold athlete_header. destruct (flush st) as [stf|] eqn:E; simpl;
    [|discriminate].
  intros [= <-]. exists stf. split; [reflexivity|].
  destruct (flush_shape _ _ E) as (-> & _). reflexivity.
Qed.

Lemma meet_line_contexts st r :
  is_meet_line r = true ->
  records (meet_line st r) = records st
  /\ pending (meet_line st r) = pending st
  /\ current_athlete (meet_line st r) = current_athlete st
  /\ is_Some (current_meet (meet_line st r))
  /\ (current_source (meet_line st r) = current_source st
      \/ is_Some (current_source (meet_line st r))).
Proof.
  intros Hm. unfold meet_line.
  assert (Hf : exists c, List.find cell_nonempty (drop 1 r) = Some c).
  { destruct r as [|r0 [|r1 rest]]; try discriminate. simpl in Hm.
    apply andb_prop in Hm as [Hm _]. apply andb_prop in Hm as [_ Hm].
    simpl. unfold cell_nonempty at 1. rewrite Hm. eauto. }
  destruct Hf as [c ->].
  destruct (if (2 <? length r)%nat then last_nonempty (drop 2 r) else None)
    as [t|]; [destruct (nonempty t && is_source_text t)|]; simpl; eauto 10.
Qed.

Lemma standalone_source_contexts st r :
  records (standalone_source st r) = records st
  /\ pending (standalone_source st r) = pending st
  /\ current_athlete (standalone_source st r) = current_athlete st
  /\ current_meet (standalone_source st r) = current_meet st
  /\ (current_source (standalone_source st r) = current_source st
      \/ is_Some (current_source (standalone_source st r))).
Proof.
  unfold standalone_source.
  destruct (last_nonempty r) as [m|]; [destruct (nonempty m)|]; simpl;
    eauto 10.
Qed.

Lemma date_row_spec st r d st' :
  date_row st r d = Some st' ->
  exists stf, flush st = Some stf
              /\ st' = set_pending (new_pending stf r d) stf.
Proof.
  unfold date_row. destruct (flush st) as [stf|]; simpl; [|discriminate].
  intros [= <-]. eauto.
Qed.

Lemma reaction_time_row_contexts st r i :
  records (reaction_time_row st r i) = records st
  /\ current_athlete (reaction_time_row st r i) = current_athlete st
  /\ current_meet (reaction_time_row st r i) = current_meet st
  /\ current_source (reaction_time_row st r i) = current_source st.
Proof.
  unfold reaction_time_row.
  destruct (first_nonempty_after r i) as [v|]; [destruct (nonempty v)|];
    simpl; auto.
Qed.

Lemma reaction_time_row_ok st r i :
  pending_ok (pending st) = true ->
  pending_ok (pending (reaction_time_row st r i)) = true.
Proof.
  intros H. unfold reaction_time_row.
  destruct (first_nonempty_after r i) as [v|]; [destruct (nonempty v)|];
    simpl; auto.
  apply pending_ok_insert; auto; key_side.
Qed.

Lemma wind_row_spec st r w st' :
  wind_row st r w = Some st' ->
  records st' = records st
  /\ current_athlete st' = current_athlete st
  /\ current_meet st' = current_meet st
  /\ current_source st' = current_source st
  /\ (pending_ok (pending st) = true -> pending_ok (pending st') = true).
Proof.
  unfold wind_row.
  set (p := match first_nonempty_after r w with
            | Some w_val =>
                if nonempty w_val then <["Wind" := VStr w_val]> (pending st)
                else pending st
            | None => pending st
            end).
  assert (Hp : pending_ok (pending st) = true -> pending_ok p = true).
  { intros H. subst p.
    destruct (first_nonempty_after r w) as [v|]; [destruct (nonempty v)|];
      auto.
    apply pending_ok_insert; auto; key_side. }
  destruct (find_token_idx r (py "velocity")) as [v|].
  - destruct (stride_rate (drop (S v) r)) as [sr|]; simpl; [|discriminate].
    intros [= <-]. simpl. repeat split; auto. intros H.
    assert (Hv : pending_ok
                   (set_vel "Vel_200m" 3 (numerics (take 9 (drop (S v) r)))
                      (set_vel "Vel_150m" 2 (numerics (take 9 (drop (S v) r)))
                         (set_vel "Vel_100m" 1
                            (numerics (take 9 (drop (S v) r)))
                            (set_vel "Vel_50m" 0
                               (numerics (take 9 (drop (S v) r))) p))))
                 = true).
    { repeat (apply pending_ok_set_vel; try key_side). auto. }
    destruct sr; [now apply pending_ok_stride|exact Hv].
  - intros [= <-]. simpl. auto.
Qed.

(** Every branch keeps the shape of the open record. *)
Lemma step_pending_ok st r st' :
  pending_ok (pending st) = true -> step st r = Some st' ->
  pending_ok (pending st') = true.
Proof.
  intros Hok. rewrite step_dispatch.
  pose proof (classify_cases (trim r)) as Hc.
  destruct (classify (trim r)); unfold handle.
  - destruct (trim r) as [|r0 rest]; [now intros [= <-]|].
    intros H. apply athlete_header_spec in H as (stf & _ & ->).
    apply pending_ok_empty.
  - intros [= <-]. destruct Hc as [_ Hm].
    destruct (meet_line_contexts st _ Hm) as (_ & -> & _). exact Hok.
  - destruct Hc as (_ & _ & _ & d & ->). intros H.
    apply date_row_spec in H as (stf & _ & ->). apply pending_ok_new.
  - destruct Hc as (_ & _ & _ & _ & i & ->). intros [= <-].
    now apply reaction_time_row_ok.
  - destruct Hc as (_ & _ & _ & _ & _ & w & ->). intros H.
    apply wind_row_spec in H as (_ & _ & _ & _ & H). auto.
  - intros [= <-].
    destruct (standalone_source_contexts st (trim r)) as (_ & -> & _).
    exact Hok.
  - now intros [= <-].
Qed.

Lemma run_pending_ok rows st st' :
  pending_ok (pending st) = true -> run st rows = Some st' ->
  pending_ok (pending st') = true.
Proof.
  revert st. induction rows as [|r rows IH]; simpl; intros st Hok.
  - now intros [= <-].
  - destruct (step st r) as [st1|] eqn:E; simpl; [|discriminate].
    apply IH. eapply step_pending_ok; eauto.
Qed.

(** The open record has the expected shape in every state the loop
    reaches from the initial one. *)
Lemma reachable_pending_ok rows st :
  run init rows = Some st -> pending_ok (pending st) = true.
Proof. apply run_pending_ok. apply pending_ok_empty. Qed.

End Branches.

(** What one row does to the three context fields, by category. *)
Lemma step_contexts (st : state) (r : row) :
  pending_ok (pending st) = true ->
  match classify (trim r) with
  | AthleteMarker =>
      exists stf r0 rest,
        trim r = r0 :: rest /\ flush st = Some stf
        /\ step st r = Some (mkState (records stf) (Some r0) None None ∅)
  | MeetLine =>
      exists st',
        step st r = Some st'
        /\ current_athlete st' = current_athlete st
        /\ is_Some (current_meet st')
        /\ (current_source st' = current_source st
            \/ is_Some (current_source st'))
  | SourceLine =>
      exists st',
        step st r = Some st'
        /\ current_athlete st' = current_athlete st
        /\ current_meet st' = current_meet st
        /\ (current_source st' = current_source st
            \/ is_Some (current_source st'))
  | DateRow | ReactionTimeRow | Unclassified =>
      exists st', step st r = Some st' /\ contexts_kept st st'
  | WindRow =>
      forall st', step st r = Some st' -> contexts_kept st st'
  end.
Proof.
  intros Hok. rewrite step_dispatch.
  pose proof (classify_cases (trim r)) as Hc.
  destruct (flush_total _ Hok) as [stf Hf].
  destruct (flush_shape _ _ Hf) as (He & Ha & Hm & Hs & _).
  destruct (classify (trim r)); unfold handle, contexts_kept.
  - destruct (trim r) as [|r0 rest]; [discriminate|].
    exists stf, r0, rest. repeat split; auto.
    unfold athlete_header. rewrite Hf. simpl. now rewrite He.
  - destruct Hc as [_ Hc].
    destruct (meet_line_contexts st _ Hc) as (_ & _ & ? & ? & ?). eauto 10.
  - destruct Hc as (_ & _ & _ & d & ->).
    unfold date_row. rewrite Hf. simpl. eexists. split; [reflexivity|].
    simpl. auto.
  - destruct Hc as (_ & _ & _ & _ & i & ->).
    destruct (reaction_time_row_contexts st (trim r) i) as (_ & ? & ? & ?).
    eauto 10.
  - destruct Hc as (_ & _ & _ & _ & _ & w & ->). intros st' H.
    apply wind_row_spec in H as (_ & ? & ? & ? & _). auto.
  - destruct (standalone_source_contexts st (trim r)) as (_ & _ & ? & ? & ?).
    eauto 10.
  - eauto.
Qed.


(** Rows of the categories that own no context leave the contexts as they
    are over any number of steps. *)
Lemma run_contexts (rows : list row) (st st' : state) :
  pending_ok (pending st) = true ->
  forallb (fun r => neutral (classify (trim r))) rows = true ->
  run st rows = Some st' -> contexts_kept st st'.
Proof.
  revert st. induction rows as [|r rows IH]; simpl; intros st Hok Hn.
  - intros [= <-]. unfold contexts_kept. auto.
  - apply andb_prop in Hn as [Hr Hn].
    destruct (step st r) as [st1|] eqn:E; simpl; [|discriminate].
    intros Hrun.
    assert (K : contexts_kept st st1).
    { pose proof (step_contexts st r Hok) as H.
      destruct (classify (trim r)); try discriminate.
      - destruct H as (st2 & H2 & K). congruence.
      - destruct H as (st2 & H2 & K). congruence.
      - now apply H.
      - destruct H as (st2 & H2 & K). congruence. }
    pose proof (IH st1 (step_pending_ok _ _ _ Hok E) Hn Hrun) as K'.
    unfold contexts_kept in *.
    destruct K as (A & B & C), K' as (A' & B' & C').
    repeat split; congruence.
Qed.

(** C2 (as the code has it): the loop tests a row in the order athlete
    header, meet line, source line (source marker in the joined text and no
    "date" cell), date row, reaction-time row, wind row, and the first match
    wins.  So a row with a "reaction time" or "wind" cell whose joined text
    holds a source marker and no "date" cell, and which is no athlete header
    and no meet line, is handled as a source line: at most the source context
    changes, the open record does not. *)
Theorem C2_loop_order (st : state) (r : row) :
  step st r = handle (classify (trim r)) st (trim r)
  /\ (has_token (py "reaction time") (trim r) = true
      \/ has_token (py "wind") (trim r) = true ->
      is_source_row (trim r) = true ->
      is_athlete_row (trim r) = false ->
      is_meet_line (trim r) = false ->
      classify (trim r) = SourceLine
      /\ step st r = Some (standalone_source st (trim r))
      /\ pending (standalone_source st (trim r)) = pending st
      /\ records (standalone_source st (trim r)) = records st).
Proof.
  split; [apply step_dispatch|].
  intros _ Hs Ha Hm.
  assert (E : classify (trim r) = SourceLine).
  { unfold classify, loop_rules, first_match. now rewrite Ha, Hm, Hs. }
  split; [exact E|]. rewrite step_dispatch, E.
  destruct (standalone_source_contexts st (trim r)) as (? & ? & _).
  unfold handle. auto.
Qed.

Lemma C2_loop_order_witness :
  has_token (py "wind") (trim wind_row_with_source) = true
  /\ is_source_row (trim wind_row_with_source) = true
  /\ is_athlete_row (trim wind_row_with_source) = false
  /\ is_meet_line (trim wind_row_with_source) = false
  /\ classify (trim wind_row_with_source) = SourceLine
  /\ step init wind_row_with_source
     = Some (standalone_source init (trim wind_row_with_source)).
Proof.
  assert (H1 : has_token (py "wind") (trim wind_row_with_source) = true)
    by (vm_compute; reflexivity).
  assert (H2 : is_source_row (trim wind_row_with_source) = true)
    by (vm_compute; reflexivity).
  assert (H3 : is_athlete_row (trim wind_row_with_source) = false)
    by (vm_compute; reflexivity).
  assert (H4 : is_meet_line (trim wind_row_with_source) = false)
    by (vm_compute; reflexivity).
  destruct (C2_loop_order init wind_row_with_source) as [_ W].
  destruct (W (or_intror H1) H2 H3 H4) as (W1 & W2 & _).
  repeat split; assumption.
Defined.

(** C2 as stated fails: with a record open, a row that holds a
    "reaction time" cell and the source "Swiss Timing" is a ReactionTimeRow
    in the order of the specification, but the loop takes it as a source
    line; the reaction time is not stored.  The same holds for a wind row. *)
Lemma C2_counterexample :
  classify_spec reaction_row_with_source = ReactionTimeRow
  /\ classify reaction_row_with_source = SourceLine
  /\ (current_source
        <$> run init [lausanne_date; reaction_row_with_source])
     = Some (Some (py "Swiss Timing"))
  /\ pending_field [lausanne_date; reaction_row_with_source] "RT" = None
  /\ (st ← run init [lausanne_date];
      st ← handle ReactionTimeRow st reaction_row_with_source;
      pending st !! "RT")
     = Some (VFloat (of_decimal false 142 3))
  /\ classify_spec wind_row_with_source = WindRow
  /\ classify wind_row_with_source = SourceLine
  /\ pending_field [lausanne_date; wind_row_with_source] "Wind" = None.
Proof. vm_compute. repeat split. Qed.

(* ===================================================================== *)
(** * The athlete pattern *)
(* ===================================================================== *)

Section AthletePattern.

Lemma replace1_app old new s t :
  replace1 old new (s ++ t) = replace1 old new s ++ replace1 old new t.
Proof. apply flat_map_app. Qed.

Lemma replace1_id old new s :
  forallb (fun c => negb (c =? old)) s = true -> replace1 old new s = s.
Proof.
  induction s as [|c s IH]; simpl; [reflexivity|].
  intros H. apply andb_prop in H as [Hc Hs].
  apply negb_true_iff in Hc. rewrite Hc. simpl. now rewrite IH.
Qed.

Lemma replace1_spaces old new ws :
  forallb isspace new = true -> forallb isspace ws = true ->
  forallb isspace (replace1 old new ws) = true.
Proof.
  intros Hn. induction ws as [|c ws IH]; simpl; [reflexivity|].
  intros H. apply andb_prop in H as [Hc Hs].
  rewrite forallb_app, (IH Hs), andb_true_r.
  destruct (c =? old); [exact Hn|]. simpl. now rewrite Hc.
Qed.

Lemma upper_below c : is_ascii_upper c = true -> c < 128 /\ c <> 40 /\ c <> 41.
Proof.
  unfold is_ascii_upper. intros H. apply andb_prop in H as [H1 H2].
  apply N.leb_le in H1, H2. lia.
Qed.

Lemma digit_below c : is_ascii_digit c = true -> c < 128 /\ c <> 40 /\ c <> 41.
Proof.
  unfold is_ascii_digit. intros H. apply andb_prop in H as [H1 H2].
  apply N.leb_le in H1, H2. lia.
Qed.

Lemma below_neqb l old :
  128 <= old -> Forall (fun c => c < 128) l ->
  forallb (fun c => negb (c =? old)) l = true.
Proof.
  intros Hold H. induction H as [|c l Hc _ IH]; [reflexivity|].
  cbn [forallb]. rewrite IH, andb_true_r.
  apply negb_true_iff, N.eqb_neq. lia.
Qed.

(** Replacing a code point outside ASCII by white space keeps the
    pattern. *)
Lemma replace1_pattern old new s :
  128 <= old -> forallb isspace new = true ->
  has_athlete_pattern s -> has_athlete_pattern (replace1 old new s).
Proof.
  intros Hold Hnew
    (pre & a & b & c & ws & d1 & d2 & d3 & d4 & post & -> &
     Ha & Hb & Hc & Hws & H1 & H2 & H3 & H4).
  exists (replace1 old new pre), a, b, c, (replace1 old new ws),
    d1, d2, d3, d4, (replace1 old new post).
  repeat split; auto using replace1_spaces.
  apply upper_below in Ha as [Ha _], Hb as [Hb _], Hc as [Hc _].
  apply digit_below in H1 as [H1 _], H2 as [H2 _], H3 as [H3 _],
    H4 as [H4 _].
  rewrite !replace1_app.
  rewrite (replace1_id old new [40; a; b; c; 41]),
    (replace1_id old new [40; d1; d2; d3; d4; 41]);
    [reflexivity| |];
    apply below_neqb; auto; repeat constructor; auto; lia.
Qed.

Lemma lstrip_with_keep {A} (p : A -> bool) pre x l :
  p x = false -> exists pre', lstrip_with p (pre ++ x :: l) = pre' ++ x :: l.
Proof.
  intros Hx. induction pre as [|y pre IH]; simpl.
  - rewrite Hx. now exists [].
  - destruct (p y); [exact IH|]. now exists (y :: pre).
Qed.

Lemma rstrip_with_keep {A} (p : A -> bool) l y post :
  p y = false ->
  exists post', rstrip_with p (l ++ y :: post) = l ++ y :: post'.
Proof.
  intros Hy. unfold rstrip_with.
  rewrite rev_app_distr. simpl. rewrite <- app_assoc. simpl.
  destruct (lstrip_with_keep p (rev post) y (rev l) Hy) as [pre' ->].
  exists (rev pre'). rewrite rev_app_distr. simpl.
  rewrite rev_involutive, <- app_assoc. reflexivity.
Qed.

Lemma strip_with_keep {A} (p : A -> bool) pre x mid y post :
  p x = false -> p y = false ->
  exists pre' post',
    strip_with p (pre ++ x :: mid ++ y :: post)
    = pre' ++ x :: mid ++ y :: post'.
Proof.
  intros Hx Hy. unfold strip_with.
  destruct (lstrip_with_keep p pre x (mid ++ y :: post) Hx) as [pre' ->].
  replace (pre' ++ x :: mid ++ y :: post)
    with ((pre' ++ x :: mid) ++ y :: post)
    by (rewrite <- app_assoc; reflexivity).
  destruct (rstrip_with_keep p (pre' ++ x :: mid) y post Hy) as [post' ->].
  exists pre', post'. rewrite <- app_assoc. reflexivity.
Qed.

(** Stripping characters other than the parentheses keeps the pattern. *)
Lemma strip_with_pattern p s :
  p 40 = false -> p 41 = false ->
  has_athlete_pattern s -> has_athlete_pattern (strip_with p s).
Proof.
  intros H40 H41
    (pre & a & b & c & ws & d1 & d2 & d3 & d4 & post & -> &
     Ha & Hb & Hc & Hws & H1 & H2 & H3 & H4).
  destruct (strip_with_keep p pre 40
              ([a; b; c; 41] ++ ws ++ [40; d1; d2; d3; d4]) 41 post H40 H41)
    as (pre' & post' & E).
  exists pre', a, b, c, ws, d1, d2, d3, d4, post'.
  repeat split; auto.
  etransitivity; [|etransitivity; [exact E|]];
    simpl; rewrite <- ?app_assoc; reflexivity.
Qed.

Lemma norm_pattern s : has_athlete_pattern s -> has_athlete_pattern (norm s).
Proof.
  intros H. unfold norm, strip_char, strip.
  apply strip_with_pattern; [reflexivity|reflexivity|].
  apply strip_with_pattern; [reflexivity|reflexivity|].
  apply replace1_pattern; [unfold ZWSP; lia|reflexivity|].
  apply replace1_pattern; [unfold NBSP; lia|reflexivity|exact H].
Qed.

Lemma lstrip_with_all {A} (p : A -> bool) ws x l :
  forallb p ws = true -> p x = false -> lstrip_with p (ws ++ x :: l) = x :: l.
Proof.
  intros Hws Hx. induction ws as [|w ws IH]; simpl.
  - now rewrite Hx.
  - simpl in Hws. apply andb_prop in Hws as [Hw Hws]. rewrite Hw. auto.
Qed.

Lemma athlete_search_app pre s :
  athlete_search s = true -> athlete_search (pre ++ s) = true.
Proof.
  intros H. induction pre as [|c pre IH]; simpl; [exact H|].
  rewrite IH. apply orb_true_r.
Qed.

Lemma athlete_search_head s :
  athlete_at s = true -> athlete_search s = true.
Proof.
  intros H. destruct s as [|c s]; [discriminate|].
  cbn [athlete_search]. now rewrite H.
Qed.

Lemma pattern_search s : has_athlete_pattern s -> athlete_search s = true.
Proof.
  intros (pre & a & b & c & ws & d1 & d2 & d3 & d4 & post & -> &
          Ha & Hb & Hc & Hws & H1 & H2 & H3 & H4).
  apply athlete_search_app, athlete_search_head.
  cbn [app athlete_at]. rewrite Ha, Hb, Hc.
  rewrite (lstrip_with_all isspace ws 40); [|exact Hws|reflexivity].
  now rewrite H1, H2, H3, H4.
Qed.

Lemma pattern_looks_like_athlete cell :
  has_athlete_pattern cell -> looks_like_athlete cell = true.
Proof. intros H. apply pattern_search, norm_pattern, H. Qed.

Lemma pattern_nonempty cell : has_athlete_pattern cell -> cell <> [].
Proof.
  intros (pre & a & b & c & ws & d1 & d2 & d3 & d4 & post & -> & _).
  destruct pre; discriminate.
Qed.

(** ** Trailing empty cells *)

Lemma lstrip_with_snoc {A} (p : A -> bool) l x :
  lstrip_with p (l ++ [x]) =
    match lstrip_with p l with
    | [] => if p x then [] else [x]
    | l' => l' ++ [x]
    end.
Proof.
  induction l as [|y l IH]; simpl; [reflexivity|].
  destruct (p y); [exact IH|reflexivity].
Qed.

Lemma rstrip_with_cons {A} (p : A -> bool) x l :
  rstrip_with p (x :: l) =
    match rstrip_with p l with
    | [] => if p x then [] else [x]
    | l' => x :: l'
    end.
Proof.
  unfold rstrip_with. simpl. rewrite lstrip_with_snoc.
  destruct (lstrip_with p (rev l)) as [|y l'] eqn:E; simpl.
  - destruct (p x); reflexivity.
  - rewrite rev_app_distr. simpl.
    destruct (rev l' ++ [y]) eqn:E'; [|reflexivity].
    destruct (rev l'); discriminate.
Qed.

Lemma trim_cons_nonempty (r0 : str) (rest : row) :
  r0 <> [] -> exists rest' : row, trim (r0 :: rest) = r0 :: rest'.
Proof.
  intros H. unfold trim. rewrite rstrip_with_cons.
  destruct (rstrip_with is_empty_cell rest) as [|y l'].
  - destruct r0; [congruence|]. simpl. eauto.
  - eauto.
Qed.

End AthletePattern.

(** C10: a first cell that contains, anywhere, a parenthesised code of three
    upper-case letters followed, after any white space, by a parenthesised
    number of four digits makes the row an athlete header, whatever else the
    cell holds: the open record is flushed, the athlete is the cell, meet and
    source are unset.  The pattern survives the normalisation of the cell,
    so this holds for the cell as read and as the loop sees it. *)
Theorem C10_athlete_marker_pattern (st : state) (r0 : str) (rest : row) :
  has_athlete_pattern r0 ->
  pending_ok (pending st) = true ->
  looks_like_athlete r0 = true
  /\ has_athlete_pattern (norm r0)
  /\ classify (trim (r0 :: rest)) = AthleteMarker
  /\ exists stf,
       flush st = Some stf
       /\ step st (r0 :: rest)
          = Some (mkState (records stf) (Some r0) None None ∅).
Proof.
  intros Hp Hok.
  pose proof (pattern_looks_like_athlete r0 Hp) as Hl.
  destruct (trim_cons_nonempty r0 rest (pattern_nonempty r0 Hp)) as [rest' E].
  assert (Hc : classify (trim (r0 :: rest)) = AthleteMarker).
  { rewrite E. unfold classify, loop_rules, first_match.
    change (is_athlete_row (r0 :: rest')) with (looks_like_athlete r0).
    now rewrite Hl. }
  split; [exact Hl|]. split; [now apply norm_pattern|]. split; [exact Hc|].
  destruct (flush_total _ Hok) as [stf Hf]. exists stf. split; [exact Hf|].
  rewrite step_dispatch, Hc, E. unfold handle, athlete_header.
  rewrite Hf. simpl. destruct (flush_shape _ _ Hf) as (-> & _). reflexivity.
Qed.

Lemma usa_1999_pattern : has_athlete_pattern (py "(USA) (1999)").
Proof.
  exists [], 85, 83, 65, [32], 49, 57, 57, 57, [].
  repeat split; reflexivity.
Defined.

Lemma C10_athlete_marker_pattern_witness :
  looks_like_athlete (py "(USA) (1999)") = true
  /\ has_athlete_pattern (norm (py "(USA) (1999)"))
  /\ classify (trim [py "(USA) (1999)"]) = AthleteMarker
  /\ exists stf,
       flush init = Some stf
       /\ step init [py "(USA) (1999)"]
          = Some (mkState (records stf) (Some (py "(USA) (1999)"))
                          None None ∅).
Proof.
  apply (C10_athlete_marker_pattern init (py "(USA) (1999)") []).
  - exact usa_1999_pattern.
  - vm_compute. reflexivity.
Defined.

(* ===================================================================== *)
(** * Date rows *)
(* ===================================================================== *)

Section DateRows.

Lemma new_pending_splits st r d :
  let sp := extract_splits r (find_token_idx r (py "time")) in
  new_pending st r d !! "50m" = Some (of_opt_float (s50 sp))
  /\ new_pending st r d !! "100m" = Some (of_opt_float (s100 sp))
  /\ new_pending st r d !! "150m" = Some (of_opt_float (s150 sp))
  /\ new_pending st r d !! "200m" = Some (of_opt_float (s200 sp))
  /\ new_pending st r d !! "Time"
     = Some (of_opt_float
               (match time_val sp with
                | Some t => Some t
                | None => s200 sp
                end)).
Proof. unfold new_pending. cbv zeta. map_lookups. auto. Qed.

Lemma splits_are_of st r d a b c e t :
  extract_splits r (find_token_idx r (py "time"))
  = mkSplits (Some a) (Some b) (Some c) (Some e) (Some t) ->
  splits_are (new_pending st r d) a b c e t.
Proof.
  intros E. pose proof (new_pending_splits st r d) as H.
  cbv zeta in H. rewrite E in H. exact H.
Qed.

Lemma extract_five r t a b c d e rest :
  numerics (drop (S t) r) = a :: b :: c :: d :: e :: rest ->
  extract_splits r (Some t)
  = mkSplits (Some a) (Some b) (Some c) (Some d) (Some e).
Proof. intros E. unfold extract_splits, strategy_a. now rewrite E. Qed.

Lemma extract_four r t a b c d :
  numerics (drop (S t) r) = [a; b; c; d] ->
  extract_splits r (Some t)
  = mkSplits (Some a) (Some b) (Some c) (Some d) (Some d).
Proof. intros E. unfold extract_splits, strategy_a. now rewrite E. Qed.

Lemma extract_fallback r t_idx a b c d rest :
  s50 (strategy_a r t_idx) = None ->
  numerics r = a :: b :: c :: d :: rest ->
  extract_splits r t_idx
  = mkSplits (Some a) (Some b) (Some c) (Some d) (Some (hd d rest)).
Proof.
  intros Ha E. unfold extract_splits, strategy_b. rewrite Ha, E.
  destruct rest; reflexivity.
Qed.

(** Strategy A leaves the 50m split unset exactly when the anchor is
    missing or fewer than four numbers follow it. *)
Lemma strategy_a_unset r :
  numerics_after_time r = None
  \/ (exists l, numerics_after_time r = Some l /\ (length l < 4)%nat) ->
  s50 (strategy_a r (find_token_idx r (py "time"))) = None.
Proof.
  unfold numerics_after_time, strategy_a.
  destruct (find_token_idx r (py "time")) as [t|]; simpl; [|reflexivity].
  intros [H|(l & [= <-] & Hl)]; [discriminate|].
  destruct (numerics (drop (S t) r)) as [|? [|? [|? [|? ?]]]]; simpl in *;
    try reflexivity; lia.
Qed.

End DateRows.

(** C3: the record a Date row opens takes its splits in two tiers.  With a
    "time" cell followed by at least five numeric cells, the first four are
    the 50/100/150/200m splits and the fifth the official time; with exactly
    four, they are the splits and the official time is the 200m split.  When
    that leaves the 50m split unset (no "time" cell, or fewer than four
    numbers after it) and the whole row has at least four numeric cells, the
    first four are the splits and the official time is the fifth, or the
    200m split when there is no fifth. *)
Theorem C3_date_row_splits (st : state) (r : row) :
  pending_ok (pending st) = true ->
  classify (trim r) = DateRow ->
  exists st',
    step st r = Some st'
    /\ (forall a b c d e rest,
          numerics_after_time (trim r) = Some (a :: b :: c :: d :: e :: rest) ->
          splits_are (pending st') a b c d e)
    /\ (forall a b c d,
          numerics_after_time (trim r) = Some [a; b; c; d] ->
          splits_are (pending st') a b c d d)
    /\ (forall a b c d rest,
          numerics_after_time (trim r) = None
          \/ (exists l, numerics_after_time (trim r) = Some l
                        /\ (length l < 4)%nat) ->
          numerics (trim r) = a :: b :: c :: d :: rest ->
          splits_are (pending st') a b c d (hd d rest)).
Proof.
  intros Hok Hc. rewrite step_dispatch, Hc.
  pose proof (classify_cases (trim r)) as Hd. rewrite Hc in Hd.
  destruct Hd as (_ & _ & _ & d & Hd).
  destruct (flush_total _ Hok) as [stf Hf].
  exists (set_pending (new_pending stf (trim r) d) stf).
  split. { unfold handle, date_row. now rewrite Hd, Hf. }
  cbn [pending set_pending]. split; [|split].
  - intros a b c e t rest H. apply splits_are_of.
    unfold numerics_after_time in H.
    destruct (find_token_idx (trim r) (py "time")) as [ti|]; [|discriminate].
    simpl in H. injection H as H. eapply extract_five, H.
  - intros a b c e H. apply splits_are_of.
    unfold numerics_after_time in H.
    destruct (find_token_idx (trim r) (py "time")) as [ti|]; [|discriminate].
    simpl in H. injection H as H. eapply extract_four, H.
  - intros a b c e rest H E. apply splits_are_of.
    apply extract_fallback; [|exact E]. now apply strategy_a_unset.
Qed.

Lemma C3_date_row_splits_witness :
  pending_ok (pending init) = true
  /\ classify (trim lausanne_date) = DateRow
  /\ numerics_after_time (trim lausanne_date)
     = Some [of_decimal false 582 2; of_decimal false 1010 2;
             of_decimal false 1455 2; of_decimal false 1995 2;
             of_decimal false 1995 2]
  /\ exists st',
       step init lausanne_date = Some st'
       /\ splits_are (pending st')
            (of_decimal false 582 2) (of_decimal false 1010 2)
            (of_decimal false 1455 2) (of_decimal false 1995 2)
            (of_decimal false 1995 2).
Proof.
  assert (H1 : pending_ok (pending init) = true) by (vm_compute; reflexivity).
  assert (H2 : classify (trim lausanne_date) = DateRow)
    by (vm_compute; reflexivity).
  assert (H3 : numerics_after_time (trim lausanne_date)
               = Some [of_decimal false 582 2; of_decimal false 1010 2;
                       of_decimal false 1455 2; of_decimal false 1995 2;
                       of_decimal false 1995 2])
    by (vm_compute; reflexivity).
  repeat (split; [assumption|]).
  destruct (C3_date_row_splits init lausanne_date H1 H2) as (st' & Hs & W & _).
  exists st'. split; [exact Hs|]. exact (W _ _ _ _ _ _ H3).
Defined.

(** C4: the Lausanne scenario.  After the meet line and the Date row the
    meet context is the meet text and the open record has the splits
    5.82/10.10/14.55/19.95 and the time 19.95; the flush appends exactly one
    record, whose 0-100m is 10.10, Vel_0_100m 9.90, 100-200m 9.85 and
    Vel_100_200m 10.15 (each the double that the decimal denotes). *)
Theorem C4_lausanne_scenario :
  (current_meet <$> run init [lausanne_meet; lausanne_date])
  = Some (Some (py "Lausanne Diamond League - 200m"))
  /\ pending_field [lausanne_meet; lausanne_date] "50m"
     = Some (VFloat (of_decimal false 582 2))
  /\ pending_field [lausanne_meet; lausanne_date] "100m"
     = Some (VFloat (of_decimal false 1010 2))
  /\ pending_field [lausanne_meet; lausanne_date] "150m"
     = Some (VFloat (of_decimal false 1455 2))
  /\ pending_field [lausanne_meet; lausanne_date] "200m"
     = Some (VFloat (of_decimal false 1995 2))
  /\ pending_field [lausanne_meet; lausanne_date] "Time"
     = Some (VFloat (of_decimal false 1995 2))
  /\ flushed_count [lausanne_meet; lausanne_date] = Some 1%nat
  /\ flushed_field [lausanne_meet; lausanne_date] "Meet Info"
     = Some (VStr (py "Lausanne Diamond League - 200m"))
  /\ flushed_field [lausanne_meet; lausanne_date] "0-100m"
     = Some (VFloat (of_decimal false 1010 2))
  /\ flushed_field [lausanne_meet; lausanne_date] "Vel_0_100m"
     = Some (VFloat (of_decimal false 990 2))
  /\ flushed_field [lausanne_meet; lausanne_date] "100-200m"
     = Some (VFloat (of_decimal false 985 2))
  /\ flushed_field [lausanne_meet; lausanne_date] "Vel_100_200m"
     = Some (VFloat (of_decimal false 1015 2)).
Proof. vm_compute. repeat split. Qed.

(* ===================================================================== *)
(** * Reaction-time rows *)
(* ===================================================================== *)

(** C1 (as the code has it): a row that reaches the reaction-time branch
    (no athlete header, meet line, source line or date row) never raises; the
    first non-empty cell after the anchor, when there is one, is parsed as a
    number and stored as the reaction time of the accumulator, whether a
    record is open or not; the contexts and the output are left as they
    are. *)
Theorem C1_reaction_time_row_stores (st : state) (r : row) :
  classify (trim r) = ReactionTimeRow ->
  exists st',
    step st r = Some st'
    /\ records st' = records st
    /\ contexts_kept st st'
    /\ match (i ← find_token_idx (trim r) (py "reaction time");
              first_nonempty_after (trim r) i) with
       | Some v =>
           pending st' = <["RT" := of_opt_float (parse_float v)]> (pending st)
       | None => pending st' = pending st
       end.
Proof.
  intros Hc. rewrite step_dispatch, Hc. unfold handle.
  pose proof (classify_cases (trim r)) as Hi. rewrite Hc in Hi.
  destruct Hi as (_ & _ & _ & _ & i & Hi). rewrite Hi. cbn [mbind option_bind].
  exists (reaction_time_row st (trim r) i). split; [reflexivity|].
  destruct (reaction_time_row_contexts st (trim r) i) as (Hr & Hk).
  split; [exact Hr|]. split; [exact Hk|].
  unfold reaction_time_row.
  destruct (first_nonempty_after (trim r) i) as [v|] eqn:Hv; [|reflexivity].
  assert (Hn : nonempty v = true).
  { unfold first_nonempty_after in Hv. apply find_some in Hv as [_ Hv].
    unfold cell_nonempty in Hv. destruct v; [|reflexivity].
    vm_compute in Hv. discriminate. }
  now rewrite Hn.
Qed.

Lemma C1_reaction_time_row_stores_witness :
  classify (trim reaction_row) = ReactionTimeRow
  /\ exists st',
       step (set_pending (new_pending init lausanne_date 0) init) reaction_row
       = Some st'
       /\ pending st'
          = <["RT" := VFloat (of_decimal false 142 3)]>
              (new_pending init lausanne_date 0).
Proof.
  assert (H : classify (trim reaction_row) = ReactionTimeRow)
    by (vm_compute; reflexivity).
  assert (E : (i ← find_token_idx (trim reaction_row) (py "reaction time");
               first_nonempty_after (trim reaction_row) i)
              = Some (py "0.142"))
    by (vm_compute; reflexivity).
  assert (F : parse_float (py "0.142") = Some (of_decimal false 142 3))
    by (vm_compute; reflexivity).
  split; [exact H|].
  destruct (C1_reaction_time_row_stores
              (set_pending (new_pending init lausanne_date 0) init)
              reaction_row H) as (st' & Hs & _ & _ & Hp).
  rewrite E, F in Hp. exists st'. split; [exact Hs|exact Hp].
Defined.

(** C1 as stated fails: with no record open, the row
    ["Reaction time"; "0.142"] is not a no-op.  The value is written into
    the empty accumulator, which the final flush then appends as a record
    of its own, without athlete, meet or date and with an empty key; the
    same input without that row gives no record. *)
Lemma C1_counterexample :
  pending init = ∅
  /\ pending_field [reaction_row] "RT"
     = Some (VFloat (of_decimal false 142 3))
  /\ (length <$> parse [reaction_row]) = Some 1%nat
  /\ field [reaction_row] 0 "RT" = Some (VFloat (of_decimal false 142 3))
  /\ field [reaction_row] 0 "Ath_Mt_Strd" = Some (VStr [])
  /\ field [reaction_row] 0 "Athlete" = None
  /\ field [reaction_row] 0 "Date" = None
  /\ parse [] = Some [].
Proof. vm_compute. repeat split. Qed.

(** C7 (the code at the failing input): a Date row read before any meet
    line gives a record whose meet is [None]; the key then holds the text
    "None" for it, where the non-empty components alone would give the
    athlete's name.  With no athlete either the key is "None_None". *)
Theorem C7_key_of_unset_meet :
  field [[lyles]; lausanne_date] 0 "Athlete" = Some (VStr lyles)
  /\ field [[lyles]; lausanne_date] 0 "Meet Info" = Some VNone
  /\ field [[lyles]; lausanne_date] 0 "StrideRate" = None
  /\ field [[lyles]; lausanne_date] 0 "Ath_Mt_Strd"
     = Some (VStr (py "Lyles, Noah (USA) (1997)_None"))
  /\ key_spec lyles [] [] = py "Lyles, Noah (USA) (1997)"
  /\ field [lausanne_date] 0 "Ath_Mt_Strd" = Some (VStr (py "None_None"))
  /\ key_spec [] [] [] = [].
Proof. vm_compute. repeat split. Qed.

(* ===================================================================== *)
(** * Further properties: cells and tokens *)
(* ===================================================================== *)

Section Stripping.

Context {A : Type} (p : A -> bool).

(** [lstrip_with] removes a prefix of elements that satisfy [p]. *)
Lemma lstrip_with_split (l : list A) :
  exists pre, l = pre ++ lstrip_with p l /\ forallb p pre = true.
Proof.
  induction l as [|x l (pre & E & Hp)]; simpl.
  - now exists [].
  - destruct (p x) eqn:Hx.
    + exists (x :: pre). simpl. rewrite Hx, Hp. split; [congruence|reflexivity].
    + now exists [].
Qed.

Lemma lstrip_with_head (l : list A) x t :
  lstrip_with p l = x :: t -> p x = false.
Proof.
  induction l as [|y l IH]; simpl; [discriminate|].
  destruct (p y) eqn:Hy; [exact IH|]. now intros [= <- _].
Qed.

Lemma rstrip_with_split (l : list A) :
  exists post, l = rstrip_with p l ++ post /\ forallb p post = true.
Proof.
  unfold rstrip_with.
  destruct (lstrip_with_split (rev l)) as (pre & E & Hp).
  exists (rev pre). split.
  - rewrite <- rev_app_distr, <- E. now rewrite rev_involutive.
  - rewrite forallb_forall in *. intros x Hx. apply Hp.
    now apply in_rev.
Qed.

Lemma rstrip_with_last (l : list A) t x :
  rstrip_with p l = t ++ [x] -> p x = false.
Proof.
  unfold rstrip_with. intros H.
  apply (f_equal (@rev A)) in H.
  rewrite rev_involutive, rev_app_distr in H. simpl in H.
  eapply lstrip_with_head, H.
Qed.

Lemma lstrip_with_all_true (l : list A) :
  forallb p l = true -> lstrip_with p l = [].
Proof.
  induction l as [|x l IH]; simpl; [reflexivity|].
  intros H. apply andb_prop in H as [-> H]. auto.
Qed.

Lemma rstrip_with_all_true (l : list A) :
  forallb p l = true -> rstrip_with p l = [].
Proof.
  intros H. unfold rstrip_with. rewrite lstrip_with_all_true; [reflexivity|].
  rewrite forallb_forall in *. intros x Hx. apply H. now apply in_rev.
Qed.

Lemma rstrip_with_app_true (l e : list A) :
  forallb p e = true -> rstrip_with p (l ++ e) = rstrip_with p l.
Proof.
  intros H. induction l as [|x l IH]; simpl.
  - now apply rstrip_with_all_true.
  - now rewrite !rstrip_with_cons, IH.
Qed.

Lemma lstrip_with_none (l : list A) :
  forallb (fun x => negb (p x)) l = true -> lstrip_with p l = l.
Proof.
  destruct l as [|x l]; simpl; [reflexivity|].
  intros H. apply andb_prop in H as [H _].
  apply negb_true_iff in H. now rewrite H.
Qed.

Lemma rstrip_with_none (l : list A) :
  forallb (fun x => negb (p x)) l = true -> rstrip_with p l = l.
Proof.
  intros H. unfold rstrip_with. rewrite lstrip_with_none.
  - apply rev_involutive.
  - rewrite forallb_forall in *. intros x Hx. apply H. now apply in_rev.
Qed.

Lemma strip_with_none (l : list A) :
  forallb (fun x => negb (p x)) l = true -> strip_with p l = l.
Proof.
  intros H. unfold strip_with. now rewrite lstrip_with_none, rstrip_with_none.
Qed.

Lemma Forall_lstrip_with (P : A -> Prop) (l : list A) :
  Forall P l -> Forall P (lstrip_with p l).
Proof.
  intros H. destruct (lstrip_with_split l) as (pre & E & _).
  rewrite E in H. now apply Forall_app in H as [_ H].
Qed.

Lemma Forall_rstrip_with (P : A -> Prop) (l : list A) :
  Forall P l -> Forall P (rstrip_with p l).
Proof.
  intros H. destruct (rstrip_with_split l) as (post & E & _).
  rewrite E in H. now apply Forall_app in H as [H _].
Qed.

Lemma Forall_strip_with (P : A -> Prop) (l : list A) :
  Forall P l -> Forall P (strip_with p l).
Proof. intros H. now apply Forall_rstrip_with, Forall_lstrip_with. Qed.

(** Neither end of a stripped list satisfies [p]. *)
Lemma strip_with_ends (l : list A) :
  (forall x t, strip_with p l = x :: t -> p x = false)
  /\ (forall t x, strip_with p l = t ++ [x] -> p x = false).
Proof.
  split.
  - intros x t H. unfold strip_with in H.
    destruct (rstrip_with_split (lstrip_with p l)) as (post & E & _).
    rewrite H in E. simpl in E. eapply lstrip_with_head, E.
  - intros t x H. unfold strip_with in H. eapply rstrip_with_last, H.
Qed.

End Stripping.

Lemma Forall_replace1 (P : char -> Prop) old new s :
  Forall P new -> Forall (fun c => c <> old -> P c) s ->
  Forall P (replace1 old new s).
Proof.
  intros Hn Hs. induction Hs as [|c s Hc _ IH]; simpl; [constructor|].
  apply Forall_app. split; [|exact IH].
  destruct (c =? old) eqn:E; [exact Hn|].
  apply N.eqb_neq in E. repeat constructor. auto.
Qed.

Lemma norm_no_nbsp_zwsp (s : str) :
  Forall (fun c => c <> NBSP /\ c <> ZWSP) (norm s).
Proof.
  unfold norm, strip_char, strip.
  apply Forall_strip_with, Forall_strip_with.
  apply Forall_replace1; [constructor|].
  assert (H : Forall (fun c => c <> NBSP) (replace1 NBSP (py " ") s)).
  { apply Forall_replace1.
    - repeat constructor. vm_compute. discriminate.
    - apply Forall_forall. auto. }
  eapply Forall_impl; [exact H|]. simpl. auto.
Qed.

(** X1: a normalised cell holds no no-break space and no zero-width space,
    and neither its first nor its last character is a double quote. *)
Theorem norm_clean (s : str) :
  Forall (fun c => c <> NBSP /\ c <> ZWSP) (norm s)
  /\ (forall t, norm s <> QUOTE :: t)
  /\ (forall t, norm s <> t ++ [QUOTE]).
Proof.
  split; [apply norm_no_nbsp_zwsp|].
  unfold norm, strip_char, strip. split.
  - intros t H.
    apply (proj1 (strip_with_ends (fun x => x =? QUOTE) _)) in H.
    now rewrite N.eqb_refl in H.
  - intros t H.
    apply (proj2 (strip_with_ends (fun x => x =? QUOTE) _)) in H.
    now rewrite N.eqb_refl in H.
Qed.

Lemma py_float_signed s f :
  py_float s = Some f -> signed (starts_with_minus s) f.
Proof.
  unfold py_float.
  assert (E : (match s with 45 :: t => (true, t) | _ => (false, s) end)
              = (starts_with_minus s,
                 match s with 45 :: t => t | _ => s end)).
  { destruct s as [|c t]; [reflexivity|].
    destruct c as [|q]; [reflexivity|].
    repeat (destruct q as [q|q|]; try reflexivity). }
  rewrite E. clear E.
  set (r := match s with 45 :: t => t | _ => s end).
  pose proof (span_digits_all r) as Hip.
  destruct (span_digits r) as [ip r1]. simpl in Hip.
  destruct r1 as [|c r2].
  - destruct (nonempty ip); [|discriminate].
    intros [= <-]. apply of_decimal_signed. now apply digits_value_nonneg.
  - destruct (N.eq_dec c 46) as [->|Hc].
    + pose proof (span_digits_all r2) as Hfp.
      destruct (span_digits r2) as [fp r3]. simpl in Hfp.
      destruct r3; [|discriminate].
      destruct (nonempty ip || nonempty fp); [|discriminate].
      intros [= <-]. apply of_decimal_signed.
      apply digits_value_nonneg. rewrite forallb_app, Hip, Hfp. reflexivity.
    + intros H. exfalso. destruct c as [|q]; [discriminate|].
      repeat (destruct q as [q|q|]; simpl in H; try discriminate);
        congruence.
Qed.

(** X2: a parsed number is never NaN and its sign is that of the text kept
    by the filter: it is negative (or -0.0, or -inf) exactly when the first
    kept character is a minus sign, and non-negative otherwise. *)
Theorem parse_float_sign (x : str) (f : float) :
  parse_float x = Some f ->
  signed (starts_with_minus (List.filter numeric_char (norm x))) f.
Proof.
  rewrite parse_float_unfold. destruct (_ || _ || _); [discriminate|].
  apply py_float_signed.
Qed.

Lemma parse_float_sign_witness :
  parse_float (py "$-12.5") = Some (of_decimal true 125 1)
  /\ signed (starts_with_minus (List.filter numeric_char (norm (py "$-12.5"))))
       (of_decimal true 125 1).
Proof.
  assert (H : parse_float (py "$-12.5") = Some (of_decimal true 125 1))
    by (vm_compute; reflexivity).
  split; [exact H|]. exact (parse_float_sign _ _ H).
Defined.

Section Numerals.

Lemma digit_plain c :
  is_ascii_digit c = true ->
  c <> NBSP /\ c <> ZWSP /\ c <> QUOTE /\ isspace c = false
  /\ numeric_char c = true /\ upper_char c = c /\ c <> 45 /\ c <> 46.
Proof.
  intros H. pose proof H as H'. unfold is_ascii_digit in H'.
  apply andb_prop in H' as [H1 H2]. apply N.leb_le in H1, H2.
  unfold NBSP, ZWSP, QUOTE, numeric_char. rewrite H.
  repeat split; try lia.
  - unfold isspace.
    repeat match goal with
           | |- context [?a <=? ?b] =>
               let E := fresh in
               destruct (N.leb_spec a b) as [E|E]; try lia
           | |- context [?a =? ?b] =>
               let E := fresh in
               destruct (N.eqb_spec a b) as [E|E]; try lia
           end; reflexivity.
  - unfold upper_char, is_ascii_lower.
    destruct (N.leb_spec 97 c); [lia|reflexivity].
Qed.

Lemma numeral_plain c :
  numeral_char c = true ->
  c <> NBSP /\ c <> ZWSP /\ c <> QUOTE /\ isspace c = false
  /\ numeric_char c = true.
Proof.
  unfold numeral_char. intros H. apply orb_prop in H as [H|H].
  - destruct (digit_plain c H) as (? & ? & ? & ? & ? & _). auto.
  - apply N.eqb_eq in H. subst c. repeat split; vm_compute; congruence.
Qed.

Lemma norm_numeral s : forallb numeral_char s = true -> norm s = s.
Proof.
  intros H. rewrite forallb_forall in H.
  unfold norm, strip_char, strip.
  rewrite (replace1_id NBSP), (replace1_id ZWSP).
  - rewrite (strip_with_none isspace s), (strip_with_none _ s);
      [reflexivity| |];
      apply forallb_forall; intros c Hc; apply negb_true_iff;
      destruct (numeral_plain c (H c Hc)) as (? & ? & ? & ? & _); auto.
    now apply N.eqb_neq.
  - apply forallb_forall. intros c Hc. apply negb_true_iff, N.eqb_neq.
    now destruct (numeral_plain c (H c Hc)) as (? & ? & _).
  - apply forallb_forall. intros c Hc. apply negb_true_iff, N.eqb_neq.
    now destruct (numeral_plain c (H c Hc)) as (? & ? & _).
Qed.

Lemma filter_numeral s :
  forallb numeral_char s = true -> List.filter numeric_char s = s.
Proof.
  induction s as [|c s IH]; simpl; [reflexivity|].
  intros H. apply andb_prop in H as [Hc Hs].
  destruct (numeral_plain c Hc) as (_ & _ & _ & _ & ->). now rewrite IH.
Qed.

Lemma span_digits_app ds r :
  forallb is_ascii_digit ds = true ->
  span_digits (ds ++ r) =
    (ds ++ fst (span_digits r), snd (span_digits r)).
Proof.
  induction ds as [|d ds IH]; simpl; intros H.
  - now destruct (span_digits r).
  - apply andb_prop in H as [Hd Hds]. rewrite Hd, (IH Hds). reflexivity.
Qed.

Lemma span_digits_digits ds :
  forallb is_ascii_digit ds = true -> span_digits ds = (ds, []).
Proof.
  intros H. pose proof (span_digits_app ds [] H) as E.
  rewrite app_nil_r in E. rewrite E. cbn. now rewrite app_nil_r.
Qed.

Lemma span_digits_point ds r :
  forallb is_ascii_digit ds = true -> span_digits (ds ++ 46 :: r) = (ds, 46 :: r).
Proof.
  intros H. rewrite (span_digits_app ds (46 :: r) H).
  cbn. now rewrite app_nil_r.
Qed.

Lemma unsigned_body (d : char) (l : str) :
  d <> 45 ->
  (match d :: l with 45 :: t => (true, t) | _ => (false, d :: l) end)
  = (false, d :: l).
Proof.
  intros H. destruct d as [|q]; [reflexivity|].
  repeat (destruct q as [q|q|]; try reflexivity); congruence.
Qed.

Lemma upper_head_digit d s :
  is_ascii_digit d = true ->
  upper (d :: s) <> py "NA" /\ upper (d :: s) <> py "NULL".
Proof.
  intros H. destruct (digit_plain d H) as (_ & _ & _ & _ & _ & E & _).
  unfold is_ascii_digit in H. apply andb_prop in H as [_ H].
  apply N.leb_le in H.
  split; intros C; simpl in C; rewrite E in C;
    injection C as C _; vm_compute in C; lia.
Qed.

End Numerals.

(** X3: a cell that is a plain decimal numeral (ASCII digits, then
    optionally a point and more digits) parses to the double nearest to the
    number it denotes. *)
Theorem parse_float_numeral (d : char) (ip fp : str) :
  is_ascii_digit d = true ->
  forallb is_ascii_digit ip = true ->
  forallb is_ascii_digit fp = true ->
  parse_float (d :: ip) = Some (of_decimal false (digits_value (d :: ip)) 0)
  /\ parse_float ((d :: ip) ++ 46 :: fp)
     = Some (of_decimal false (digits_value ((d :: ip) ++ fp)) (length fp)).
Proof.
  intros Hd Hip Hfp.
  assert (Hdig : forall s, forallb is_ascii_digit s = true ->
                           forallb numeral_char s = true).
  { intros s Hs. rewrite forallb_forall in *. intros c Hc.
    unfold numeral_char. now rewrite (Hs c Hc). }
  assert (D : forallb is_ascii_digit (d :: ip) = true)
    by (simpl; now rewrite Hd, Hip).
  destruct (digit_plain d Hd) as (_ & _ & _ & _ & _ & _ & Hm & Hp).
  split.
  - rewrite parse_float_unfold, norm_numeral by auto.
    destruct (upper_head_digit d ip Hd) as [U1 U2].
    rewrite !bool_decide_eq_false_2 by assumption. cbn [nonempty negb orb].
    rewrite filter_numeral by auto.
    unfold py_float. rewrite unsigned_body by assumption.
    rewrite (span_digits_digits (d :: ip) D). reflexivity.
  - assert (N : forallb numeral_char ((d :: ip) ++ 46 :: fp) = true).
    { rewrite forallb_app. rewrite (Hdig _ D). cbn [forallb andb].
      rewrite (Hdig _ Hfp). reflexivity. }
    rewrite parse_float_unfold, norm_numeral by auto.
    destruct (upper_head_digit d (ip ++ 46 :: fp) Hd) as [U1 U2].
    change ((d :: ip) ++ 46 :: fp) with (d :: ip ++ 46 :: fp) in *.
    rewrite !bool_decide_eq_false_2 by assumption. cbn [nonempty negb orb].
    rewrite filter_numeral by auto.
    unfold py_float. rewrite unsigned_body by assumption.
    change (d :: ip ++ 46 :: fp) with ((d :: ip) ++ 46 :: fp).
    rewrite (span_digits_point (d :: ip) fp D).
    rewrite (span_digits_digits fp Hfp). reflexivity.
Qed.

Lemma parse_float_numeral_witness :
  parse_float (py "19") = Some (of_decimal false 19 0)
  /\ parse_float (py "19.95") = Some (of_decimal false 1995 2).
Proof.
  exact (parse_float_numeral 49 [57] [57; 53] eq_refl eq_refl eq_refl).
Defined.

(* ===================================================================== *)
(** * Further properties: anchors and row tests *)
(* ===================================================================== *)

(** X4: [find_token_idx] gives the first index whose cell matches the
    token, and none exactly when [row_contains_token] is false. *)
Theorem find_token_idx_first (r : row) (token : str) :
  (forall i,
     find_token_idx r token = Some i <->
     (exists c, r !! i = Some c /\ token_eq token c = true)
     /\ (forall j c, (j < i)%nat -> r !! j = Some c ->
                     token_eq token c = false))
  /\ (find_token_idx r token = None <-> row_contains_token r token = false).
Proof.
  split.
  - induction r as [|c0 r IH]; intros i; simpl.
    + split; [discriminate|]. intros [(c & H & _) _]. discriminate.
    + destruct (token_eq token c0) eqn:E0.
      * split.
        -- intros [= <-]. split; [eauto|]. intros j c Hj. lia.
        -- intros [_ H]. destruct i as [|i]; [reflexivity|].
           specialize (H 0%nat c0 ltac:(lia) eq_refl). congruence.
      * split.
        -- intros H. destruct (find_token_idx r token) as [i'|] eqn:E;
             [|discriminate].
           simpl in H. injection H as <-.
           destruct (proj1 (IH i') eq_refl) as [(c & Hc & Ht) Hlt].
           split; [exists c; auto|].
           intros [|j] c' Hj Hc'; simpl in Hc'.
           ++ now injection Hc' as <-.
           ++ apply (Hlt j c'); [lia|exact Hc'].
        -- intros [(c & Hc & Ht) Hlt]. destruct i as [|i].
           ++ simpl in Hc. injection Hc as ->. congruence.
           ++ simpl in Hc.
              assert (E : find_token_idx r token = Some i).
              { apply IH. split; [eauto|].
                intros j c' Hj Hc'. apply (Hlt (S j) c'); [lia|exact Hc']. }
              now rewrite E.
  - rewrite find_token_idx_contains.
    destruct (find_token_idx r token); simpl; split; congruence.
Qed.

Section Finds.

Lemma find_none_iff {A} (f : A -> bool) (l : list A) :
  List.find f l = None <-> forallb (fun x => negb (f x)) l = true.
Proof.
  induction l as [|x l IH]; simpl; [tauto|].
  destruct (f x); simpl; [split; discriminate|exact IH].
Qed.

Lemma find_first {A} (f : A -> bool) (l : list A) x :
  List.find f l = Some x ->
  exists j, l !! j = Some x /\ f x = true
            /\ forall k y, (k < j)%nat -> l !! k = Some y -> f y = false.
Proof.
  induction l as [|y l IH]; simpl; [discriminate|].
  destruct (f y) eqn:E.
  - intros [= <-]. exists 0%nat. repeat split; auto. intros k z Hk. lia.
  - intros H. destruct (IH H) as (j & Hj & Hx & Hlt).
    exists (S j). repeat split; auto.
    intros [|k] z Hk Hz; simpl in Hz.
    + now injection Hz as <-.
    + apply (Hlt k z); [lia|exact Hz].
Qed.

End Finds.

(** X5: [first_nonempty_after] gives the first cell after the anchor that
    is non-empty once normalised (every cell between is empty), raw as it
    stands in the row; it gives nothing exactly when every later cell is
    empty, in particular when the anchor is the last cell or beyond. *)
Theorem first_nonempty_after_spec (r : row) (start_idx : nat) :
  (forall c,
     first_nonempty_after r start_idx = Some c ->
     exists j, (start_idx < j)%nat /\ r !! j = Some c
               /\ cell_nonempty c = true
               /\ forall k y, (start_idx < k < j)%nat -> r !! k = Some y ->
                              cell_nonempty y = false)
  /\ (first_nonempty_after r start_idx = None <->
      forall k y, (start_idx < k)%nat -> r !! k = Some y ->
                  cell_nonempty y = false)
  /\ ((length r <= S start_idx)%nat -> first_nonempty_after r start_idx = None).
Proof.
  unfold first_nonempty_after. split; [|split].
  - intros c H. apply find_first in H as (j & Hj & Hc & Hlt).
    rewrite lookup_drop in Hj. exists (S start_idx + j)%nat.
    repeat split; auto; [lia|].
    intros k y Hk Hy. apply (Hlt (k - S start_idx)%nat y); [lia|].
    rewrite lookup_drop. replace (S start_idx + (k - S start_idx))%nat with k
      by lia. exact Hy.
  - rewrite find_none_iff, forallb_forall. split.
    + intros H k y Hk Hy. apply negb_true_iff, H.
      apply list_elem_of_In, list_elem_of_lookup.
      exists (k - S start_idx)%nat. rewrite lookup_drop.
      replace (S start_idx + (k - S start_idx))%nat with k by lia. exact Hy.
    + intros H y Hy. apply list_elem_of_In, list_elem_of_lookup in Hy
        as [j Hj].
      rewrite lookup_drop in Hj. apply negb_true_iff.
      apply (H (S start_idx + j)%nat y); [lia|exact Hj].
  - intros H. rewrite drop_ge by lia. reflexivity.
Qed.

Lemma find_some_split (l : list str) (x : str) :
  List.find cell_nonempty l = Some x ->
  exists a b, l = a ++ x :: b /\ cell_nonempty x = true
              /\ forallb (fun y => negb (cell_nonempty y)) a = true.
Proof.
  revert x. induction l as [|y l IH]; simpl; [discriminate|].
  intros x. destruct (cell_nonempty y) eqn:E.
  - intros [= <-]. exists [], l. auto.
  - intros Hx. destruct (IH x Hx) as (a & b & -> & Hc & Ha).
    exists (y :: a), b. simpl. rewrite E, Ha. auto.
Qed.

Lemma last_nonempty_cell (r : row) (c : str) :
  last_nonempty r = Some c -> cell_nonempty c = true.
Proof.
  unfold last_nonempty. intros H.
  now destruct (find_some_split _ _ H) as (_ & _ & _ & Hc & _).
Qed.

(** X6: [last_nonempty] gives the last cell of the row that is non-empty
    once normalised, and nothing exactly when no cell is. *)
Theorem last_nonempty_spec (r : row) :
  (forall c,
     last_nonempty r = Some c ->
     exists pre post,
       r = pre ++ c :: post /\ cell_nonempty c = true
       /\ forallb (fun y => negb (cell_nonempty y)) post = true)
  /\ (last_nonempty r = None <->
      forallb (fun y => negb (cell_nonempty y)) r = true).
Proof.
  unfold last_nonempty. split.
  - intros c H.
    destruct (find_some_split _ _ H) as (a & b & E & Hc & Ha).
    exists (rev b), (rev a). repeat split; auto.
    + apply (f_equal (@rev str)) in E. rewrite rev_involutive in E.
      rewrite E, rev_app_distr. simpl. now rewrite <- app_assoc.
    + rewrite forallb_forall in *. intros y Hy. apply Ha. now apply in_rev.
  - rewrite find_none_iff, !forallb_forall. split; intros H y Hy; apply H.
    + now apply in_rev in Hy.
    + now apply in_rev.
Qed.

(** X7: no row is both an athlete header and a meet line: the first tests
    the first cell for the pattern, the second wants it empty. *)
Theorem athlete_row_not_meet_line (r : row) :
  is_athlete_row r = true -> is_meet_line r = false.
Proof.
  destruct r as [|r0 [|r1 rest]]; try reflexivity.
  unfold is_athlete_row, looks_like_athlete, is_meet_line.
  destruct (norm r0) as [|c s]; [discriminate|]. reflexivity.
Qed.

Lemma athlete_row_not_meet_line_witness :
  is_athlete_row [lyles; py "Zurich - 200m"] = true
  /\ is_meet_line [lyles; py "Zurich - 200m"] = false.
Proof.
  assert (H : is_athlete_row [lyles; py "Zurich - 200m"] = true)
    by (vm_compute; reflexivity).
  split; [exact H|]. exact (athlete_row_not_meet_line _ H).
Defined.

Section AthleteSearch.

Lemma paren_digits (l : str) :
  match l with
  | 40 :: d1 :: d2 :: d3 :: d4 :: 41 :: _ =>
      is_ascii_digit d1 && is_ascii_digit d2
      && is_ascii_digit d3 && is_ascii_digit d4
  | _ => false
  end = true ->
  exists d1 d2 d3 d4 post,
    l = 40 :: d1 :: d2 :: d3 :: d4 :: 41 :: post
    /\ is_ascii_digit d1 = true /\ is_ascii_digit d2 = true
    /\ is_ascii_digit d3 = true /\ is_ascii_digit d4 = true.
Proof.
  destruct l as [|e0 l]; [discriminate|].
  intros H.
  assert (E0 : e0 = 40).
  { destruct (N.eq_dec e0 40) as [|N0]; [assumption|exfalso].
    destruct e0 as [|q]; [discriminate|].
    repeat (destruct q as [q|q|]; try discriminate); congruence. }
  subst e0.
  destruct l as [|d1 [|d2 [|d3 [|d4 [|e1 post]]]]]; try discriminate.
  assert (E1 : e1 = 41).
  { destruct (N.eq_dec e1 41) as [|N1]; [assumption|exfalso].
    destruct e1 as [|q]; [discriminate|].
    repeat (destruct q as [q|q|]; try discriminate); congruence. }
  subst e1.
  apply andb_prop in H as [H H4]. apply andb_prop in H as [H H3].
  apply andb_prop in H as [H1 H2].
  exists d1, d2, d3, d4, post. auto.
Qed.

Lemma athlete_at_pattern s :
  athlete_at s = true ->
  exists a b c ws d1 d2 d3 d4 post,
    s = [40; a; b; c; 41] ++ ws ++ [40; d1; d2; d3; d4; 41] ++ post
    /\ is_ascii_upper a = true /\ is_ascii_upper b = true
    /\ is_ascii_upper c = true /\ forallb isspace ws = true
    /\ is_ascii_digit d1 = true /\ is_ascii_digit d2 = true
    /\ is_ascii_digit d3 = true /\ is_ascii_digit d4 = true.
Proof.
  destruct s as [|c0 s]; [discriminate|].
  intros H.
  assert (E0 : c0 = 40).
  { destruct (N.eq_dec c0 40) as [|N0]; [assumption|exfalso].
    destruct c0 as [|q]; [discriminate|].
    repeat (destruct q as [q|q|]; try discriminate); congruence. }
  subst c0.
  destruct s as [|a [|b [|c [|c1 rest]]]]; try discriminate.
  assert (E1 : c1 = 41).
  { destruct (N.eq_dec c1 41) as [|N1]; [assumption|exfalso].
    destruct c1 as [|q]; [discriminate|].
    repeat (destruct q as [q|q|]; try discriminate); congruence. }
  subst c1. cbn [athlete_at] in H.
  apply andb_prop in H as [H E4]. apply andb_prop in H as [H Hc].
  apply andb_prop in H as [Ha Hb].
  destruct (lstrip_with_split isspace rest) as (ws & Er & Hws).
  destruct (paren_digits _ E4) as (d1 & d2 & d3 & d4 & post & El & Hd).
  exists a, b, c, ws, d1, d2, d3, d4, post.
  split; [|repeat split; tauto].
  rewrite Er at 1. rewrite El. reflexivity.
Qed.

Lemma athlete_search_pattern s :
  athlete_search s = true -> has_athlete_pattern s.
Proof.
  induction s as [|c0 s IH].
  - discriminate.
  - cbn [athlete_search]. intros H. apply orb_prop in H as [H|H].
    + destruct (athlete_at_pattern _ H)
        as (a & b & c & ws & d1 & d2 & d3 & d4 & post & E & Hx).
      exists [], a, b, c, ws, d1, d2, d3, d4, post. split; [exact E|exact Hx].
    + destruct (IH H)
        as (pre & a & b & c & ws & d1 & d2 & d3 & d4 & post & E & Hx).
      exists (c0 :: pre), a, b, c, ws, d1, d2, d3, d4, post.
      split; [now rewrite E|exact Hx].
Qed.

End AthleteSearch.

(** X8: a cell is taken for an athlete header exactly when, once
    normalised, it contains the parenthesised three-letter code followed,
    after any white space, by the parenthesised four-digit number; a cell
    without such a group is never one.  The cell is taken in Latin-1, where
    the digits of the pattern are the ASCII digits. *)
Theorem looks_like_athlete_iff (cell : str) :
  latin1 cell = true ->
  (looks_like_athlete cell = true <-> has_athlete_pattern (norm cell)).
Proof.
  intros _. unfold looks_like_athlete. split.
  - apply athlete_search_pattern.
  - apply pattern_search.
Qed.

Lemma looks_like_athlete_iff_witness :
  latin1 (py "Lyles, Noah (USA) (1997)") = true
  /\ (looks_like_athlete (py "Lyles, Noah (USA) (1997)") = true
      <-> has_athlete_pattern (norm (py "Lyles, Noah (USA) (1997)"))).
Proof.
  split; [reflexivity|].
  exact (looks_like_athlete_iff (py "Lyles, Noah (USA) (1997)") eq_refl).
Defined.

Section SourceText.

Lemma startswith_before k a (sep : char) b :
  forallb (fun c => negb (c =? sep)) k = true ->
  startswith k (a ++ sep :: b) = startswith k a.
Proof.
  revert a. induction k as [|k0 k IH]; intros a Hk; [now destruct a|].
  cbn [forallb] in Hk. apply andb_prop in Hk as [H0 Hk].
  destruct a as [|x a]; cbn [app startswith].
  - apply negb_true_iff in H0. now rewrite H0.
  - now rewrite (IH a Hk).
Qed.

Lemma contains_empty k : nonempty k = true -> contains k [] = false.
Proof. destruct k; [discriminate|reflexivity]. Qed.

(** A pattern without the separator cannot match across it. *)
Lemma contains_across k a (sep : char) b :
  nonempty k = true ->
  forallb (fun c => negb (c =? sep)) k = true ->
  contains k (a ++ sep :: b) = contains k a || contains k b.
Proof.
  intros Hne Hk. induction a as [|x a IH].
  - rewrite (contains_empty k Hne). cbn [app contains orb].
    destruct k as [|k0 k]; [discriminate|].
    cbn [forallb] in Hk. apply andb_prop in Hk as [H0 _].
    apply negb_true_iff in H0. cbn [startswith]. now rewrite H0.
  - cbn [app contains]. rewrite IH.
    change (x :: a ++ sep :: b) with ((x :: a) ++ sep :: b).
    rewrite (startswith_before k (x :: a) sep b Hk).
    now rewrite orb_assoc.
Qed.

Lemma join_cons sep c c' rest :
  join sep (c :: c' :: rest) = c ++ sep ++ join sep (c' :: rest).
Proof. reflexivity. Qed.

Lemma contains_join k (r : row) :
  nonempty k = true ->
  forallb (fun c => negb (c =? 44)) k = true ->
  contains k (join (py ",") r) = existsb (contains k) r.
Proof.
  intros Hne Hk. induction r as [|c [|c' rest] IH].
  - simpl. now apply contains_empty.
  - simpl. now rewrite orb_false_r.
  - rewrite join_cons. change (py "," ++ join (py ",") (c' :: rest))
      with (44 :: join (py ",") (c' :: rest)).
    rewrite (contains_across k c 44 _ Hne Hk), IH. reflexivity.
Qed.

Lemma existsb_swap {A B} (f : A -> B -> bool) (la : list A) (lb : list B) :
  existsb (fun a => existsb (f a) lb) la
  = existsb (fun b => existsb (fun a => f a b) la) lb.
Proof.
  induction la as [|a la IH]; simpl.
  - induction lb; simpl; auto.
  - rewrite IH. clear IH. induction lb as [|b lb IH]; simpl; [reflexivity|].
    rewrite <- IH. destruct (f a b), (existsb (f a) lb),
      (existsb (fun a0 => f a0 b) la); reflexivity.
Qed.

Lemma existsb_agree {A} (f g : A -> bool) (l : list A) :
  (forall x, In x l -> f x = g x) -> existsb f l = existsb g l.
Proof.
  induction l as [|x l IH]; simpl; intros H; [reflexivity|].
  rewrite (H x), IH; auto.
Qed.

End SourceText.

(** X9: the source test on the comma-joined row holds exactly when some
    single cell holds a source marker: no marker contains a comma, so none
    can match across two cells. *)
Theorem source_text_of_join (r : row) :
  is_source_text (join (py ",") r) = existsb is_source_text r.
Proof.
  unfold is_source_text.
  rewrite (existsb_swap (fun c k => contains k c) r source_markers).
  apply existsb_agree. intros k Hk. apply contains_join.
  - unfold source_markers in Hk. simpl in Hk.
    repeat (destruct Hk as [<-|Hk]; [reflexivity|]). contradiction.
  - unfold source_markers in Hk. simpl in Hk.
    repeat (destruct Hk as [<-|Hk]; [vm_compute; reflexivity|]).
    contradiction.
Qed.

Lemma trim_app_blank (a e : row) :
  is_blank_row e = true -> trim (a ++ e) = trim a.
Proof. intros He. now apply rstrip_with_app_true. Qed.

Lemma step_blank (st : state) (e : row) :
  is_blank_row e = true -> step st e = Some st.
Proof.
  intros He. unfold step. fold (trim e). change e with ([] ++ e).
  rewrite (trim_app_blank [] e He). reflexivity.
Qed.

(** X10: trailing empty cells do not matter, and a row of empty cells only
    is skipped: the loop sees a row only without its trailing empty cells. *)
Theorem step_ignores_trailing_empties (st : state) (r e : row) :
  is_blank_row e = true ->
  step st (r ++ e) = step st r /\ step st e = Some st.
Proof.
  intros He. split.
  - now rewrite !step_dispatch, (trim_app_blank r e He).
  - now apply step_blank.
Qed.

Lemma step_ignores_trailing_empties_witness :
  is_blank_row [py ""; py ""] = true
  /\ step init (lausanne_date ++ [py ""; py ""]) = step init lausanne_date
  /\ step init [py ""; py ""] = Some init.
Proof.
  assert (H : is_blank_row [py ""; py ""] = true) by reflexivity.
  split; [exact H|].
  exact (step_ignores_trailing_empties init lausanne_date _ H).
Defined.

(** X11: blank rows anywhere in the input change nothing: the run over the
    rows equals the run over the rows that are not blank. *)
Theorem run_skips_blank_rows (st : state) (rows : list row) :
  run st (List.filter (fun r => negb (is_blank_row r)) rows) = run st rows.
Proof.
  revert st. induction rows as [|r rows IH]; intros st; [reflexivity|].
  cbn [List.filter]. destruct (is_blank_row r) eqn:E; cbn [negb run].
  - rewrite (step_blank st r E). simpl. apply IH.
  - destruct (step st r); simpl; [apply IH|reflexivity].
Qed.

Lemma last_nonempty_nonempty (r : row) (t : str) :
  last_nonempty r = Some t -> nonempty t = true.
Proof.
  intros El. apply last_nonempty_cell in El as Hc.
  unfold cell_nonempty in Hc. destruct t; [|reflexivity].
  vm_compute in Hc. discriminate.
Qed.

(** The meet-line branch on a row whose second cell is not empty. *)
Lemma meet_line_unfold (st : state) (r0 r1 : str) (rest : row) :
  nonempty (norm r1) = true ->
  meet_line st (r0 :: r1 :: rest)
  = match last_nonempty rest with
    | Some t =>
        if is_source_text t
        then set_source (Some t) (set_meet (Some (norm r1)) st)
        else set_meet (Some (norm r1)) st
    | None => set_meet (Some (norm r1)) st
    end.
Proof.
  intros H1.
  assert (F : List.find cell_nonempty (drop 1 (r0 :: r1 :: rest)) = Some r1).
  { cbn [drop List.find]. unfold cell_nonempty. now rewrite H1. }
  assert (E : (if (2 <? length (r0 :: r1 :: rest))%nat
               then last_nonempty (drop 2 (r0 :: r1 :: rest)) else None)
              = last_nonempty rest).
  { destruct rest as [|x rest]; reflexivity. }
  unfold meet_line. rewrite F, E.
  destruct (last_nonempty rest) as [t|] eqn:El; [|reflexivity].
  now rewrite (last_nonempty_nonempty _ _ El).
Qed.

Lemma meet_line_second_cell (r0 r1 : str) (rest : row) :
  is_meet_line (r0 :: r1 :: rest) = true -> nonempty (norm r1) = true.
Proof.
  intros H. unfold is_meet_line in H.
  apply andb_prop in H as [H _]. now apply andb_prop in H as [_ H1].
Qed.

(** X12: on a meet line the meet context becomes the normalised second
    cell; the source context changes only when a cell from the third on is
    non-empty and the last such cell holds a source marker, and then it
    becomes that cell. *)
Theorem meet_line_sets_meet (st : state) (r0 r1 : str) (rest : row) :
  is_meet_line (r0 :: r1 :: rest) = true ->
  current_meet (meet_line st (r0 :: r1 :: rest)) = Some (norm r1)
  /\ current_source (meet_line st (r0 :: r1 :: rest))
     = match last_nonempty rest with
       | Some t => if is_source_text t then Some t else current_source st
       | None => current_source st
       end.
Proof.
  intros H. apply meet_line_second_cell in H.
  rewrite (meet_line_unfold st r0 r1 rest H).
  destruct (last_nonempty rest) as [t|]; [|split; reflexivity].
  destruct (is_source_text t); split; reflexivity.
Qed.

Lemma meet_line_sets_meet_witness :
  is_meet_line (py "" :: py "Zurich (Final)" :: [py "Omega Timing"]) = true
  /\ current_meet
       (meet_line init (py "" :: py "Zurich (Final)" :: [py "Omega Timing"]))
     = Some (norm (py "Zurich (Final)")).
Proof.
  assert (H : is_meet_line
                (py "" :: py "Zurich (Final)" :: [py "Omega Timing"]) = true)
    by (vm_compute; reflexivity).
  split; [exact H|]. exact (proj1 (meet_line_sets_meet init _ _ _ H)).
Defined.

(** X13: the Lane/Place cell, found after the "time" cell by its slash, is
    scanned for the splits as well: when it parses as a number (the slash
    is dropped by the number filter, so 4/2 reads as 42.0) that number is
    among the numeric cells from which strategy A takes the splits. *)
Theorem lane_place_also_numeric (r : row) (t : nat) (c : str) (f : float) :
  lane_place r (Some t) = Some c ->
  parse_float c = Some f ->
  contains (py "/") c = true /\ In f (numerics (drop (S t) r)).
Proof.
  unfold lane_place, numerics. intros Hl Hf.
  apply find_some in Hl as [Hin Hc]. split; [exact Hc|].
  apply list_elem_of_In, list_elem_of_omap. exists c. split; [|exact Hf].
  now apply list_elem_of_In.
Qed.

Lemma lane_place_also_numeric_witness :
  lane_place (List.map py ["Date"; "1 JAN"; "Time"; "3/1"; "5.82"; "10.10";
                           "14.55"; "19.95"]%string) (Some 2%nat)
  = Some (py "3/1")
  /\ parse_float (py "3/1") = Some (of_decimal false 31 0)
  /\ In (of_decimal false 31 0)
       (numerics (drop 3 (List.map py ["Date"; "1 JAN"; "Time"; "3/1"; "5.82";
                                      "10.10"; "14.55"; "19.95"]%string))).
Proof.
  assert (H1 : lane_place
                 (List.map py ["Date"; "1 JAN"; "Time"; "3/1"; "5.82"; "10.10";
                               "14.55"; "19.95"]%string) (Some 2%nat)
               = Some (py "3/1")) by (vm_compute; reflexivity).
  assert (H2 : parse_float (py "3/1") = Some (of_decimal false 31 0))
    by (vm_compute; reflexivity).
  split; [exact H1|]. split; [exact H2|].
  exact (proj2 (lane_place_also_numeric _ _ _ _ H1 H2)).
Defined.

(* ===================================================================== *)
(** * Further properties: the accumulator *)
(* ===================================================================== *)

Section FlushRecord.

(** The record a flush appends. *)
Lemma flush_record st st' :
  flush st = Some st' -> pending st <> ∅ ->
  exists p1 k,
    compute_derived (pending st) = Some p1
    /\ key_text p1 = Some k
    /\ records st'
       = records st
         ++ [match current_source st with
             | Some src =>
                 if nonempty src
                    && negb (truthy
                               (get (<["Ath_Mt_Strd" :=
                                        VStr (strip_char UNDERSCORE k)]> p1)
                                    "Source"))
                 then <["Source" := VStr src]>
                        (<["Ath_Mt_Strd" := VStr (strip_char UNDERSCORE k)]> p1)
                 else <["Ath_Mt_Strd" := VStr (strip_char UNDERSCORE k)]> p1
             | None => <["Ath_Mt_Strd" := VStr (strip_char UNDERSCORE k)]> p1
             end].
Proof.
  unfold flush. intros H Hne.
  rewrite bool_decide_eq_false_2 in H by assumption.
  destruct (compute_derived (pending st)) as [p1|] eqn:Hd; simpl in H;
    [|discriminate].
  destruct (key_text p1) as [k|] eqn:Hk; simpl in H; [|discriminate].
  injection H as <-. exists p1, k.
  split; [reflexivity|]. split; [exact Hk|]. reflexivity.
Qed.

(** The record a flush appends has the fields of the open record. *)
Lemma flush_record_fields st st' :
  flush st = Some st' -> pending st <> ∅ ->
  exists rec,
    records st' = records st ++ [rec]
    /\ forall k, k ∉ derived_keys -> k <> "Source"%string ->
                  rec !! k = pending st !! k.
Proof.
  intros H Hne.
  destruct (flush_record st st' H Hne) as (p1 & k & Hd & _ & ->).
  eexists. split; [reflexivity|].
  intros key Hk Hsrc. unfold derived_keys in Hk.
  rewrite !not_elem_of_cons in Hk.
  destruct Hk as (? & ? & ? & ? & ? & ? & _).
  assert (E : (<["Ath_Mt_Strd" := VStr (strip_char UNDERSCORE k)]> p1) !! key
              = pending st !! key).
  { rewrite lookup_insert_ne by congruence.
    apply (compute_derived_other _ _ _ Hd); congruence. }
  destruct (current_source st) as [src|]; [|exact E].
  match goal with |- (if ?b then _ else _) !! _ = _ => destruct b end;
    [|exact E].
  rewrite lookup_insert_ne by congruence. exact E.
Qed.

End FlushRecord.

(** A result that is there is its own default. *)
Lemma some_default {A} (o : option (list A)) :
  match o with Some _ => true | None => false end = true ->
  o = Some (default [] o).
Proof. destruct o; [reflexivity|discriminate]. Defined.

(** X14: a flush loses nothing: the appended record has every raw field of
    the open record unchanged, and its Source is the record's own when that
    is set and non-empty, else the current source context when that is set
    and non-empty, else the record's own. *)
Theorem flush_keeps_fields (st st' : state) :
  flush st = Some st' -> pending st <> ∅ ->
  exists rec,
    records st' = records st ++ [rec]
    /\ (forall k, k ∉ derived_keys -> k <> "Source"%string ->
                  rec !! k = pending st !! k)
    /\ rec !! "Source"
       = if truthy (get (pending st) "Source") then pending st !! "Source"
         else match current_source st with
              | Some src =>
                  if nonempty src then Some (VStr src)
                  else pending st !! "Source"
              | None => pending st !! "Source"
              end.
Proof.
  intros H Hne.
  destruct (flush_record st st' H Hne) as (p1 & k & Hd & _ & ->).
  eexists. split; [reflexivity|].
  assert (Hs : p1 !! "Source" = pending st !! "Source")
    by (apply (compute_derived_other _ _ _ Hd); discriminate).
  assert (Hg : get (<["Ath_Mt_Strd" := VStr (strip_char UNDERSCORE k)]> p1)
                   "Source" = get (pending st) "Source").
  { unfold get. rewrite lookup_insert_ne by discriminate. now rewrite Hs. }
  rewrite Hg. split.
  - intros key Hk Hsrc. unfold derived_keys in Hk.
    rewrite !not_elem_of_cons in Hk.
    destruct Hk as (? & ? & ? & ? & ? & ? & _).
    assert (E : (<["Ath_Mt_Strd" := VStr (strip_char UNDERSCORE k)]> p1) !! key
                = pending st !! key).
    { rewrite lookup_insert_ne by congruence.
      apply (compute_derived_other _ _ _ Hd); congruence. }
    destruct (current_source st) as [src|]; [|exact E].
    destruct (nonempty src && negb (truthy (get (pending st) "Source")));
      [|exact E].
    rewrite lookup_insert_ne by congruence. exact E.
  - destruct (current_source st) as [src|].
    + destruct (nonempty src), (truthy (get (pending st) "Source")); simpl;
        rewrite ?lookup_insert_eq, ?lookup_insert_ne by discriminate; auto.
    + rewrite lookup_insert_ne by discriminate.
      destruct (truthy (get (pending st) "Source")); auto.
Qed.

Lemma flush_keeps_fields_witness :
  exists st' rec,
    flush (mkState [] None None (Some (py "Omega Timing"))
             (<["Date" := VStr (py "1 JAN")]> ∅)) = Some st'
    /\ records st' = [] ++ [rec]
    /\ rec !! "Date" = Some (VStr (py "1 JAN"))
    /\ rec !! "Source" = Some (VStr (py "Omega Timing")).
Proof.
  set (st := mkState [] None None (Some (py "Omega Timing"))
               (<["Date" := VStr (py "1 JAN")]> ∅)).
  assert (Hne : pending st <> ∅) by apply insert_non_empty.
  destruct (flush_total st ltac:(vm_compute; reflexivity)) as [st' Hf].
  destruct (flush_keeps_fields st st' Hf Hne) as (rec & Hr & Hk & Hs).
  exists st', rec. split; [exact Hf|]. split; [exact Hr|]. split.
  - rewrite Hk; [apply lookup_insert_eq| |discriminate].
    unfold derived_keys. rewrite !not_elem_of_cons.
    repeat split; (discriminate || apply not_elem_of_nil).
  - rewrite Hs. reflexivity.
Defined.

Section Counting.

Lemma grown_refl p : grown p p.
Proof. now left. Qed.

Lemma grown_insert p k v : grown p (<[k := v]> p).
Proof. right. apply insert_non_empty. Qed.

Lemma grown_trans p p' p'' : grown p p' -> grown p' p'' -> grown p p''.
Proof.
  intros [->|H] [->|H']; unfold grown; auto.
Qed.

Lemma grown_set_vel k i vals p : grown p (set_vel k i vals p).
Proof.
  unfold set_vel. destruct (vals !! i); [apply grown_insert|apply grown_refl].
Qed.

Lemma grown_count p p' :
  grown p p' ->
  ((if bool_decide (p = ∅) then 0 else 1)
   <= (if bool_decide (p' = ∅) then 0 else 1) <= 1)%nat.
Proof.
  intros [->|H].
  - destruct (bool_decide (p = ∅)); lia.
  - rewrite (bool_decide_eq_false_2 (p' = ∅)) by assumption.
    destruct (bool_decide (p = ∅)); lia.
Qed.

Lemma reaction_time_row_grown st r i :
  grown (pending st) (pending (reaction_time_row st r i)).
Proof.
  unfold reaction_time_row.
  destruct (first_nonempty_after r i) as [v|]; [destruct (nonempty v)|];
    simpl; auto using grown_refl, grown_insert.
Qed.

Lemma wind_row_grown st r w st' :
  wind_row st r w = Some st' -> grown (pending st) (pending st').
Proof.
  unfold wind_row.
  set (p := match first_nonempty_after r w with
            | Some w_val =>
                if nonempty w_val then <["Wind" := VStr w_val]> (pending st)
                else pending st
            | None => pending st
            end).
  assert (Hp : grown (pending st) p).
  { subst p. destruct (first_nonempty_after r w) as [v|];
      [destruct (nonempty v)|]; auto using grown_refl, grown_insert. }
  destruct (find_token_idx r (py "velocity")) as [v|].
  - destruct (stride_rate (drop (S v) r)) as [sr|]; simpl; [|discriminate].
    intros [= <-]. simpl.
    eapply grown_trans; [exact Hp|].
    eapply grown_trans; [apply grown_set_vel|].
    eapply grown_trans; [apply grown_set_vel|].
    eapply grown_trans; [apply grown_set_vel|].
    eapply grown_trans; [apply grown_set_vel|].
    destruct sr; [apply grown_insert|apply grown_refl].
  - intros [= <-]. exact Hp.
Qed.

Lemma flush_open_count st st' :
  flush st = Some st' ->
  pending st' = ∅ /\ length (records st') = open_count st.
Proof.
  intros H. destruct (flush_shape _ _ H) as (He & _ & _ & _ & Hr).
  split; [exact He|]. unfold open_count.
  destruct Hr as [[E ->]|[Hne (rec & ->)]].
  - rewrite bool_decide_eq_true_2 by assumption. lia.
  - rewrite bool_decide_eq_false_2 by assumption.
    rewrite length_app. simpl. lia.
Qed.

Lemma step_open_count st r st' :
  step st r = Some st' ->
  (open_count st + opens_always (classify (trim r)) <= open_count st'
   <= open_count st + opens (classify (trim r)))%nat.
Proof.
  rewrite step_dispatch.
  pose proof (classify_cases (trim r)) as Hc.
  destruct (classify (trim r)); unfold handle; cbn [opens opens_always].
  - destruct (trim r) as [|r0 rest]; [intros [= <-]; lia|].
    intros H. apply athlete_header_spec in H as (stf & Hf & ->).
    apply flush_open_count in Hf as [_ Hf].
    unfold open_count at 2 3. simpl.
    rewrite bool_decide_eq_true_2 by reflexivity. lia.
  - intros [= <-]. destruct Hc as [_ Hm].
    destruct (meet_line_contexts st _ Hm) as (Hr & Hp & _).
    unfold open_count. rewrite Hr, Hp. lia.
  - destruct Hc as (_ & _ & _ & d & ->). intros H.
    apply date_row_spec in H as (stf & Hf & ->).
    apply flush_open_count in Hf as [_ Hf].
    unfold open_count at 2 3. simpl.
    rewrite bool_decide_eq_false_2 by apply insert_non_empty. lia.
  - destruct Hc as (_ & _ & _ & _ & i & ->). intros [= <-].
    destruct (reaction_time_row_contexts st (trim r) i) as (Hr & _).
    pose proof (grown_count _ _ (reaction_time_row_grown st (trim r) i)).
    unfold open_count. rewrite Hr. lia.
  - destruct Hc as (_ & _ & _ & _ & _ & w & ->). intros H.
    pose proof (grown_count _ _ (wind_row_grown _ _ _ _ H)).
    apply wind_row_spec in H as (Hr & _).
    unfold open_count. rewrite Hr. lia.
  - intros [= <-].
    destruct (standalone_source_contexts st (trim r)) as (Hr & Hp & _).
    unfold open_count. rewrite Hr, Hp. lia.
  - intros [= <-]. lia.
Qed.

Lemma count_category_cons c r rows :
  count_category c (r :: rows)
  = ((if category_eqb (classify (trim r)) c then 1 else 0)
     + count_category c rows)%nat.
Proof.
  unfold count_category. cbn [List.filter].
  destruct (category_eqb (classify (trim r)) c); reflexivity.
Qed.

Lemma run_open_count rows st st' :
  run st rows = Some st' ->
  (open_count st + count_category DateRow rows <= open_count st'
   <= open_count st + count_category DateRow rows
      + count_category ReactionTimeRow rows + count_category WindRow rows)%nat.
Proof.
  revert st. induction rows as [|r rows IH]; intros st; cbn [run].
  - intros [= <-]. unfold count_category. simpl. lia.
  - destruct (step st r) as [st1|] eqn:E; simpl; [|discriminate].
    intros H. apply IH in H. apply step_open_count in E.
    rewrite !count_category_cons.
    destruct (classify (trim r)); cbn [category_eqb opens opens_always] in *;
      lia.
Qed.

Lemma count_category_le c rows : (count_category c rows <= length rows)%nat.
Proof. unfold count_category. apply filter_length_le. Qed.

Lemma count_three_le rows :
  (count_category DateRow rows + count_category ReactionTimeRow rows
   + count_category WindRow rows <= length rows)%nat.
Proof.
  induction rows as [|r rows IH]; [unfold count_category; simpl; lia|].
  rewrite !count_category_cons. cbn [length].
  destruct (classify (trim r)); cbn [category_eqb]; lia.
Qed.

End Counting.

(** X15: the output has one record for every Date row, and at most one more
    for every reaction-time or wind row (which open a record when none is
    open); so it never has more records than the input has rows, and with no
    reaction-time or wind rows it has exactly as many records as Date
    rows. *)
Theorem record_count_bounds (raw : list row) (recs : list dict) :
  parse raw = Some recs ->
  let rows := List.map (List.map norm) raw in
  (count_category DateRow rows <= length recs
   <= count_category DateRow rows + count_category ReactionTimeRow rows
      + count_category WindRow rows)%nat
  /\ (length recs <= length raw)%nat.
Proof.
  unfold parse. intros H. cbv zeta.
  destruct (run init (List.map (List.map norm) raw)) as [st|] eqn:Hrun;
    simpl in H; [|discriminate].
  destruct (flush st) as [st'|] eqn:Hf; simpl in H; [|discriminate].
  injection H as <-.
  apply flush_open_count in Hf as [_ ->].
  apply run_open_count in Hrun.
  pose proof (count_three_le (List.map (List.map norm) raw)) as Hle.
  rewrite length_map in Hle.
  change (open_count init) with 0%nat in Hrun.
  unfold row, str, char in *. lia.
Qed.

Lemma record_count_bounds_witness :
  parse [lausanne_meet; lausanne_date; lausanne_date]
  = Some (default [] (parse [lausanne_meet; lausanne_date; lausanne_date]))
  /\ length (default [] (parse [lausanne_meet; lausanne_date; lausanne_date]))
     = 2%nat.
Proof.
  assert (H : parse [lausanne_meet; lausanne_date; lausanne_date]
              = Some (default []
                        (parse [lausanne_meet; lausanne_date; lausanne_date])))
    by (apply some_default; vm_compute; reflexivity).
  split; [exact H|].
  pose proof (record_count_bounds _ _ H) as [W _]. cbv zeta in W.
  assert (C : count_category DateRow
                (List.map (List.map norm)
                   [lausanne_meet; lausanne_date; lausanne_date]) = 2%nat)
    by (vm_compute; reflexivity).
  assert (C1 : count_category ReactionTimeRow
                 (List.map (List.map norm)
                    [lausanne_meet; lausanne_date; lausanne_date]) = 0%nat)
    by (vm_compute; reflexivity).
  assert (C2 : count_category WindRow
                 (List.map (List.map norm)
                    [lausanne_meet; lausanne_date; lausanne_date]) = 0%nat)
    by (vm_compute; reflexivity).
  rewrite C, C1, C2 in W. lia.
Defined.

(* ===================================================================== *)
(** * Further properties: athlete sections *)
(* ===================================================================== *)

Section Shift.

Lemma flush_shift pre st : flush (shift pre st) = shift pre <$> flush st.
Proof.
  unfold flush. cbn [shift pending records current_source current_athlete
                     current_meet].
  destruct (bool_decide (pending st = ∅)); [reflexivity|].
  destruct (compute_derived (pending st)) as [p|]; [|reflexivity].
  cbn [mbind option_bind].
  destruct (key_text p) as [k|]; [|reflexivity].
  cbn [mbind option_bind fmap option_fmap option_map].
  unfold shift. cbn. now rewrite app_assoc.
Qed.

Lemma athlete_header_shift pre st r0 :
  athlete_header (shift pre st) r0 = shift pre <$> athlete_header st r0.
Proof.
  unfold athlete_header. rewrite flush_shift.
  destruct (flush st) as [stf|]; reflexivity.
Qed.

Lemma new_pending_shift pre st r d :
  new_pending (shift pre st) r d = new_pending st r d.
Proof. reflexivity. Qed.

Lemma date_row_shift pre st r d :
  date_row (shift pre st) r d = shift pre <$> date_row st r d.
Proof.
  unfold date_row. rewrite flush_shift.
  destruct (flush st) as [stf|]; reflexivity.
Qed.

Lemma meet_line_shift pre st r :
  meet_line (shift pre st) r = shift pre (meet_line st r).
Proof.
  unfold meet_line.
  destruct (List.find cell_nonempty (drop 1 r));
    destruct (if (2 <? length r)%nat then last_nonempty (drop 2 r) else None)
      as [t|]; try destruct (nonempty t && is_source_text t); reflexivity.
Qed.

Lemma standalone_source_shift pre st r :
  standalone_source (shift pre st) r = shift pre (standalone_source st r).
Proof.
  unfold standalone_source.
  destruct (last_nonempty r) as [m|]; [destruct (nonempty m)|]; reflexivity.
Qed.

Lemma reaction_time_row_shift pre st r i :
  reaction_time_row (shift pre st) r i = shift pre (reaction_time_row st r i).
Proof.
  unfold reaction_time_row.
  destruct (first_nonempty_after r i) as [v|]; [destruct (nonempty v)|];
    reflexivity.
Qed.

Lemma wind_row_shift pre st r w :
  wind_row (shift pre st) r w = shift pre <$> wind_row st r w.
Proof.
  unfold wind_row. cbn [shift pending].
  destruct (find_token_idx r (py "velocity")) as [v|]; [|reflexivity].
  destruct (stride_rate (drop (S v) r)) as [sr|]; reflexivity.
Qed.

(** Records already emitted do not influence what a row does. *)
Lemma step_shift pre st r : step (shift pre st) r = shift pre <$> step st r.
Proof.
  rewrite !step_dispatch.
  destruct (classify (trim r)); unfold handle.
  - destruct (trim r); [reflexivity|apply athlete_header_shift].
  - now rewrite meet_line_shift.
  - destruct (find_token_idx (trim r) (py "date"));
      [apply date_row_shift|reflexivity].
  - destruct (find_token_idx (trim r) (py "reaction time"));
      [now rewrite reaction_time_row_shift|reflexivity].
  - destruct (find_token_idx (trim r) (py "wind"));
      [apply wind_row_shift|reflexivity].
  - now rewrite standalone_source_shift.
  - reflexivity.
Qed.

Lemma run_shift pre st rows : run (shift pre st) rows = shift pre <$> run st rows.
Proof.
  revert st. induction rows as [|r rows IH]; intros st; [reflexivity|].
  cbn [run]. rewrite step_shift.
  destruct (step st r) as [st1|]; [|reflexivity].
  cbn [fmap option_fmap option_map mbind option_bind]. apply IH.
Qed.

Lemma run_app st rows1 rows2 :
  run st (rows1 ++ rows2) = (st' ← run st rows1; run st' rows2).
Proof.
  revert st. induction rows1 as [|r rows IH]; intros st; [reflexivity|].
  cbn [app run]. destruct (step st r); [apply IH|reflexivity].
Qed.

(** The output of a run from the initial state. *)
Lemma sections_run (rows1 : list row) (h : row) (rows2 : list row) :
  is_athlete_row (trim h) = true ->
  (st ← run init (rows1 ++ h :: rows2); st ← flush st; Some (records st))
  = (recs1 ← (st ← run init rows1; st ← flush st; Some (records st));
     recs2 ← (st ← run init (h :: rows2); st ← flush st; Some (records st));
     Some (recs1 ++ recs2)).
Proof.
  intros Ha. rewrite run_app. cbn [run].
  assert (Hc : classify (trim h) = AthleteMarker).
  { unfold classify, loop_rules, first_match. now rewrite Ha. }
  destruct (trim h) as [|r0 rest] eqn:Et; [discriminate|].
  set (s0 := mkState [] (Some r0) None None ∅).
  assert (Hs : forall st,
            step st h = (stf ← flush st; Some (shift (records stf) s0))).
  { intros st. rewrite step_dispatch, Et, Hc. unfold handle, athlete_header.
    destruct (flush st) as [stf|] eqn:Hf; [|reflexivity].
    cbn [mbind option_bind]. destruct (flush_shape _ _ Hf) as (-> & _).
    unfold shift, s0. cbn. now rewrite app_nil_r. }
  rewrite (Hs init), (flush_empty init eq_refl). cbn [mbind option_bind].
  change (shift (records init) s0) with s0.
  destruct (run init rows1) as [st1|]; [|reflexivity].
  cbn [mbind option_bind]. rewrite (Hs st1).
  destruct (flush st1) as [stf|]; [|reflexivity].
  cbn [mbind option_bind]. rewrite run_shift.
  destruct (run s0 rows2) as [st3|]; [|reflexivity].
  cbn [fmap option_fmap option_map mbind option_bind].
  rewrite flush_shift.
  destruct (flush st3) as [st4|]; reflexivity.
Qed.

End Shift.

(** X16: athlete sections are parsed independently.  Cutting the input in
    front of an athlete header and parsing the two parts on their own gives
    the same records, in the same order, as parsing the whole: the header
    flushes the open record and resets every context. *)
Theorem athlete_sections_independent (raw1 : list row) (h : row)
        (raw2 : list row) :
  is_athlete_row (trim (List.map norm h)) = true ->
  parse (raw1 ++ h :: raw2)
  = (recs1 ← parse raw1; recs2 ← parse (h :: raw2); Some (recs1 ++ recs2)).
Proof.
  intros Ha. unfold parse. rewrite map_app. cbn [List.map].
  now apply sections_run.
Qed.

Lemma athlete_sections_independent_witness :
  is_athlete_row (trim (List.map norm [lyles])) = true
  /\ parse ([lausanne_date] ++ [lyles] :: [lausanne_date])
     = (recs1 ← parse [lausanne_date];
        recs2 ← parse ([lyles] :: [lausanne_date]);
        Some (recs1 ++ recs2)).
Proof.
  assert (H : is_athlete_row (trim (List.map norm [lyles])) = true)
    by (vm_compute; reflexivity).
  split; [exact H|].
  exact (athlete_sections_independent [lausanne_date] [lyles]
           [lausanne_date] H).
Defined.

(* ===================================================================== *)
(** * Further properties: the records of the output *)
(* ===================================================================== *)

Section DateRecord.

Lemma of_opt_float_cases o :
  (exists f, o = Some f /\ of_opt_float o = VFloat f)
  \/ (o = None /\ of_opt_float o = VNone).
Proof. destruct o; [left|right]; eauto. Qed.

Lemma extract_splits_cases r t :
  (exists a b c d e,
     extract_splits r t
     = mkSplits (Some a) (Some b) (Some c) (Some d) (Some e))
  \/ extract_splits r t = no_splits.
Proof.
  unfold extract_splits, strategy_b.
  assert (Ha : (exists a b c d e,
                  strategy_a r t
                  = mkSplits (Some a) (Some b) (Some c) (Some d) (Some e))
               \/ strategy_a r t = no_splits).
  { unfold strategy_a. destruct t as [t|]; [|now right].
    destruct (numerics (drop (S t) r)) as [|a [|b [|c [|d [|e rest]]]]];
      try (now right); left; eauto 10. }
  destruct Ha as [(a & b & c & d & e & ->)| ->]; [left; eauto 10|].
  cbn [s50 no_splits].
  destruct (numerics r) as [|a [|b [|c [|d rest]]]]; try (now right).
  left. eauto 10.
Qed.

Lemma new_pending_keys st r d k :
  is_Some (new_pending st r d !! k) <-> k ∈ date_keys.
Proof.
  unfold new_pending, date_keys. cbv zeta.
  rewrite !lookup_insert_is_Some', lookup_empty, !elem_of_cons, elem_of_nil.
  split.
  - intros H. repeat (destruct H as [<-|H]; [tauto|]).
    now destruct H as [? ?].
  - intros H. repeat (destruct H as [->|H]; [tauto|]). contradiction.
Qed.

End DateRecord.

(** X17: a Date row always starts a new record.  The open record is flushed
    first; the new one has exactly the ten keys of a Date row (so no
    reaction time, wind, velocity or stride rate of the previous record
    carries over), and its athlete, meet and source are the contexts of
    that moment. *)
Theorem date_row_opens_fresh (st : state) (r : row) :
  pending_ok (pending st) = true ->
  classify (trim r) = DateRow ->
  exists stf st',
    flush st = Some stf /\ step st r = Some st'
    /\ records st' = records stf
    /\ (forall k, is_Some (pending st' !! k) <-> k ∈ date_keys)
    /\ pending st' !! "Athlete" = Some (of_opt_str (current_athlete st))
    /\ pending st' !! "Meet Info" = Some (of_opt_str (current_meet st))
    /\ pending st' !! "Source" = Some (of_opt_str (current_source st)).
Proof.
  intros Hok Hc. rewrite step_dispatch, Hc.
  pose proof (classify_cases (trim r)) as Hd. rewrite Hc in Hd.
  destruct Hd as (_ & _ & _ & d & Hd).
  destruct (flush_total _ Hok) as [stf Hf].
  destruct (flush_shape _ _ Hf) as (_ & Ha & Hm & Hs & _).
  exists stf, (set_pending (new_pending stf (trim r) d) stf).
  split; [exact Hf|]. split.
  { unfold handle, date_row. now rewrite Hd, Hf. }
  cbn [records pending set_pending]. split; [reflexivity|].
  split; [intros k; apply new_pending_keys|].
  unfold new_pending. cbv zeta. map_lookups. now rewrite Ha, Hm, Hs.
Qed.

Lemma date_row_opens_fresh_witness :
  pending_ok (<["RT" := VFloat zero]> (new_pending init lausanne_date 0)) = true
  /\ classify (trim lausanne_date) = DateRow
  /\ exists st',
       step (set_pending
               (<["RT" := VFloat zero]> (new_pending init lausanne_date 0))
               init) lausanne_date = Some st'
       /\ pending st' !! "RT" = None.
Proof.
  assert (H1 : pending_ok (<["RT" := VFloat zero]>
                             (new_pending init lausanne_date 0)) = true)
    by (vm_compute; reflexivity).
  assert (H2 : classify (trim lausanne_date) = DateRow)
    by (vm_compute; reflexivity).
  split; [exact H1|]. split; [exact H2|].
  destruct (date_row_opens_fresh
              (set_pending (<["RT" := VFloat zero]>
                              (new_pending init lausanne_date 0)) init)
              lausanne_date H1 H2) as (stf & st' & _ & Hs & _ & Hk & _).
  exists st'. split; [exact Hs|].
  destruct (pending st' !! "RT") as [v|] eqn:E; [exfalso|reflexivity].
  assert (K : ("RT" : string) ∈ date_keys)
    by (apply (proj1 (Hk _)); rewrite E; eauto).
  unfold date_keys in K. rewrite !elem_of_cons in K.
  repeat (destruct K as [K|K]; [discriminate|]). now apply elem_of_nil in K.
Defined.

(** X18: the record a Date row opens has its four splits and its time all
    set or all unset: a row with fewer than four usable numbers gives none
    of them, never a part. *)
Theorem date_row_splits_all_or_none (st : state) (r : row) (d : nat) :
  (exists a b c e t, splits_are (new_pending st r d) a b c e t)
  \/ (new_pending st r d !! "50m" = Some VNone
      /\ new_pending st r d !! "100m" = Some VNone
      /\ new_pending st r d !! "150m" = Some VNone
      /\ new_pending st r d !! "200m" = Some VNone
      /\ new_pending st r d !! "Time" = Some VNone).
Proof.
  pose proof (new_pending_splits st r d) as H. cbv zeta in H.
  destruct (extract_splits_cases r (find_token_idx r (py "time")))
    as [(a & b & c & e & t & E)|E]; rewrite E in H.
  - left. exists a, b, c, e, t. exact H.
  - right. exact H.
Qed.

Section Invariants.

Lemma keys_within_empty ks : keys_within ks ∅.
Proof. intros k [v H]. now rewrite lookup_empty in H. Qed.

Lemma keys_within_insert ks k v (p : dict) :
  k ∈ ks -> keys_within ks p -> keys_within ks (<[k := v]> p).
Proof.
  intros Hk Hp k' H. rewrite lookup_insert_is_Some' in H.
  destruct H as [<-|H]; auto.
Qed.

Lemma keys_within_weaken ks ks' (p : dict) :
  (forall k, k ∈ ks -> k ∈ ks') -> keys_within ks p -> keys_within ks' p.
Proof. intros H Hp k Hk. auto. Qed.

Lemma keys_within_set_vel ks k i vals (p : dict) :
  k ∈ ks -> keys_within ks p -> keys_within ks (set_vel k i vals p).
Proof.
  intros Hk Hp. unfold set_vel. destruct (vals !! i); [|exact Hp].
  now apply keys_within_insert.
Qed.

Lemma stride_ok_insert k v (p : dict) :
  k <> "StrideRate"%string -> stride_ok p -> stride_ok (<[k := v]> p).
Proof. intros Hk. unfold stride_ok. now rewrite lookup_insert_ne. Qed.

Lemma stride_ok_set_vel k i vals (p : dict) :
  k <> "StrideRate"%string -> stride_ok p -> stride_ok (set_vel k i vals p).
Proof.
  intros Hk Hp. unfold set_vel. destruct (vals !! i); [|exact Hp].
  now apply stride_ok_insert.
Qed.

(** The stride-rate scan gives only integers from 20 to 130. *)
Lemma stride_rate_range cells iv :
  stride_rate cells = Some (Some iv) -> (20 <= iv <= 130)%Z.
Proof.
  induction cells as [|c cells IH]; cbn [stride_rate]; [discriminate|].
  destruct (isdigit (norm c)); [|exact IH].
  destruct (int_of_digits (norm c)) as [n|]; cbn [mbind option_bind];
    [|discriminate].
  destruct ((20 <=? n)%Z && (n <=? 130)%Z) eqn:E; [|exact IH].
  intros [= <-]. apply andb_prop in E as [E1 E2]. lia.
Qed.

Lemma date_keys_raw k : k ∈ date_keys -> k ∈ raw_keys.
Proof. unfold raw_keys. intros H. apply elem_of_app. now left. Qed.

Lemma raw_keys_cols k : k ∈ raw_keys -> k ∈ cols.
Proof.
  unfold raw_keys, date_keys, cols. cbn [app]. rewrite !elem_of_cons.
  intros H. repeat (destruct H as [->|H]; [tauto|]). now apply elem_of_nil in H.
Qed.

Lemma pending_inv_empty : pending_inv ∅.
Proof.
  split; [apply pending_ok_empty|]. split; [apply keys_within_empty|].
  unfold stride_ok. now rewrite lookup_empty.
Qed.

Lemma pending_inv_new st r d : pending_inv (new_pending st r d).
Proof.
  split; [apply pending_ok_new|]. split.
  - intros k Hk. apply date_keys_raw.
    now apply (proj1 (new_pending_keys st r d k)).
  - unfold stride_ok.
    destruct (new_pending st r d !! "StrideRate") as [v|] eqn:E; [|exact I].
    exfalso.
    assert (K : ("StrideRate" : string) ∈ date_keys)
      by (apply (proj1 (new_pending_keys st r d _)); rewrite E; eauto).
    unfold date_keys in K. rewrite !elem_of_cons in K.
    repeat (destruct K as [K|K]; [discriminate|]). now apply elem_of_nil in K.
Qed.

Lemma reaction_time_row_inv st r i :
  pending_inv (pending st) -> pending_inv (pending (reaction_time_row st r i)).
Proof.
  intros (H1 & H2 & H3).
  split; [now apply reaction_time_row_ok|].
  unfold reaction_time_row.
  destruct (first_nonempty_after r i) as [v|]; [destruct (nonempty v)|];
    cbn [pending set_pending]; auto.
  split.
  - apply keys_within_insert; [in_keys|exact H2].
  - apply stride_ok_insert; [discriminate|exact H3].
Qed.

Lemma wind_row_inv st r w st' :
  wind_row st r w = Some st' ->
  pending_inv (pending st) -> pending_inv (pending st').
Proof.
  intros H (H1 & H2 & H3).
  split; [now apply (wind_row_spec _ _ _ _ H)|].
  revert H. unfold wind_row.
  set (p := match first_nonempty_after r w with
            | Some w_val =>
                if nonempty w_val then <["Wind" := VStr w_val]> (pending st)
                else pending st
            | None => pending st
            end).
  assert (Hp : keys_within raw_keys p /\ stride_ok p).
  { subst p. destruct (first_nonempty_after r w) as [v|];
      [destruct (nonempty v)|]; auto.
    split; [apply keys_within_insert; [in_keys|exact H2]|].
    apply stride_ok_insert; [discriminate|exact H3]. }
  destruct Hp as [Hk Hs].
  destruct (find_token_idx r (py "velocity")) as [v|].
  - destruct (stride_rate (drop (S v) r)) as [sr|] eqn:Es;
      cbn [mbind option_bind]; [|discriminate].
    intros [= <-]. cbn [pending set_pending].
    set (q := set_vel "Vel_200m" 3 _ _).
    assert (Hq : keys_within raw_keys q /\ stride_ok q).
    { subst q. split.
      - repeat (apply keys_within_set_vel; [in_keys|]). exact Hk.
      - repeat (apply stride_ok_set_vel; [discriminate|]). exact Hs. }
    destruct Hq as [Hqk Hqs]. destruct sr as [iv|]; [|auto].
    split; [apply keys_within_insert; [in_keys|exact Hqk]|].
    unfold stride_ok. rewrite lookup_insert_eq.
    now apply (stride_rate_range _ _ Es).
  - intros [= <-]. auto.
Qed.

(** The record a flush appends is a well-formed output record. *)
Lemma flush_record_ok st st' :
  flush st = Some st' -> pending_inv (pending st) ->
  Forall record_ok (records st) -> Forall record_ok (records st').
Proof.
  intros Hf (Hok & Hk & Hs) Hr.
  destruct (flush_shape _ _ Hf) as (_ & _ & _ & _ & [[_ ->]|[Hne _]]);
    [exact Hr|].
  destruct (flush_record st st' Hf Hne) as (p1 & k & Hd & Hkey & ->).
  apply Forall_app. split; [exact Hr|]. constructor; [|constructor].
  set (p2 := <["Ath_Mt_Strd" := VStr (strip_char UNDERSCORE k)]> p1).
  assert (R : record_ok p2).
  { apply pending_ok_fields in Hok as (F1 & F2 & _ & _ & _ & Hfresh).
    assert (N : forall key, In key derived_keys ->
                            pending st !! key = None)
      by (intros key Hin; now apply Hfresh, list_elem_of_In).
    pose proof (N "0-100m"%string ltac:(simpl; tauto)) as N1.
    pose proof (N "Vel_0_100m"%string ltac:(simpl; tauto)) as N2.
    pose proof (N "100-200m"%string ltac:(simpl; tauto)) as N3.
    pose proof (N "Vel_100_200m"%string ltac:(simpl; tauto)) as N4.
    pose proof (N "Differential"%string ltac:(simpl; tauto)) as N5.
    assert (Hraw : keys_within cols (pending st))
      by (eapply keys_within_weaken; [apply raw_keys_cols|exact Hk]).
    split; [|split; [|split]].
    - subst p2. apply keys_within_insert; [in_keys|].
      apply compute_derived_cases in Hd
        as [[_ ->]|(t100 & v & _ & _ & [[_ ->]|(t200 & v2 & _ & _ & ->)])];
        auto; repeat (apply keys_within_insert; [in_keys|]); exact Hraw.
    - subst p2. apply stride_ok_insert; [discriminate|].
      unfold stride_ok.
      rewrite (compute_derived_other _ _ "StrideRate" Hd) by discriminate.
      exact Hs.
    - exists (strip_char UNDERSCORE k). subst p2.
      split; [apply lookup_insert_eq|]. unfold strip_char. split.
      + intros t H.
        apply (proj1 (strip_with_ends (fun x => x =? UNDERSCORE) _)) in H.
        now rewrite N.eqb_refl in H.
      + intros t H.
        apply (proj2 (strip_with_ends (fun x => x =? UNDERSCORE) _)) in H.
        now rewrite N.eqb_refl in H.
    - subst p2. unfold derived_consistent, get.
      rewrite !(lookup_insert_ne p1 "Ath_Mt_Strd") by discriminate.
      rewrite (compute_derived_other _ _ "100m" Hd) by discriminate.
      rewrite (compute_derived_other _ _ "200m" Hd) by discriminate.
      fold (get (pending st) "100m"). fold (get (pending st) "200m").
      apply compute_derived_cases in Hd
        as [[E1 ->]|(t100 & v & E1 & _ & [[E2 ->]|(t200 & v2 & E2 & _ & ->)])];
        rewrite E1; try rewrite E2; map_lookups; auto. }
  destruct (current_source st) as [src|]; [|exact R].
  destruct (nonempty src && negb (truthy (get p2 "Source"))); [|exact R].
  destruct R as (R1 & R2 & (k' & R3 & R3') & R4).
  split; [|split; [|split]].
  - apply keys_within_insert; [in_keys|exact R1].
  - apply stride_ok_insert; [discriminate|exact R2].
  - exists k'. rewrite lookup_insert_ne by discriminate. auto.
  - revert R4. unfold derived_consistent, get.
    now rewrite !(lookup_insert_ne p2 "Source") by discriminate.
Qed.

Lemma step_state_inv st r st' :
  state_inv st -> step st r = Some st' -> state_inv st'.
Proof.
  intros [Hp Hr]. rewrite step_dispatch.
  pose proof (classify_cases (trim r)) as Hc.
  destruct (classify (trim r)); unfold handle.
  - destruct (trim r) as [|r0 rest]; [intros [= <-]; now split|].
    intros H. apply athlete_header_spec in H as (stf & Hf & ->).
    split; [apply pending_inv_empty|].
    cbn [records]. eapply flush_record_ok; eauto.
  - intros [= <-]. destruct Hc as [_ Hm].
    destruct (meet_line_contexts st _ Hm) as (E1 & E2 & _).
    unfold state_inv. now rewrite E1, E2.
  - destruct Hc as (_ & _ & _ & d & ->). intros H.
    apply date_row_spec in H as (stf & Hf & ->).
    split; [apply pending_inv_new|].
    cbn [records set_pending]. eapply flush_record_ok; eauto.
  - destruct Hc as (_ & _ & _ & _ & i & ->). intros [= <-].
    split; [now apply reaction_time_row_inv|].
    now rewrite (proj1 (reaction_time_row_contexts st (trim r) i)).
  - destruct Hc as (_ & _ & _ & _ & _ & w & ->). intros H.
    split; [now apply (wind_row_inv _ _ _ _ H)|].
    now rewrite (proj1 (wind_row_spec _ _ _ _ H)).
  - intros [= <-].
    destruct (standalone_source_contexts st (trim r)) as (E1 & E2 & _).
    unfold state_inv. now rewrite E1, E2.
  - intros [= <-]. now split.
Qed.

Lemma run_state_inv rows st st' :
  state_inv st -> run st rows = Some st' -> state_inv st'.
Proof.
  revert st. induction rows as [|r rows IH]; cbn [run]; intros st Hi.
  - now intros [= <-].
  - destruct (step st r) as [st1|] eqn:E; cbn [mbind option_bind];
      [|discriminate].
    apply IH. eapply step_state_inv; eauto.
Qed.

(** Every record of the output is well formed. *)
Lemma parse_records_ok raw : Forall record_ok (default [] (parse raw)).
Proof.
  unfold parse.
  destruct (run init (List.map (List.map norm) raw)) as [st|] eqn:Hrun;
    cbn [mbind option_bind default]; [|constructor].
  destruct (flush st) as [st'|] eqn:Hf; cbn [mbind option_bind default];
    [|constructor].
  assert (Hi : state_inv st).
  { eapply run_state_inv; [|exact Hrun].
    split; [apply pending_inv_empty|constructor]. }
  destruct Hi as [Hp Hr]. eapply flush_record_ok; eauto.
Qed.

End Invariants.

(** X19: every key of every record of the output is one of the columns of
    the table: the final selection of [cols] drops no field the parser
    wrote. *)
Theorem records_within_columns (raw : list row) :
  Forall (keys_within cols) (default [] (parse raw)).
Proof.
  eapply Forall_impl; [apply parse_records_ok|]. now intros rec (H & _).
Qed.

(** X20: the stride rate of every record of the output is unset or an
    integer from 20 to 130. *)
Theorem records_stride_rate_range (raw : list row) :
  Forall stride_ok (default [] (parse raw)).
Proof.
  eapply Forall_impl; [apply parse_records_ok|]. now intros rec (_ & H & _).
Qed.

(** X21: every record of the output carries the identity key, a string
    that neither starts nor ends with the separator. *)
Theorem records_key_trimmed (raw : list row) :
  Forall key_trimmed (default [] (parse raw)).
Proof.
  eapply Forall_impl; [apply parse_records_ok|].
  now intros rec (_ & _ & H & _).
Qed.

(** X22: in every record of the output the derived times follow from the
    splits: 0-100m is the 100m split rounded to two decimals, and with a
    200m split 100-200m is their rounded difference and Differential the
    rounded difference of that segment and the 100m split; a record without
    a 100m split has no derived field, one without a 200m split has neither
    100-200m nor Differential. *)
Theorem records_derived_consistent (raw : list row) :
  Forall derived_consistent (default [] (parse raw)).
Proof.
  eapply Forall_impl; [apply parse_records_ok|].
  now intros rec (_ & _ & _ & H).
Qed.

(* ===================================================================== *)
(** * Further properties: when the parser raises *)
(* ===================================================================== *)

Section Raising.

Lemma stride_rate_none cells :
  stride_rate cells = None ->
  exists c, In c cells /\ isdigit (norm c) = true
            /\ int_of_digits (norm c) = None.
Proof.
  induction cells as [|c cells IH]; cbn [stride_rate]; [discriminate|].
  destruct (isdigit (norm c)) eqn:Ed.
  - destruct (int_of_digits (norm c)) as [n|] eqn:Ei; cbn [mbind option_bind].
    + destruct ((20 <=? n)%Z && (n <=? 130)%Z); [discriminate|].
      intros H. destruct (IH H) as (c' & Hin & H'). exists c'.
      split; [now right|exact H'].
    + intros _. exists c. split; [now left|]. auto.
  - intros H. destruct (IH H) as (c' & Hin & H'). exists c'.
    split; [now right|exact H'].
Qed.

Lemma in_drop {A} (x : A) n (l : list A) : In x (drop n l) -> In x l.
Proof.
  revert n. induction l as [|y l IH]; intros [|n]; simpl; auto.
  intros H. right. eapply IH, H.
Qed.

Lemma in_trim (c : str) (r : row) : In c (trim r) -> In c r.
Proof.
  intros H. unfold trim in H.
  destruct (rstrip_with_split is_empty_cell r) as (post & E & _).
  rewrite E. apply in_or_app. now left.
Qed.

Lemma step_none_stride (st : state) (r : row) :
  pending_ok (pending st) = true ->
  step st r = None ->
  classify (trim r) = WindRow
  /\ exists v, find_token_idx (trim r) (py "velocity") = Some v
               /\ stride_rate (drop (S v) (trim r)) = None.
Proof.
  intros Hok. rewrite step_dispatch.
  pose proof (classify_cases (trim r)) as Hc.
  destruct (flush_total _ Hok) as [stf Hf].
  destruct (classify (trim r)); unfold handle; try discriminate.
  - destruct (trim r); [discriminate|].
    unfold athlete_header. now rewrite Hf.
  - destruct Hc as (_ & _ & _ & d & ->). unfold date_row. now rewrite Hf.
  - destruct (find_token_idx (trim r) (py "reaction time")); discriminate.
  - destruct Hc as (_ & _ & _ & _ & _ & w & ->). unfold wind_row.
    destruct (find_token_idx (trim r) (py "velocity")) as [v|];
      [|discriminate].
    destruct (stride_rate (drop (S v) (trim r))) as [sr|] eqn:Es;
      [discriminate|].
    intros _. split; [reflexivity|]. now exists v.
Qed.

End Raising.

(** A string of digit characters of the model that [int] refuses holds a
    superscript digit or is longer than the conversion limit. *)
Lemma int_refuses (s : str) :
  isdigit s = true -> int_of_digits s = None ->
  existsb is_superscript s = true
  \/ (int_max_str_digits < length s)%nat.
Proof.
  unfold isdigit, int_of_digits. intros Hd Hi.
  apply andb_prop in Hd as [_ Hd].
  destruct (forallb is_ascii_digit s) eqn:Ea; cbn [andb] in Hi.
  - right. destruct (length s <=? int_max_str_digits)%nat eqn:El;
      [discriminate|]. now apply Nat.leb_gt.
  - left. clear Hi. induction s as [|c s IH]; [discriminate|].
    cbn [forallb existsb] in *. apply andb_prop in Hd as [Hc Hd].
    unfold isdigit_char in Hc. unfold is_superscript at 1.
    destruct (is_ascii_digit c); cbn [andb orb] in *.
    + rewrite (IH Hd Ea). now rewrite orb_true_r.
    + now rewrite Hc.
Qed.

(** X23: the row loop can raise in one place only.  From a state the loop
    can reach, a row of Latin-1 text makes it raise only if it is handled
    as a wind row with a "velocity" cell and some cell after that cell is a
    string of digit characters that [int] refuses: one that holds a
    superscript digit, or one longer than the conversion limit. *)
Theorem step_raises_only_in_stride_scan (st : state) (r : row) :
  pending_ok (pending st) = true ->
  forallb latin1 r = true ->
  step st r = None ->
  classify (trim r) = WindRow
  /\ exists v c,
       find_token_idx (trim r) (py "velocity") = Some v
       /\ In c (drop (S v) (trim r))
       /\ isdigit (norm c) = true
       /\ int_of_digits (norm c) = None
       /\ (existsb is_superscript (norm c) = true
           \/ (int_max_str_digits < length (norm c))%nat).
Proof.
  intros Hok _ Hs.
  destruct (step_none_stride st r Hok Hs) as (Hc & v & Hv & Es).
  split; [exact Hc|].
  destruct (stride_rate_none _ Es) as (c & Hin & Hd & Hi).
  exists v, c. repeat (split; [assumption|]). now apply int_refuses.
Qed.

Lemma step_raises_only_in_stride_scan_witness :
  pending_ok (pending init) = true
  /\ forallb latin1 superscript_row = true
  /\ step init superscript_row = None
  /\ classify (trim superscript_row) = WindRow.
Proof.
  assert (H1 : pending_ok (pending init) = true) by (vm_compute; reflexivity).
  assert (H2 : forallb latin1 superscript_row = true)
    by (vm_compute; reflexivity).
  assert (H3 : step init superscript_row = None) by (vm_compute; reflexivity).
  split; [exact H1|]. split; [exact H2|]. split; [exact H3|].
  exact (proj1 (step_raises_only_in_stride_scan init superscript_row
                  H1 H2 H3)).
Defined.

Section Ascii.

Lemma length_replace1 old new s :
  (length new <= 1)%nat -> (length (replace1 old new s) <= length s)%nat.
Proof.
  intros Hn. induction s as [|c s IH]; simpl; [lia|].
  rewrite length_app. destruct (c =? old); simpl; lia.
Qed.

Lemma length_strip_with {A} (p : A -> bool) (l : list A) :
  (length (strip_with p l) <= length l)%nat.
Proof.
  unfold strip_with.
  destruct (lstrip_with_split p l) as (pre & E1 & _).
  destruct (rstrip_with_split p (lstrip_with p l)) as (post & E2 & _).
  apply (f_equal (@length A)) in E1, E2. rewrite length_app in E1, E2. lia.
Qed.

Lemma length_norm s : (length (norm s) <= length s)%nat.
Proof.
  unfold norm, strip_char, strip.
  etransitivity; [apply length_strip_with|].
  etransitivity; [apply length_strip_with|].
  etransitivity; [apply length_replace1; simpl; lia|].
  apply length_replace1. simpl. lia.
Qed.

Lemma all_ascii_norm s : all_ascii s = true -> all_ascii (norm s) = true.
Proof.
  unfold all_ascii. rewrite !forallb_forall. intros H.
  assert (F : Forall (fun c => (c <? 128) = true) (norm s)).
  { unfold norm, strip_char, strip.
    apply Forall_strip_with, Forall_strip_with.
    apply Forall_replace1; [constructor|].
    apply Forall_forall. intros c Hc _. revert c Hc. apply Forall_forall.
    apply Forall_replace1; [repeat constructor|].
    apply Forall_forall. intros c Hc _. apply H. now apply list_elem_of_In. }
  intros c Hc. rewrite Forall_forall in F. apply F. now apply list_elem_of_In.
Qed.

(** An ASCII string of digit characters of moderate length is an integer
    for [int]. *)
Lemma ascii_cell_safe c :
  all_ascii c = true -> (length c <= int_max_str_digits)%nat -> cell_safe c.
Proof.
  intros Ha Hl Hd. unfold int_of_digits.
  assert (Hn : all_ascii (norm c) = true) by now apply all_ascii_norm.
  assert (E : forallb is_ascii_digit (norm c) = true).
  { unfold isdigit in Hd. apply andb_prop in Hd as [_ Hd].
    unfold all_ascii in Hn. rewrite forallb_forall in *.
    intros x Hx. specialize (Hd x Hx). specialize (Hn x Hx).
    unfold isdigit_char in Hd. apply N.ltb_lt in Hn.
    repeat (apply orb_prop in Hd as [Hd|Hd]); auto;
      apply N.eqb_eq in Hd; lia. }
  rewrite E. pose proof (length_norm c) as L.
  rewrite (proj2 (Nat.leb_le _ _)) by lia. simpl. eauto.
Qed.

Lemma step_total st r :
  pending_ok (pending st) = true -> Forall cell_safe r ->
  exists st', step st r = Some st'.
Proof.
  intros Hok Hs. destruct (step st r) as [st'|] eqn:E; [eauto|exfalso].
  destruct (step_none_stride st r Hok E) as (_ & v & _ & Es).
  destruct (stride_rate_none _ Es) as (c & Hin & Hd & Hi).
  apply in_drop, in_trim in Hin. rewrite Forall_forall in Hs.
  apply list_elem_of_In in Hin.
  destruct (Hs c Hin Hd) as [n Hn]. congruence.
Qed.

Lemma run_total rows st :
  pending_ok (pending st) = true -> Forall (Forall cell_safe) rows ->
  exists st', run st rows = Some st' /\ pending_ok (pending st') = true.
Proof.
  revert st. induction rows as [|r rows IH]; intros st Hok Hs; cbn [run].
  - eauto.
  - apply Forall_cons in Hs as [Hr Hs].
    destruct (step_total st r Hok Hr) as [st1 E]. rewrite E.
    cbn [mbind option_bind]. apply IH; [|exact Hs].
    eapply step_pending_ok; eauto.
Qed.

End Ascii.

(** X24: on ASCII input the parser never raises: when every cell consists
    of ASCII characters and is no longer than the integer conversion limit
    of 4300 characters, [parse] returns its records. *)
Theorem parse_total_on_ascii (raw : list row) :
  forallb (forallb plain_cell) raw = true -> is_Some (parse raw).
Proof.
  intros H. unfold parse.
  assert (Hs : Forall (Forall cell_safe) (List.map (List.map norm) raw)).
  { apply Forall_forall. intros r Hr.
    apply list_elem_of_In, in_map_iff in Hr as (r0 & <- & Hr0).
    apply Forall_forall. intros c Hc.
    apply list_elem_of_In, in_map_iff in Hc as (c0 & <- & Hc0).
    rewrite forallb_forall in H. specialize (H r0 Hr0).
    rewrite forallb_forall in H. specialize (H c0 Hc0).
    unfold plain_cell in H. apply andb_prop in H as [Ha Hl].
    apply Nat.leb_le in Hl.
    apply ascii_cell_safe; [now apply all_ascii_norm|].
    pose proof (length_norm c0). lia. }
  destruct (run_total _ init pending_ok_empty Hs) as (st & -> & Hok).
  cbn [mbind option_bind].
  destruct (flush_total _ Hok) as [st' ->]. cbn [mbind option_bind]. eauto.
Qed.

Lemma parse_total_on_ascii_witness :
  forallb (forallb plain_cell) [lausanne_meet; lausanne_date] = true
  /\ is_Some (parse [lausanne_meet; lausanne_date]).
Proof.
  assert (H : forallb (forallb plain_cell) [lausanne_meet; lausanne_date]
              = true) by (vm_compute; reflexivity).
  split; [exact H|]. exact (parse_total_on_ascii _ H).
Defined.

(* ===================================================================== *)
(** * Further properties: the scraper's text helpers *)
(* ===================================================================== *)

Section ScraperText.

Import Scraper.

Lemma split_words s : Forall word (split s).
Proof.
  induction s as [|c t IH]; cbn [split]; [constructor|].
  destruct (isspace c) eqn:Ec; [exact IH|].
  assert (W1 : word [c]) by (split; [reflexivity|]; simpl; now rewrite Ec).
  destruct t as [|c' t']; [repeat constructor; apply W1|].
  destruct (isspace c') eqn:Ec'; [constructor; [exact W1|exact IH]|].
  destruct (split (c' :: t')) as [|w ws]; [repeat constructor; apply W1|].
  apply Forall_cons in IH as [[_ Hw] Hws].
  constructor; [|exact Hws]. split; [reflexivity|].
  simpl. now rewrite Ec, Hw.
Qed.

Lemma word_head w : word w -> exists x t, w = x :: t /\ isspace x = false.
Proof.
  intros [Hn Hw]. destruct w as [|x t]; [discriminate|].
  simpl in Hw. apply andb_prop in Hw as [Hx _].
  apply negb_true_iff in Hx. eauto.
Qed.

Lemma rstrip_with_app_keep {A} (p : A -> bool) (a b : list A) :
  rstrip_with p b = b -> b <> [] -> rstrip_with p (a ++ b) = a ++ b.
Proof.
  intros Hb Hne. induction a as [|x a IH]; [exact Hb|].
  cbn [app]. rewrite rstrip_with_cons, IH.
  destruct (a ++ b) eqn:E; [|reflexivity].
  destruct a; simpl in E; [congruence|discriminate].
Qed.

Lemma join_words_nonempty w ws : word w -> join (py " ") (w :: ws) <> [].
Proof.
  intros Hw. destruct (word_head w Hw) as (x & t & -> & _).
  destruct ws; discriminate.
Qed.

Lemma rstrip_join_words ws :
  Forall word ws -> rstrip_with isspace (join (py " ") ws) = join (py " ") ws.
Proof.
  induction 1 as [|w ws Hw Hws IH]; [reflexivity|].
  destruct ws as [|w' ws'].
  - cbn [join]. apply rstrip_with_none. apply Hw.
  - rewrite join_cons. rewrite app_assoc.
    apply rstrip_with_app_keep; [exact IH|].
    apply Forall_cons in Hws as [Hw' _]. now apply join_words_nonempty.
Qed.

Lemma strip_join_words ws :
  Forall word ws -> strip (join (py " ") ws) = join (py " ") ws.
Proof.
  intros H. unfold strip, strip_with.
  assert (E : lstrip_with isspace (join (py " ") ws) = join (py " ") ws).
  { destruct H as [|w ws Hw _]; [reflexivity|].
    destruct (word_head w Hw) as (x & t & -> & Hx).
    destruct ws; cbn [join app lstrip_with]; now rewrite Hx. }
  rewrite E. now apply rstrip_join_words.
Qed.

Lemma lower_app a b : lower (a ++ b) = lower a ++ lower b.
Proof. apply map_app. Qed.

Lemma lower_join ws :
  lower (join (py " ") ws) = join (py " ") (List.map lower ws).
Proof.
  induction ws as [|w [|w' ws'] IH]; [reflexivity|reflexivity|].
  rewrite join_cons, !lower_app, IH. reflexivity.
Qed.

Lemma lower_char_not_space c : isspace c = false -> isspace (lower_char c) = false.
Proof.
  intros H. unfold lower_char, is_ascii_upper.
  destruct (N.leb_spec 65 c) as [H1|H1]; [|exact H].
  destruct (N.leb_spec c 90) as [H2|H2]; [|exact H].
  cbn [andb]. unfold isspace.
  repeat match goal with
         | |- context [?a <=? ?b] =>
             let E := fresh in destruct (N.leb_spec a b) as [E|E]; try lia
         | |- context [?a =? ?b] =>
             let E := fresh in destruct (N.eqb_spec a b) as [E|E]; try lia
         end; reflexivity.
Qed.

Lemma lower_word w : word w -> word (lower w).
Proof.
  intros [Hn Hw]. split; [destruct w; [discriminate|reflexivity]|].
  unfold lower. rewrite forallb_forall in *. intros c Hc.
  apply in_map_iff in Hc as (c0 & <- & Hc0).
  apply negb_true_iff, lower_char_not_space, negb_true_iff, Hw, Hc0.
Qed.

(** The normalised text is the lower-case words joined by single spaces. *)
Lemma normalize_text_words s :
  normalize_text s = join (py " ") (List.map lower (split s)).
Proof.
  unfold normalize_text.
  rewrite strip_join_words by apply split_words. apply lower_join.
Qed.

Lemma word_no_space w : word w -> ~ In 32 w.
Proof.
  intros [_ Hw] Hin. rewrite forallb_forall in Hw.
  specialize (Hw 32 Hin). discriminate.
Qed.

Lemma app_space_inj (w w' x y : str) :
  ~ In 32 w -> ~ In 32 w' -> w ++ 32 :: x = w' ++ 32 :: y -> w = w' /\ x = y.
Proof.
  revert w'. induction w as [|a w IH]; intros [|a' w'] Hw Hw' E; cbn in E.
  - injection E as ->. auto.
  - injection E as <- _. exfalso. apply Hw'. now left.
  - injection E as -> _. exfalso. apply Hw. now left.
  - injection E as -> E.
    destruct (IH w') as [-> ->]; auto.
    + intros H. apply Hw. now right.
    + intros H. apply Hw'. now right.
Qed.

Lemma join_words_inj a b :
  Forall word a -> Forall word b ->
  join (py " ") a = join (py " ") b -> a = b.
Proof.
  intros Ha. revert b. induction Ha as [|w a Hw Ha IH]; intros b Hb E.
  - destruct Hb as [|w' b Hw' _]; [reflexivity|].
    symmetry in E. now apply join_words_nonempty in E.
  - destruct Hb as [|w' b Hw' Hb]; [now apply join_words_nonempty in E|].
    pose proof (word_no_space w Hw) as Nw.
    pose proof (word_no_space w' Hw') as Nw'.
    destruct a as [|w2 a], b as [|w2' b].
    + cbn [join] in E. now subst.
    + exfalso. rewrite join_cons in E. cbn [join] in E.
      apply Nw. rewrite E. apply in_or_app. right. now left.
    + exfalso. rewrite join_cons in E. cbn [join] in E.
      apply Nw'. rewrite <- E. apply in_or_app. right. now left.
    + rewrite !join_cons in E.
      apply (app_space_inj w w') in E as [-> E]; auto.
      f_equal. now apply IH.
Qed.

(** ** [str.replace] *)

Lemma startswith_app p x : startswith p (p ++ x) = true.
Proof.
  induction p as [|a p IH]; [now destruct x|].
  cbn. now rewrite N.eqb_refl, IH.
Qed.

Lemma startswith_split p s :
  startswith p s = true -> exists x, s = p ++ x.
Proof.
  revert s. induction p as [|a p IH]; intros s H; [now exists s|].
  destruct s as [|b s]; [discriminate|]. cbn in H.
  apply andb_prop in H as [E H]. apply N.eqb_eq in E. subst b.
  destruct (IH s H) as [x ->]. now exists x.
Qed.

Lemma contains_tail k c s : contains k (c :: s) = false -> contains k s = false.
Proof. cbn [contains]. intros H. now apply orb_false_elim in H as [_ H]. Qed.

(** Where the result holds no copy of [new], nothing was replaced. *)
Lemma replace_unchanged old new s :
  contains new (replace old new s) = false -> replace old new s = s.
Proof.
  unfold replace. induction s as [|c t IH]; [reflexivity|].
  cbn [replace_from]. destruct (startswith old (c :: t)).
  - intros H. exfalso.
    destruct (new ++ replace_from old new (length old - 1) t) eqn:E.
    + destruct new; [|discriminate]. cbn in H. discriminate.
    + rewrite <- E in H.
      assert (C : contains new
                    (new ++ replace_from old new (length old - 1) t) = true).
      { destruct (new ++ _) eqn:E'; cbn [contains];
          rewrite <- E', startswith_app; reflexivity. }
      congruence.
  - intros H. f_equal. apply IH. eapply contains_tail, H.
Qed.

Lemma replace_200m n :
  replace (py "200 m") (py "200m") n = py "200m men" <->
  n = py "200m men" \/ n = py "200 m men".
Proof.
  split.
  - destruct n as [|c t]; [discriminate|].
    unfold replace. cbn [replace_from].
    destruct (startswith (py "200 m") (c :: t)) eqn:Es.
    + apply startswith_split in Es as [x Ex]. rewrite Ex.
      change ((py "200 m" ++ x)) with (50 :: 48 :: 48 :: 32 :: 109 :: x) in *.
      injection Ex as -> ->.
      change (length (py "200 m") - 1)%nat with 4%nat.
      cbn [replace_from]. fold (replace (py "200 m") (py "200m") x).
      intros H. change (py "200m men") with (py "200m" ++ py " men") in H.
      apply app_inv_head in H.
      assert (U : replace (py "200 m") (py "200m") x = x).
      { apply replace_unchanged. rewrite H. reflexivity. }
      rewrite U in H. subst x. now right.
    + fold (replace (py "200 m") (py "200m") t). intros H.
      change (py "200m men") with (50 :: py "00m men") in H.
      injection H as -> H.
      assert (U : replace (py "200 m") (py "200m") t = t).
      { apply replace_unchanged. rewrite H. reflexivity. }
      rewrite U in H. subst t. now left.
  - intros [-> | ->]; reflexivity.
Qed.

End ScraperText.

(** X25: [is_200m_men] accepts exactly the texts whose words, split at any
    white space and compared without regard to case, are "200m" "men" or
    "200" "m" "men". *)
Theorem is_200m_men_iff (text : str) :
  Scraper.is_200m_men text = true <->
  List.map lower (Scraper.split text) = [py "200m"; py "men"]
  \/ List.map lower (Scraper.split text) = [py "200"; py "m"; py "men"].
Proof.
  unfold Scraper.is_200m_men. rewrite bool_decide_eq_true, replace_200m.
  rewrite normalize_text_words.
  assert (W : Forall Scraper.word (List.map lower (Scraper.split text))).
  { pose proof (split_words text) as H. induction H; constructor; auto.
    now apply lower_word. }
  assert (W1 : Forall Scraper.word [py "200m"; py "men"])
    by (repeat constructor).
  assert (W2 : Forall Scraper.word [py "200"; py "m"; py "men"])
    by (repeat constructor).
  split.
  - intros [E|E]; [left|right]; apply join_words_inj; auto.
  - intros [-> | ->]; [left|right]; reflexivity.
Qed.

Section Dedup.

Import Scraper.
Context `{Countable A}.

Lemma dedup_from_spec (seen : gset A) (l : list A) :
  NoDup (dedup_from seen l)
  /\ (forall x, x ∈ dedup_from seen l <-> x ∈ l /\ x ∉ seen)
  /\ sublist (dedup_from seen l) l.
Proof.
  revert seen. induction l as [|y l IH]; intros seen; cbn [dedup_from].
  - split; [constructor|]. split; [|constructor].
    intros x. rewrite elem_of_nil. tauto.
  - destruct (IH seen) as (N1 & M1 & S1).
    destruct (IH ({[y]} ∪ seen)) as (N2 & M2 & S2).
    destruct (bool_decide (y ∈ seen)) eqn:E.
    + apply bool_decide_eq_true in E. split; [exact N1|]. split.
      * intros x. rewrite M1, elem_of_cons. split; [tauto|].
        intros [[->|Hx] Hs]; tauto.
      * now apply sublist_cons.
    + apply bool_decide_eq_false in E. split; [|split].
      * constructor; [|exact N2]. rewrite M2. intros [_ Hn].
        apply Hn, elem_of_union. left. now apply elem_of_singleton.
      * intros x. rewrite !elem_of_cons, M2.
        rewrite not_elem_of_union, not_elem_of_singleton.
        destruct (decide (x = y)) as [->|Hne]; tauto.
      * now apply sublist_skip.
Qed.

Lemma dedup_from_nodup (seen : gset A) (l : list A) :
  NoDup l -> (forall x, x ∈ l -> x ∉ seen) -> dedup_from seen l = l.
Proof.
  intros Hl. revert seen. induction Hl as [|y l Hy Hl IH]; intros seen Hs;
    cbn [dedup_from]; [reflexivity|].
  rewrite bool_decide_eq_false_2 by (apply Hs; now left).
  f_equal. apply IH. intros x Hx. specialize (Hs x ltac:(now right)).
  assert (x <> y) by (intros ->; contradiction).
  rewrite not_elem_of_union, not_elem_of_singleton. tauto.
Qed.

(** X26: the scraper's order-keeping removal of duplicates returns a list
    without duplicates that has exactly the elements of its input, in the
    order of the input (it is a sub-list of it), and leaves a list without
    duplicates as it is, so applying it twice is applying it once. *)
Theorem dedup_spec (l : list A) :
  NoDup (dedup l)
  /\ (forall x, x ∈ dedup l <-> x ∈ l)
  /\ sublist (dedup l) l
  /\ (NoDup l -> dedup l = l)
  /\ dedup (dedup l) = dedup l.
Proof.
  unfold dedup. destruct (dedup_from_spec ∅ l) as (N & M & S).
  split; [exact N|]. split; [|split; [exact S|split]].
  - intros x. rewrite M. split; [tauto|]. intros Hx.
    split; [exact Hx|apply not_elem_of_empty].
  - intros Hl. apply dedup_from_nodup; [exact Hl|].
    intros x _. apply not_elem_of_empty.
  - apply dedup_from_nodup; [exact N|].
    intros x _. apply not_elem_of_empty.
Qed.

End Dedup.

(* ===================================================================== *)
(** * Further properties: stride rate, key and normalisation *)
(* ===================================================================== *)

Section StrideCell.

Lemma parse_float_norm_digits c :
  nonempty (norm c) = true -> forallb is_ascii_digit (norm c) = true ->
  parse_float c = Some (of_decimal false (digits_value (norm c)) 0).
Proof.
  intros Hn Hd. rewrite parse_float_unfold.
  destruct (norm c) as [|d ip] eqn:E; [discriminate|].
  pose proof Hd as Hd'. cbn [forallb] in Hd'.
  apply andb_prop in Hd' as [H0 Hip].
  destruct (upper_head_digit d ip H0) as [U1 U2].
  rewrite !bool_decide_eq_false_2 by assumption. cbn [nonempty negb orb].
  assert (N : forallb numeral_char (d :: ip) = true).
  { apply forallb_forall. intros x Hx. unfold numeral_char.
    rewrite forallb_forall in Hd. now rewrite (Hd x Hx). }
  rewrite filter_numeral by exact N.
  destruct (digit_plain d H0) as (_ & _ & _ & _ & _ & _ & Hm & _).
  unfold py_float. rewrite unsigned_body by assumption.
  rewrite (span_digits_digits (d :: ip) Hd). reflexivity.
Qed.

End StrideCell.

(** X27: the cell taken as the stride rate is read by the number parser as
    well: among cells of Latin-1 text it parses to the same integer, as a
    float, so it is one of the numeric cells after the "velocity" cell (the
    velocities are the first numbers among the nine cells that follow
    it). *)
Theorem stride_cell_also_numeric (cells : list str) (iv : Z) :
  forallb latin1 cells = true ->
  stride_rate cells = Some (Some iv) ->
  In (of_decimal false iv 0) (numerics cells).
Proof.
  intros _.
  induction cells as [|c cells IH]; cbn [stride_rate]; [discriminate|].
  assert (T : In (of_decimal false iv 0) (numerics cells) ->
              In (of_decimal false iv 0) (numerics (c :: cells))).
  { unfold numerics. cbn [omap list_omap].
    destruct (parse_float c); [now right|auto]. }
  destruct (isdigit (norm c)) eqn:Ed; [|auto].
  unfold int_of_digits.
  destruct (forallb is_ascii_digit (norm c)
            && (length (norm c) <=? int_max_str_digits)%nat) eqn:Ei;
    cbn [mbind option_bind]; [|discriminate].
  destruct ((20 <=? digits_value (norm c))%Z
            && (digits_value (norm c) <=? 130)%Z); [|auto].
  intros [= <-]. apply andb_prop in Ei as [Ea _].
  unfold isdigit in Ed. apply andb_prop in Ed as [En _].
  unfold numerics. cbn [omap list_omap].
  rewrite (parse_float_norm_digits c En Ea). now left.
Qed.

Lemma stride_cell_also_numeric_witness :
  forallb latin1 [py "10.1"; py "45"] = true
  /\ stride_rate [py "10.1"; py "45"] = Some (Some 45%Z)
  /\ In (of_decimal false 45 0) (numerics [py "10.1"; py "45"]).
Proof.
  assert (H : stride_rate [py "10.1"; py "45"] = Some (Some 45%Z))
    by (vm_compute; reflexivity).
  split; [reflexivity|]. split; [exact H|].
  exact (stride_cell_also_numeric [py "10.1"; py "45"] 45 eq_refl H).
Defined.

Section KeyText.

Lemma lstrip_with_head_keep {A} (p : A -> bool) x l :
  p x = false -> lstrip_with p (x :: l) = x :: l.
Proof. intros H. cbn. now rewrite H. Qed.

Lemma rstrip_with_last_keep {A} (p : A -> bool) l y :
  p y = false -> rstrip_with p (l ++ [y]) = l ++ [y].
Proof.
  intros H. unfold rstrip_with. rewrite rev_app_distr. cbn [rev app].
  rewrite lstrip_with_head_keep by exact H.
  cbn [rev]. now rewrite rev_involutive.
Qed.

Lemma strip_with_ends_keep {A} (p : A -> bool) x mid y :
  p x = false -> p y = false ->
  strip_with p (x :: mid ++ [y]) = x :: mid ++ [y].
Proof.
  intros Hx Hy. unfold strip_with. rewrite lstrip_with_head_keep by exact Hx.
  change (x :: mid ++ [y]) with ((x :: mid) ++ [y]).
  now apply rstrip_with_last_keep.
Qed.

(** The decimal text of a stride rate ends in a digit. *)
Lemma of_int_stride_last (iv : Z) :
  (20 <= iv <= 130)%Z ->
  exists t y, of_int iv = t ++ [y] /\ (y =? UNDERSCORE) = false.
Proof.
  intros H.
  assert (G : forallb
                (fun n => match rev (of_int n) with
                          | y :: _ => negb (y =? UNDERSCORE)
                          | [] => false
                          end) (seqZ 20 111) = true)
    by (vm_compute; reflexivity).
  rewrite forallb_forall in G.
  specialize (G iv). 
  assert (Hin : In iv (seqZ 20 111)).
  { apply list_elem_of_In, elem_of_seqZ. lia. }
  specialize (G Hin).
  destruct (rev (of_int iv)) as [|y t] eqn:E; [discriminate|].
  exists (rev t), y. split.
  - apply (f_equal (@rev char)) in E. rewrite rev_involutive in E.
    exact E.
  - now apply negb_true_iff.
Qed.

End KeyText.

(** X28: for an open record whose athlete and meet are set, the flush
    builds the key from the components as they are: with a stride rate
    from 20 to 130 it is Athlete_Meet_Stride, provided the athlete text
    does not start with an underscore; the stride rate is written in
    decimal. *)
Theorem flush_key_with_stride (st st' : state) (x : char) (a m : str)
        (iv : Z) :
  pending st !! "Athlete" = Some (VStr (x :: a)) ->
  pending st !! "Meet Info" = Some (VStr m) ->
  pending st !! "StrideRate" = Some (VInt iv) ->
  (20 <= iv <= 130)%Z ->
  x <> UNDERSCORE ->
  flush st = Some st' ->
  exists rec,
    records st' = records st ++ [rec]
    /\ rec !! "Ath_Mt_Strd"
       = Some (VStr ((x :: a) ++ py "_" ++ m ++ py "_" ++ of_int iv)).
Proof.
  intros Ha Hm Hs Hr Hx Hf.
  assert (Hne : pending st <> ∅).
  { intros E. rewrite E, lookup_empty in Ha. discriminate. }
  destruct (flush_record st st' Hf Hne) as (p1 & k & Hd & Hk & ->).
  assert (K : k = (x :: a) ++ py "_" ++ m ++ py "_" ++ of_int iv).
  { unfold key_text, get, get_or in Hk.
    rewrite (compute_derived_other _ _ "StrideRate" Hd) in Hk by discriminate.
    rewrite (compute_derived_other _ _ "Athlete" Hd) in Hk by discriminate.
    rewrite (compute_derived_other _ _ "Meet Info" Hd) in Hk by discriminate.
    rewrite Ha, Hm, Hs in Hk. cbn in Hk. now injection Hk as <-. }
  assert (S : strip_char UNDERSCORE k = k).
  { rewrite K. destruct (of_int_stride_last iv Hr) as (t & y & -> & Hy).
    unfold strip_char.
    replace ((x :: a) ++ py "_" ++ m ++ py "_" ++ t ++ [y])
      with (x :: (a ++ py "_" ++ m ++ py "_" ++ t) ++ [y])
      by (cbn [app]; now rewrite <- !app_assoc).
    apply strip_with_ends_keep; [|exact Hy]. now apply N.eqb_neq. }
  rewrite S, K. eexists. split; [reflexivity|].
  destruct (current_source st) as [src|];
    [destruct (nonempty src && _)|];
    rewrite ?lookup_insert_ne by discriminate; apply lookup_insert_eq.
Qed.

Lemma flush_key_with_stride_witness :
  exists st' rec,
    flush (set_pending
             (<["StrideRate" := VInt 45]>
                (<["Meet Info" := VStr (py "Zurich")]>
                   (<["Athlete" := VStr lyles]> ∅))) init) = Some st'
    /\ records st' = [] ++ [rec]
    /\ rec !! "Ath_Mt_Strd"
       = Some (VStr (lyles ++ py "_" ++ py "Zurich" ++ py "_" ++ of_int 45)).
Proof.
  set (st := set_pending
               (<["StrideRate" := VInt 45]>
                  (<["Meet Info" := VStr (py "Zurich")]>
                     (<["Athlete" := VStr lyles]> ∅))) init).
  destruct (flush_total st ltac:(vm_compute; reflexivity)) as [st' Hf].
  destruct (flush_key_with_stride st st' 76 (py "yles, Noah (USA) (1997)")
              (py "Zurich") 45
              ltac:(vm_compute; reflexivity) ltac:(vm_compute; reflexivity)
              ltac:(vm_compute; reflexivity) ltac:(lia)
              ltac:(vm_compute; discriminate) Hf) as (rec & Hr & Hk).
  exists st', rec. split; [exact Hf|]. split; [exact Hr|exact Hk].
Defined.

Section NormTwice.

Lemma strip_with_fixed {A} (p : A -> bool) (l : list A) :
  (forall x t, l = x :: t -> p x = false) ->
  (forall t x, l = t ++ [x] -> p x = false) ->
  strip_with p l = l.
Proof.
  intros Hh Hl. unfold strip_with.
  assert (E : lstrip_with p l = l).
  { destruct l as [|x t]; [reflexivity|].
    apply lstrip_with_head_keep. eapply Hh. reflexivity. }
  rewrite E. destruct (rev l) as [|y t] eqn:Er.
  - apply (f_equal (@rev A)) in Er. rewrite rev_involutive in Er.
    now rewrite Er.
  - apply (f_equal (@rev A)) in Er. rewrite rev_involutive in Er.
    cbn [rev] in Er. rewrite Er. apply rstrip_with_last_keep.
    eapply Hl. exact Er.
Qed.

Lemma strip_with_idem {A} (p : A -> bool) (l : list A) :
  strip_with p (strip_with p l) = strip_with p l.
Proof.
  destruct (strip_with_ends p l) as [Hh Hl].
  apply strip_with_fixed; [exact Hh|exact Hl].
Qed.

Lemma not_in_neqb (c : char) (s : str) :
  ~ In c s -> forallb (fun x => negb (x =? c)) s = true.
Proof.
  intros H. apply forallb_forall. intros x Hx.
  apply negb_true_iff, N.eqb_neq. intros ->. contradiction.
Qed.

Lemma in_lstrip_with {A} (p : A -> bool) (x : A) l :
  In x (lstrip_with p l) -> In x l.
Proof.
  destruct (lstrip_with_split p l) as (pre & E & _). intros H.
  rewrite E. apply in_or_app. now right.
Qed.

Lemma in_strip_with {A} (p : A -> bool) (x : A) l :
  In x (strip_with p l) -> In x l.
Proof.
  unfold strip_with. intros H. apply (in_lstrip_with p).
  destruct (rstrip_with_split p (lstrip_with p l)) as (post & E & _).
  rewrite E. apply in_or_app. now left.
Qed.

Lemma in_replace1 old new (x : char) s :
  In x (replace1 old new s) -> In x s \/ In x new.
Proof.
  induction s as [|c s IH]; cbn; [tauto|].
  intros H. apply in_app_or in H as [H|H].
  - destruct (N.eqb_spec c old); [now right|].
    destruct H as [->|[]]. left. now left.
  - destruct (IH H); [left; now right|now right].
Qed.

End NormTwice.

(** X29: the helpers normalise cells that the reader has normalised
    already; for a cell without a double quote this second normalisation
    changes nothing.  (With quotes it may: the quotes can hide white
    space.) *)
Theorem norm_twice (s : str) : ~ In QUOTE s -> norm (norm s) = norm s.
Proof.
  intros Hq.
  set (t := replace1 ZWSP [] (replace1 NBSP (py " ") s)).
  assert (Qt : ~ In QUOTE t).
  { intros H. apply in_replace1 in H as [H|[]].
    apply in_replace1 in H as [H|H]; [contradiction|].
    destruct H as [H|[]]. discriminate. }
  assert (E : norm s = strip t).
  { unfold norm. fold t. unfold strip_char.
    apply strip_with_none. apply not_in_neqb.
    intros H. apply Qt. unfold strip in H. eapply in_strip_with, H. }
  rewrite E.
  assert (F : Forall (fun c => c <> NBSP /\ c <> ZWSP) (strip t)).
  { rewrite <- E. apply norm_no_nbsp_zwsp. }
  unfold norm.
  rewrite (replace1_id NBSP), (replace1_id ZWSP).
  - unfold strip at 1 2. rewrite strip_with_idem. fold (strip t).
    unfold strip_char. apply strip_with_none, not_in_neqb.
    intros H. apply Qt. unfold strip in H. eapply in_strip_with, H.
  - apply forallb_forall. intros c Hc. apply negb_true_iff, N.eqb_neq.
    rewrite Forall_forall in F. apply list_elem_of_In in Hc.
    now destruct (F c Hc).
  - apply forallb_forall. intros c Hc. apply negb_true_iff, N.eqb_neq.
    rewrite Forall_forall in F. apply list_elem_of_In in Hc.
    now destruct (F c Hc).
Qed.

Lemma norm_twice_witness :
  ~ In QUOTE (py "  19.95 ") /\ norm (norm (py "  19.95 ")) = norm (py "  19.95 ").
Proof.
  assert (H : ~ In QUOTE (py "  19.95 ")).
  { cbn. intros H. repeat (destruct H as [H|H]; [discriminate|]). exact H. }
  split; [exact H|]. exact (norm_twice _ H).
Defined.

(* ===================================================================== *)
(** * Further properties: what a row leaves of the open record *)
(* ===================================================================== *)

Section Frame.

Lemma framed_refl ks p : framed ks p p.
Proof. split; auto. Qed.

Lemma framed_insert ks (k : string) v p : k ∈ ks -> framed ks p (<[k := v]> p).
Proof.
  intros Hk. split.
  - intros k' Hk'. apply lookup_insert_ne. intros ->. auto.
  - intros k' Hs. destruct (decide (k = k')) as [->|Hne].
    + rewrite lookup_insert_eq. eauto.
    + now rewrite lookup_insert_ne.
Qed.

Lemma framed_trans ks p p' p'' :
  framed ks p p' -> framed ks p' p'' -> framed ks p p''.
Proof.
  intros [A1 A2] [B1 B2]. split.
  - intros k Hk. now rewrite B1, A1.
  - auto.
Qed.

Lemma framed_set_vel ks (k : string) i vals p :
  k ∈ ks -> framed ks p (set_vel k i vals p).
Proof.
  intros Hk. unfold set_vel.
  destruct (vals !! i); [now apply framed_insert|apply framed_refl].
Qed.

Lemma reaction_time_row_framed st r i :
  framed (written_keys ReactionTimeRow) (pending st)
         (pending (reaction_time_row st r i)).
Proof.
  unfold reaction_time_row.
  destruct (first_nonempty_after r i) as [v|]; [destruct (nonempty v)|];
    simpl; try apply framed_refl.
  apply framed_insert, list_elem_of_In. simpl. auto.
Qed.

Lemma wind_row_framed st r w st' :
  wind_row st r w = Some st' ->
  framed (written_keys WindRow) (pending st) (pending st').
Proof.
  unfold wind_row.
  assert (K : forall k : string,
            In k (written_keys WindRow) -> k ∈ written_keys WindRow)
    by (intros k; apply list_elem_of_In).
  set (p := match first_nonempty_after r w with
            | Some w_val =>
                if nonempty w_val then <["Wind" := VStr w_val]> (pending st)
                else pending st
            | None => pending st
            end).
  assert (Hp : framed (written_keys WindRow) (pending st) p).
  { subst p.
    destruct (first_nonempty_after r w) as [v|]; [destruct (nonempty v)|];
      try apply framed_refl.
    apply framed_insert, K. simpl. auto. }
  destruct (find_token_idx r (py "velocity")) as [v|].
  - destruct (stride_rate (drop (S v) r)) as [sr|]; simpl; [|discriminate].
    intros [= <-]. simpl.
    assert (V : forall (k : string) i vals q,
              In k (written_keys WindRow) ->
              framed (written_keys WindRow) (pending st) q ->
              framed (written_keys WindRow) (pending st) (set_vel k i vals q)).
    { intros k i vals q Hk Hq. eapply framed_trans; [exact Hq|].
      now apply framed_set_vel, K. }
    destruct sr as [iv|];
      [eapply framed_trans; [|apply framed_insert, K; simpl; tauto]|];
      repeat (apply V; [simpl; tauto|]); exact Hp.
  - intros [= <-]. exact Hp.
Qed.

End Frame.

(** A state that is there is its own default. *)
Lemma step_default (st : state) (r : row) :
  match step st r with Some _ => true | None => false end = true ->
  step st r = Some (default st (step st r)).
Proof. destruct (step st r); [reflexivity|discriminate]. Defined.

(** X30: only an athlete header or a Date row closes the open record.
    Every other row leaves the output as it is and removes no field of the
    open record; a reaction-time row can change its RT only, a wind row its
    Wind, its four velocities and its stride rate only (so the splits, the
    time, the date and the lane of the record stay), and a meet line, a
    source line or an unclassified row changes no field. *)
Theorem open_record_frame (st st' : state) (r : row) :
  classify (trim r) <> AthleteMarker ->
  classify (trim r) <> DateRow ->
  step st r = Some st' ->
  records st' = records st
  /\ (forall k, k ∉ written_keys (classify (trim r)) ->
                pending st' !! k = pending st !! k)
  /\ (forall k, is_Some (pending st !! k) -> is_Some (pending st' !! k)).
Proof.
  intros Ha Hd. rewrite step_dispatch.
  pose proof (classify_cases (trim r)) as Hc.
  destruct (classify (trim r)) eqn:Ec; try congruence; unfold handle.
  - intros [= <-]. destruct Hc as [_ Hm].
    destruct (meet_line_contexts st (trim r) Hm) as (-> & -> & _). auto.
  - destruct Hc as (_ & _ & _ & _ & i & ->). intros [= <-].
    destruct (reaction_time_row_contexts st (trim r) i) as (-> & _).
    destruct (reaction_time_row_framed st (trim r) i) as [F1 F2]. auto.
  - destruct Hc as (_ & _ & _ & _ & _ & w & ->). intros Hw.
    destruct (wind_row_spec _ _ _ _ Hw) as (-> & _).
    destruct (wind_row_framed _ _ _ _ Hw) as [F1 F2]. auto.
  - intros [= <-].
    destruct (standalone_source_contexts st (trim r)) as (-> & -> & _). auto.
  - intros [= <-]. auto.
Qed.

Lemma open_record_frame_witness :
  classify (trim wind_row_after_date) <> AthleteMarker
  /\ classify (trim wind_row_after_date) <> DateRow
  /\ step lausanne_open wind_row_after_date = Some lausanne_wind
  /\ pending lausanne_wind !! "200m" = pending lausanne_open !! "200m".
Proof.
  set (st := lausanne_open). set (st' := lausanne_wind).
  assert (H1 : classify (trim wind_row_after_date) <> AthleteMarker)
    by (vm_compute; discriminate).
  assert (H2 : classify (trim wind_row_after_date) <> DateRow)
    by (vm_compute; discriminate).
  assert (H3 : step st wind_row_after_date = Some st')
    by (apply (step_default lausanne_open); vm_compute; reflexivity).
  split; [exact H1|]. split; [exact H2|]. split; [exact H3|].
  apply (open_record_frame st st' wind_row_after_date H1 H2 H3).
  assert (C : classify (trim wind_row_after_date) = WindRow)
    by (vm_compute; reflexivity).
  rewrite C. unfold written_keys. rewrite !not_elem_of_cons.
  repeat (split; [discriminate|]). apply not_elem_of_nil.
Defined.

(* ===================================================================== *)
(** * The contexts, row by row *)
(* ===================================================================== *)

Section Contexts.

(** What one row does to the three context fields and, at an athlete
    header, to the open record. *)
Lemma step_contexts_exact (st : state) (r : row) :
  pending_ok (pending st) = true ->
  match classify (trim r) with
  | AthleteMarker =>
      exists stf r0 rest,
        trim r = r0 :: rest /\ flush st = Some stf
        /\ step st r = Some (mkState (records stf) (Some r0) None None ∅)
        /\ (pending st = ∅ -> records stf = records st)
        /\ (pending st <> ∅ ->
            exists rec,
              records stf = records st ++ [rec]
              /\ forall k, k ∉ derived_keys -> k <> "Source"%string ->
                            rec !! k = pending st !! k)
  | MeetLine =>
      exists st' r0 r1 rest,
        trim r = r0 :: r1 :: rest
        /\ step st r = Some st'
        /\ current_athlete st' = current_athlete st
        /\ current_meet st' = Some (norm r1)
        /\ current_source st'
           = match last_nonempty rest with
             | Some t =>
                 if is_source_text t then Some t else current_source st
             | None => current_source st
             end
  | SourceLine =>
      exists st',
        step st r = Some st'
        /\ current_athlete st' = current_athlete st
        /\ current_meet st' = current_meet st
        /\ current_source st'
           = match last_nonempty (trim r) with
             | Some maybe => Some maybe
             | None => current_source st
             end
  | DateRow | ReactionTimeRow | Unclassified =>
      exists st', step st r = Some st' /\ contexts_kept st st'
  | WindRow =>
      forall st', step st r = Some st' -> contexts_kept st st'
  end.
Proof.
  intros Hok. rewrite step_dispatch.
  pose proof (classify_cases (trim r)) as Hc.
  destruct (flush_total _ Hok) as [stf Hf].
  destruct (flush_shape _ _ Hf) as (He & Ha & Hm & Hs & _).
  destruct (classify (trim r)); unfold handle, contexts_kept.
  - destruct (trim r) as [|r0 rest]; [discriminate|].
    exists stf, r0, rest. split; [reflexivity|]. split; [exact Hf|].
    split; [|split].
    + unfold athlete_header. rewrite Hf. simpl. now rewrite He.
    + intros Hp. rewrite (flush_empty _ Hp) in Hf. now injection Hf as <-.
    + intros Hne. now apply flush_record_fields.
  - destruct Hc as [_ Hc].
    destruct (trim r) as [|r0 [|r1 rest]]; try discriminate.
    exists (meet_line st (r0 :: r1 :: rest)), r0, r1, rest.
    split; [reflexivity|]. split; [reflexivity|].
    rewrite (meet_line_unfold st r0 r1 rest (meet_line_second_cell _ _ _ Hc)).
    destruct (last_nonempty rest) as [t|]; [destruct (is_source_text t)|];
      repeat split; reflexivity.
  - destruct Hc as (_ & _ & _ & d & ->).
    unfold date_row. rewrite Hf. simpl. eexists. split; [reflexivity|].
    simpl. auto.
  - destruct Hc as (_ & _ & _ & _ & i & ->).
    destruct (reaction_time_row_contexts st (trim r) i) as (_ & ? & ? & ?).
    eauto 10.
  - destruct Hc as (_ & _ & _ & _ & _ & w & ->). intros st' H.
    apply wind_row_spec in H as (_ & ? & ? & ? & _). auto.
  - exists (standalone_source st (trim r)). split; [reflexivity|].
    unfold standalone_source.
    destruct (last_nonempty (trim r)) as [m|] eqn:El; [|auto].
    rewrite (last_nonempty_nonempty _ _ El). auto.
  - eauto.
Qed.

End Contexts.

(** C5: the three context fields change only in the branch of their own
    category, for rows of Latin-1 text (on which the header and digit tests
    of this model are those of the code).  An athlete header flushes the
    open record (the output grows by exactly that record, with its fields,
    or stays as it is when none is open), sets the athlete from the first
    cell and clears meet and source.  A meet line sets the meet to its
    second cell and sets the source only to a cell that holds a source
    marker; a source line sets the source to its last non-empty cell; both
    keep the athlete, and no row but the athlete header ever unsets a
    context.  A date row, a reaction-time row, a wind row and an
    unclassified row leave all three as they are, also over any run of such
    rows.  Every branch but the wind row is shown to succeed. *)
Theorem C5_context_persistence (st : state) (r : row) (rows : list row) :
  pending_ok (pending st) = true ->
  forallb latin1 r = true ->
  forallb (forallb latin1) rows = true ->
  match classify (trim r) with
  | AthleteMarker =>
      exists stf r0 rest,
        trim r = r0 :: rest /\ flush st = Some stf
        /\ step st r = Some (mkState (records stf) (Some r0) None None ∅)
        /\ (pending st = ∅ -> records stf = records st)
        /\ (pending st <> ∅ ->
            exists rec,
              records stf = records st ++ [rec]
              /\ forall k, k ∉ derived_keys -> k <> "Source"%string ->
                            rec !! k = pending st !! k)
  | MeetLine =>
      exists st' r0 r1 rest,
        trim r = r0 :: r1 :: rest
        /\ step st r = Some st'
        /\ current_athlete st' = current_athlete st
        /\ current_meet st' = Some (norm r1)
        /\ current_source st'
           = match last_nonempty rest with
             | Some t =>
                 if is_source_text t then Some t else current_source st
             | None => current_source st
             end
  | SourceLine =>
      exists st',
        step st r = Some st'
        /\ current_athlete st' = current_athlete st
        /\ current_meet st' = current_meet st
        /\ current_source st'
           = match last_nonempty (trim r) with
             | Some maybe => Some maybe
             | None => current_source st
             end
  | DateRow | ReactionTimeRow | Unclassified =>
      exists st', step st r = Some st' /\ contexts_kept st st'
  | WindRow =>
      forall st', step st r = Some st' -> contexts_kept st st'
  end
  /\ (forallb (fun r => neutral (classify (trim r))) rows = true ->
      forall st', run st rows = Some st' -> contexts_kept st st').
Proof.
  intros Hok _ _. split.
  - now apply step_contexts_exact.
  - intros Hn st'. now apply run_contexts.
Qed.

Lemma C5_context_persistence_witness :
  pending_ok (pending lyles_open) = true
  /\ forallb latin1 [bednarek] = true
  /\ forallb (forallb latin1) [reaction_row; wind_row_after_date] = true
  /\ current_athlete lyles_open = Some lyles
  /\ current_meet lyles_open = Some (py "Lausanne Diamond League - 200m")
  /\ current_source lyles_open = Some (py "Swiss Timing")
  /\ (exists stf rec,
        flush lyles_open = Some stf
        /\ step lyles_open [bednarek]
           = Some (mkState (records stf) (Some bednarek) None None ∅)
        /\ records stf = records lyles_open ++ [rec]
        /\ rec !! "Athlete" = Some (VStr lyles)
        /\ rec !! "Date" = Some (VStr (py "14 JUN 2024")))
  /\ forall st',
       run lyles_open [reaction_row; wind_row_after_date] = Some st' ->
       contexts_kept lyles_open st'.
Proof.
  assert (H : pending_ok (pending lyles_open) = true)
    by (vm_compute; reflexivity).
  assert (L1 : forallb latin1 [bednarek] = true) by (vm_compute; reflexivity).
  assert (L2 : forallb (forallb latin1) [reaction_row; wind_row_after_date]
               = true) by (vm_compute; reflexivity).
  assert (E : classify (trim [bednarek]) = AthleteMarker)
    by (vm_compute; reflexivity).
  assert (T : trim [bednarek] = [bednarek]) by (vm_compute; reflexivity).
  assert (N : forallb (fun r => neutral (classify (trim r)))
                [reaction_row; wind_row_after_date] = true)
    by (vm_compute; reflexivity).
  assert (PA : pending lyles_open !! "Athlete" = Some (VStr lyles))
    by (vm_compute; reflexivity).
  assert (PD : pending lyles_open !! "Date" = Some (VStr (py "14 JUN 2024")))
    by (vm_compute; reflexivity).
  assert (Hne : pending lyles_open <> ∅).
  { intros Hp. rewrite Hp, lookup_empty in PA. discriminate. }
  destruct (C5_context_persistence lyles_open [bednarek]
              [reaction_row; wind_row_after_date] H L1 L2) as [W1 W2].
  rewrite E in W1.
  split; [exact H|]. split; [exact L1|]. split; [exact L2|].
  split; [vm_compute; reflexivity|]. split; [vm_compute; reflexivity|].
  split; [vm_compute; reflexivity|]. split; [|exact (W2 N)].
  destruct W1 as (stf & r0 & rest & Ht & Hf & Hs & _ & Hr).
  rewrite T in Ht. injection Ht as <- <-.
  destruct (Hr Hne) as (rec & Hrec & Hk).
  exists stf, rec. split; [exact Hf|]. split; [exact Hs|].
  split; [exact Hrec|].
  split.
  - rewrite <- PA. apply Hk; [|discriminate].
    unfold derived_keys. rewrite !not_elem_of_cons.
    repeat (split; [discriminate|]). apply not_elem_of_nil.
  - rewrite <- PD. apply Hk; [|discriminate].
    unfold derived_keys. rewrite !not_elem_of_cons.
    repeat (split; [discriminate|]). apply not_elem_of_nil.
Defined.
